(** * The trading dashboard: whale-trade ingestion and dashboard logic

    A shallow embedding of the parts of the repository that carry behaviour:

    - the [fetch-binance-whales] edge function (module [Whale]),
    - [calculateSentiments] of the coin sentiment view (module [Sentiment]),
    - [processData] of [TopCoinsCard] (module [TopCoins]),
    - the handlers of [TradingSuggestions] (module [Trading]).

    Asynchronous code is embedded sequentially: every [await] is a call whose
    answer is supplied by an explicit environment, and every effect that
    leaves the function (network call, database call, console line, toast)
    is recorded in order. *)

From Stdlib Require Import List String Ascii Bool Arith ZArith Lia.
From Stdlib Require Import Sorting.Sorted Sorting.Permutation.
From Stdlib Require Import Floats.
Import ListNotations.

Local Open Scope nat_scope.
Local Open Scope string_scope.
Local Open Scope list_scope.

(* ===================================================================== *)
(** * JavaScript values shared by the models *)
(* ===================================================================== *)

Module Js.

(** A thrown value: an [Error] carrying a message, or any other value. *)
Inductive thrown : Type :=
| Error (message : string)
| NotAnError.

(** Truthiness of a string: only the empty string is falsy. *)
Definition truthy (s : string) : bool :=
  match s with
  | EmptyString => false
  | String _ _ => true
  end.

(** Truthiness of a value that is [null]/[undefined] or a string. *)
Definition truthy_opt (o : option string) : bool :=
  match o with
  | None => false
  | Some s => truthy s
  end.

Fixpoint drop (n : nat) (s : string) : string :=
  match n, s with
  | O, _ => s
  | S n', EmptyString => EmptyString
  | S n', String _ s' => drop n' s'
  end.

(** [s.replace(pat, rep)] with a string pattern: the first occurrence of
    [pat] is replaced, the rest of the string is kept. *)
Fixpoint replace (pat rep s : string) : string :=
  if String.prefix pat s then rep ++ drop (String.length pat) s
  else match s with
       | EmptyString => EmptyString
       | String c s' => String c (replace pat rep s')
       end.

(** [Array.prototype.slice(0, n)]. *)
Definition slice0 {A : Type} (n : nat) (l : list A) : list A := firstn n l.

End Js.

(* ===================================================================== *)
(** * The whale-trade edge function *)
(* ===================================================================== *)

Module Whale.

Import Js.

(** The JavaScript runtime the function computes with: numbers with
    [parseFloat], [*] and [>=], numeric literals, and the text that
    [Date.prototype.toISOString] renders for a time value. The function is
    embedded over any such runtime; [Binary64] below is the one of a
    JavaScript engine. *)
Class Runtime : Type := {
  num : Type;
  parseFloat : string -> num;
  num_mul : num -> num -> num;
  num_ge : num -> num -> bool;
  num_lit : Z -> num;
  isoText : Z -> string
}.

Section Handler.

Context {R : Runtime}.

(** const WHALE_THRESHOLD = 100000 *)
Definition WHALE_THRESHOLD : num := num_lit 100000.

(** ** Data *)

Record Request : Type := {
  method : string;
  authorization : option string      (* req.headers.get('Authorization') *)
}.

Record User : Type := { id : string }.

Record ApiKeys : Type := {
  binance_api_key : string;
  binance_api_secret : string
}.

(** An entry of [exchangeData.symbols]. *)
Record SymbolInfo : Type := {
  symbol : string;
  quoteAsset : string;
  status : string
}.

(** An entry of the exchange's recent-trades answer: price and quantity
    as decimal text, the time in milliseconds since the epoch. *)
Record Trade : Type := {
  price : string;
  qty : string;
  time : Z;
  isBuyerMaker : bool
}.

(** The object handed to [.from('whale_trades').upsert(...)]. *)
Record WhaleRow : Type := {
  row_user_id : string;
  row_symbol : string;
  row_amount : num;
  row_price : num;
  row_trade_type : string;
  row_timestamp : string
}.

Inductive Body : Type :=
| BodyNull
| BodySuccess (success : bool) (whales : list Trade)
| BodyError (error : string).

Record Response : Type := {
  resp_status : Z;
  resp_body : Body
}.

(** ** The outside world of one invocation *)

(** { data: { user }, error } of [auth.getUser]. *)
Record GetUserResult : Type := {
  gu_user : option User;
  gu_error : option string
}.

(** { data, error } of the [api_keys] query ending in [.single()]. *)
Record ApiKeysResult : Type := {
  ak_data : option ApiKeys;
  ak_error : option string
}.

(** What [await fetch(.../trades?symbol=...)] and the reads of its body
    give: the fetch rejects; or the answer is not ok and [text()] throws or
    gives the text; or it is ok and [json()] (or the use of its value as an
    array) throws or gives the trades. *)
Inductive TradesAnswer : Type :=
| FetchRejected (e : thrown)
| NotOk (text : thrown + string)
| Ok (json : thrown + list Trade).

(** The answers of the services during one invocation. [exchangeInfo] is
    what the fetch of the exchange info, [json()] and the reading of
    [.symbols] as an array throw, or the symbols. *)
Record World : Type := {
  getUser : string -> GetUserResult;           (* the token *)
  selectApiKeys : string -> ApiKeysResult;     (* user_id *)
  exchangeInfo : thrown + list SymbolInfo;
  trades : string -> string -> TradesAnswer;   (* symbol, X-MBX-APIKEY *)
  upsertError : WhaleRow -> option string      (* insertError *)
}.

(** ** Effects *)

Inductive event : Type :=
| EGetUser (token : string)
| ESelectApiKeys (user_id : string)
| EFetchExchangeInfo
| EFetchTrades (symbol apikey : string)
| EUpsert (row : WhaleRow)
| EConsoleLog (msg : string)
| EConsoleError (msg : string).

(** The mutable state of an invocation: the [whales] array and the effects
    issued so far, oldest first. *)
Record St : Type := {
  whales : list Trade;
  trace : list event
}.

Definition M (A : Type) : Type := St -> (thrown + A) * St.

Definition ret {A : Type} (a : A) : M A := fun st => (inr a, st).

Definition bind {A B : Type} (m : M A) (k : A -> M B) : M B :=
  fun st =>
    match m st with
    | (inl e, st') => (inl e, st')
    | (inr a, st') => k a st'
    end.

Definition throw {A : Type} (e : thrown) : M A := fun st => (inl e, st).

(** try { m } catch (error) { h error } *)
Definition try_catch {A : Type} (m : M A) (h : thrown -> M A) : M A :=
  fun st =>
    match m st with
    | (inl e, st') => h e st'
    | (inr a, st') => (inr a, st')
    end.

Definition emit (e : event) : M unit :=
  fun st => (inr tt, {| whales := whales st; trace := trace st ++ [e] |}).

(** whales.push(...ts) *)
Definition push_whales (ts : list Trade) : M unit :=
  fun st => (inr tt, {| whales := whales st ++ ts; trace := trace st |}).

Definition get_whales : M (list Trade) := fun st => (inr (whales st), st).

(** An awaited value that may reject. *)
Definition await {A : Type} (r : thrown + A) : M A :=
  match r with
  | inl e => throw e
  | inr a => ret a
  end.

Fixpoint for_of {A : Type} (l : list A) (body : A -> M unit) : M unit :=
  match l with
  | [] => ret tt
  | x :: l' => bind (body x) (fun _ => for_of l' body)
  end.

Local Notation "x <- m ;; k" := (bind m (fun x => k))
  (at level 61, m at next level, right associativity).
Local Notation "m ;; k" := (bind m (fun _ => k))
  (at level 61, right associativity).

(** Only the first argument of a console call is recorded. *)
Definition console_log (msg : string) : M unit := emit (EConsoleLog msg).
Definition console_error (msg : string) : M unit := emit (EConsoleError msg).

(** ** The function body *)

(** The filter callback of [tradeData.filter(...)]. *)
Definition is_whale (trade : Trade) : bool :=
  let value := num_mul (parseFloat (price trade)) (parseFloat (qty trade)) in
  num_ge value WHALE_THRESHOLD.

(** The largest time value of a [Date]. *)
Definition MAX_TIME : Z := 8640000000000000.

(** [new Date(t).toISOString()]: a [RangeError] when [t] is no time value. *)
Definition toISOString (t : Z) : thrown + string :=
  if (Z.abs t <=? MAX_TIME)%Z then inr (isoText t)
  else inl (Error "Invalid time value").

(** The object literal of the upsert, once its timestamp is rendered. *)
Definition make_row (user : User) (symbol : string) (trade : Trade)
  (timestamp : string) : WhaleRow :=
  let tradeValue := num_mul (parseFloat (price trade)) (parseFloat (qty trade)) in
  {| row_user_id := id user;
     row_symbol := symbol;
     row_amount := tradeValue;
     row_price := parseFloat (price trade);
     row_trade_type := if isBuyerMaker trade then "buy" else "sell";
     row_timestamp := timestamp |}.

(** The body of [for (const trade of whaleTrades)]. *)
Definition store_trade (w : World) (user : User) (symbol : string)
  (trade : Trade) : M unit :=
  timestamp <- await (toISOString (time trade)) ;;
  let row := make_row user symbol trade timestamp in
  emit (EUpsert row) ;;
  match upsertError w row with
  | Some _ => console_error "Error inserting whale trade:"
  | None => console_log ("Successfully inserted whale trade for " ++ symbol)
  end.

(** The body of [for (const symbol of usdtPairs.slice(0, 10))]: the inner
    [try] with its [catch]. *)
Definition process_pair (w : World) (user : User) (apiKeys : ApiKeys)
  (symbol : string) : M unit :=
  try_catch
    (emit (EFetchTrades symbol (binance_api_key apiKeys)) ;;
     match trades w symbol (binance_api_key apiKeys) with
     | FetchRejected e => throw e
     | NotOk text =>
         _ <- await text ;;
         console_error ("Failed to fetch trades for " ++ symbol ++ ":")
         (* continue *)
     | Ok json =>
         tradeData <- await json ;;
         let whaleTrades := filter is_whale tradeData in
         for_of whaleTrades (store_trade w user symbol) ;;
         push_whales whaleTrades
     end)
    (fun _ => console_error ("Error fetching trades for " ++ symbol ++ ":")).

(** exchangeData.symbols.filter(...).map(s => s.symbol) *)
Definition usdtPairs (symbols : list SymbolInfo) : list string :=
  map symbol
    (filter (fun s => (quoteAsset s =? "USDT") && (status s =? "TRADING"))
       symbols).

(** The outer [try] block. *)
Definition main (w : World) (req : Request) : M Response :=
  console_log "Initializing Supabase client..." ;;
  match authorization req with
  | Some authHeader =>
      if truthy authHeader then
        console_log "Authenticating user..." ;;
        let token := replace "Bearer " "" authHeader in
        emit (EGetUser token) ;;
        match gu_error (getUser w token), gu_user (getUser w token) with
        | None, Some user =>
            console_log "Fetching API keys for user:" ;;
            emit (ESelectApiKeys (id user)) ;;
            match ak_error (selectApiKeys w (id user)),
                  ak_data (selectApiKeys w (id user)) with
            | None, Some apiKeys =>
                console_log "Fetching exchange info from Binance..." ;;
                emit EFetchExchangeInfo ;;
                symbols <- await (exchangeInfo w) ;;
                console_log "Fetching trades for USDT pairs..." ;;
                for_of (slice0 10 (usdtPairs symbols))
                       (process_pair w user apiKeys) ;;
                console_log "Completed processing whale trades" ;;
                ws <- get_whales ;;
                ret {| resp_status := 200;
                       resp_body := BodySuccess true ws |}
            | _, _ =>
                console_error "API keys not found:" ;;
                throw (Error "API keys not found")
            end
        | _, _ =>
            console_error "Authentication failed:" ;;
            throw (Error "Unauthorized")
        end
      else
        console_error "No authorization header provided" ;;
        throw (Error "No authorization header")
  | None =>
      console_error "No authorization header provided" ;;
      throw (Error "No authorization header")
  end.

(** error instanceof Error ? error.message : 'Unknown error occurred' *)
Definition error_text (error : thrown) : string :=
  match error with
  | Error message => message
  | NotAnError => "Unknown error occurred"
  end.

(** The outer [catch]. *)
Definition on_error (error : thrown) : M Response :=
  console_error "Error in fetch-binance-whales:" ;;
  ret {| resp_status := 500; resp_body := BodyError (error_text error) |}.

Definition init : St := {| whales := []; trace := [] |}.

(** The request handler given to [serve]: the response and the effects of
    the invocation. A new [Response] has status 200 unless it sets one. *)
Definition serve (w : World) (req : Request) : Response * list event :=
  if method req =? "OPTIONS" then
    ({| resp_status := 200; resp_body := BodyNull |}, [])
  else
    match try_catch (main w req) on_error init with
    | (inr response, st) => (response, trace st)
    | (inl _, st) =>
        ({| resp_status := 500; resp_body := BodyError "Internal Server Error" |},
         trace st)
    end.

(** ** What an invocation issued *)

(** The symbols of the trade fetches of a trace, in order. *)
Fixpoint fetched (t : list event) : list string :=
  match t with
  | [] => []
  | EFetchTrades s _ :: t' => s :: fetched t'
  | _ :: t' => fetched t'
  end.

(** The rows of the upserts of a trace, in order. *)
Fixpoint upserts (t : list event) : list WhaleRow :=
  match t with
  | [] => []
  | EUpsert r :: t' => r :: upserts t'
  | _ :: t' => upserts t'
  end.

(** The calls to the exchange and to [whale_trades], in order. *)
Definition is_io (e : event) : bool :=
  match e with
  | EFetchExchangeInfo | EFetchTrades _ _ | EUpsert _ => true
  | _ => false
  end.

(** The storage after the upserts of a trace, for a storage whose upsert
    is [put]. *)
Definition stored {Store : Type} (put : Store -> WhaleRow -> Store)
  (s : Store) (t : list event) : Store :=
  fold_left put (upserts t) s.

(** ** Words of the properties *)

(** The request is no preflight, carries an Authorization header,
    authentication gives [user] and the [api_keys] query gives [apiKeys]. *)
Definition authenticated (w : World) (req : Request) (user : User)
  (apiKeys : ApiKeys) : Prop :=
  method req <> "OPTIONS"
  /\ exists authHeader,
       authorization req = Some authHeader
       /\ truthy authHeader = true
       /\ getUser w (replace "Bearer " "" authHeader)
          = {| gu_user := Some user; gu_error := None |}
       /\ selectApiKeys w (id user)
          = {| ak_data := Some apiKeys; ak_error := None |}.

(** The time of the trade is a time value of [Date]. *)
Definition time_ok (trade : Trade) : bool :=
  (Z.abs (time trade) <=? MAX_TIME)%Z.

(** The row of a trade whose time is a time value. *)
Definition whale_row (user : User) (symbol : string) (trade : Trade)
  : WhaleRow :=
  make_row user symbol trade (isoText (time trade)).

(** The trades of a pair's answer that pass the filter. *)
Definition qualifying (w : World) (apiKeys : ApiKeys) (symbol : string)
  : list Trade :=
  match trades w symbol (binance_api_key apiKeys) with
  | Ok (inr tradeData) => filter is_whale tradeData
  | _ => []
  end.

(** The trades up to the first one whose time is no time value. *)
Fixpoint reached (ts : list Trade) : list Trade :=
  match ts with
  | [] => []
  | t :: ts' => if time_ok t then t :: reached ts' else []
  end.

(** The rows upserted for a pair. *)
Definition pair_rows (w : World) (user : User) (apiKeys : ApiKeys)
  (symbol : string) : list WhaleRow :=
  map (whale_row user symbol) (reached (qualifying w apiKeys symbol)).

(** The trades a pair adds to [whales]: its qualifying trades when all of
    them were upserted. *)
Definition pair_collected (w : World) (apiKeys : ApiKeys) (symbol : string)
  : list Trade :=
  if forallb time_ok (qualifying w apiKeys symbol)
  then qualifying w apiKeys symbol else [].

(** Fetching the trades of the pair fails: the fetch rejects, the answer
    is not ok, or its body cannot be read as trades. *)
Definition fetch_fails (w : World) (apiKeys : ApiKeys) (symbol : string)
  : Prop :=
  match trades w symbol (binance_api_key apiKeys) with
  | Ok (inr _) => False
  | _ => True
  end.

(** The line the function logs for a pair whose trades it could not get. *)
Definition failure_logged (symbol : string) (t : list event) : Prop :=
  In (EConsoleError ("Failed to fetch trades for " ++ symbol ++ ":")) t
  \/ In (EConsoleError ("Error fetching trades for " ++ symbol ++ ":")) t.

(** The invocation answers 500 with the message and has called neither
    the exchange nor [whale_trades]. *)
Definition rejected_with (w : World) (req : Request) (msg : string) : Prop :=
  fst (serve w req) = {| resp_status := 500; resp_body := BodyError msg |}
  /\ filter is_io (snd (serve w req)) = [].

(** The calls of one pair: its fetch, then the upserts of its rows. *)
Definition block (apikey : string) (b : string * list WhaleRow)
  : list event :=
  EFetchTrades (fst b) apikey :: map EUpsert (snd b).

(** The state [st] after the further pushes and effects [d]. *)
Definition extend (st d : St) : St :=
  {| whales := whales st ++ whales d; trace := trace st ++ trace d |}.

(** A computation that only adds to the state: from any state it gives the
    result and the additions it gives from the initial state. *)
Definition adds {A : Type} (m : M A) : Prop :=
  forall st, m st = (fst (m init), extend st (snd (m init))).

(** What one pair adds to the state. *)
Definition pair_added (w : World) (user : User) (apiKeys : ApiKeys)
  (symbol : string) : St :=
  snd (process_pair w user apiKeys symbol init).

(** What the loop over the pairs adds to the state. *)
Definition pairs_added (w : World) (user : User) (apiKeys : ApiKeys)
  (symbols : list string) : St :=
  fold_right (fun s d => extend (pair_added w user apiKeys s) d) init symbols.

(** The calls of the loop over the pairs: trade fetches and upserts. *)
Definition pair_calls (t : list event) : list event :=
  filter (fun e => match e with
                   | EFetchTrades _ _ | EUpsert _ => true
                   | _ => false
                   end) t.

End Handler.

(** ** The runtime of a JavaScript engine *)

Module Binary64.

(** The value of a decimal digit. *)
Definition digit (c : ascii) : option Z :=
  let n := nat_of_ascii c in
  if (48 <=? n)%nat && (n <=? 57)%nat then Some (Z.of_nat (n - 48)) else None.

(** Reads digits from [s] into [acc]; gives the value, the number of digits
    read and the rest of the string. *)
Fixpoint digits (s : string) (acc : Z) (n : nat) : Z * nat * string :=
  match s with
  | EmptyString => (acc, n, s)
  | String c s' =>
      match digit c with
      | Some d => digits s' (10 * acc + d)%Z (S n)
      | None => (acc, n, s)
      end
  end.

Definition nan : float := PrimFloat.div PrimFloat.zero PrimFloat.zero.

(** The double nearest to an integer below 2^63 in magnitude. *)
Definition of_Z (z : Z) : float :=
  if (z <? 0)%Z then PrimFloat.opp (PrimFloat.of_uint63 (Uint63.of_Z (- z)))
  else PrimFloat.of_uint63 (Uint63.of_Z z).

(** [parseFloat] on the plain decimal literals in which the exchange sends
    prices and quantities: an optional sign, digits, an optional fraction;
    [NaN] when no digit is found. With at most 15 significant digits the
    integer read and the power of ten are exact doubles, so the one rounding
    of the division gives the double nearest to the literal, which is the
    value of [parseFloat]. Exponent forms and longer literals are not
    covered. *)
Definition parseDecimal (s : string) : float :=
  let '(neg, s1) :=
    match s with
    | String "-" r => (true, r)
    | String "+" r => (false, r)
    | _ => (false, s)
    end in
  let '(ip, ni, s2) := digits s1 0%Z 0%nat in
  let '(m, nf) :=
    match s2 with
    | String "." r => let '(v, n, _) := digits r ip 0%nat in (v, n)
    | _ => (ip, 0%nat)
    end in
  if ((ni + nf)%nat =? 0)%nat then nan
  else
    let v := PrimFloat.div (of_Z m) (of_Z (10 ^ Z.of_nat nf)) in
    if neg then PrimFloat.opp v else v.

(** [z] in decimal, padded with zeros to [width] digits. *)
Fixpoint pad (width : nat) (z : Z) : string :=
  match width with
  | O => EmptyString
  | S w' =>
      pad w' (z / 10)
      ++ String (ascii_of_nat (48 + Z.to_nat (z mod 10))) EmptyString
  end.

(** The year of [toISOString]: four digits for the years 0 to 9999, a
    sign and six digits for the others. *)
Definition yearText (y : Z) : string :=
  if ((0 <=? y) && (y <=? 9999))%Z then pad 4 y
  else (if (y <? 0)%Z then "-" else "+") ++ pad 6 (Z.abs y).

(** The text of [toISOString] for a time value: the civil date of the day
    number, then the time of day. The divisions round down, so days before
    1970 come out as well. *)
Definition isoText (t : Z) : string :=
  let day := (t / 86400000)%Z in
  let ms := (t mod 86400000)%Z in
  let z := (day + 719468)%Z in
  let era := (z / 146097)%Z in
  let doe := (z mod 146097)%Z in
  let yoe := ((doe - doe / 1460 + doe / 36524 - doe / 146096) / 365)%Z in
  let doy := (doe - (365 * yoe + yoe / 4 - yoe / 100))%Z in
  let mp := ((5 * doy + 2) / 153)%Z in
  let d := (doy - (153 * mp + 2) / 5 + 1)%Z in
  let m := (if (mp <? 10)%Z then mp + 3 else mp - 9)%Z in
  let y := (yoe + era * 400 + (if (m <=? 2)%Z then 1 else 0))%Z in
  yearText y ++ "-" ++ pad 2 m ++ "-" ++ pad 2 d ++ "T"
  ++ pad 2 (ms / 3600000) ++ ":" ++ pad 2 (ms / 60000 mod 60) ++ ":"
  ++ pad 2 (ms / 1000 mod 60) ++ "." ++ pad 3 (ms mod 1000) ++ "Z".

#[export] Instance runtime : Runtime := {|
  num := float;
  parseFloat := parseDecimal;
  num_mul := PrimFloat.mul;
  num_ge := fun x y => PrimFloat.leb y x;
  num_lit := of_Z;
  Whale.isoText := isoText
|}.

(** ** An invocation for the examples *)

Definition sample_user : User := {| id := "u1" |}.

Definition sample_keys : ApiKeys :=
  {| binance_api_key := "key"; binance_api_secret := "secret" |}.

(** A trade of 2.5 at 67231.45, worth 168078.625. *)
Definition big_trade : Trade :=
  {| price := "67231.45000000"; qty := "2.50000000";
     time := 1499865549590; isBuyerMaker := true |}.

(** A trade of 0.1 at 67231.45. *)
Definition small_trade : Trade :=
  {| price := "67231.45000000"; qty := "0.10000000";
     time := 1499865549600; isBuyerMaker := false |}.

(** A trade of 40 at 3500, worth 140000. *)
Definition eth_trade : Trade :=
  {| price := "3500.00000000"; qty := "40.00000000";
     time := 1499865550000; isBuyerMaker := false |}.

Definition sample_symbols : list SymbolInfo :=
  [ {| symbol := "BTCUSDT"; quoteAsset := "USDT"; status := "TRADING" |};
    {| symbol := "ETHBTC"; quoteAsset := "BTC"; status := "TRADING" |};
    {| symbol := "BNBUSDT"; quoteAsset := "USDT"; status := "TRADING" |};
    {| symbol := "LUNAUSDT"; quoteAsset := "USDT"; status := "BREAK" |};
    {| symbol := "ETHUSDT"; quoteAsset := "USDT"; status := "TRADING" |} ].

(** The token "tok" is the one of "u1", whose keys are on file; the
    exchange lists five pairs, answers for BTCUSDT and ETHUSDT and refuses
    BNBUSDT. *)
Definition sample_world : World :=
  {| getUser := fun token =>
       if token =? "tok"
       then {| gu_user := Some sample_user; gu_error := None |}
       else {| gu_user := None; gu_error := Some "invalid JWT" |};
     selectApiKeys := fun user_id =>
       if user_id =? "u1"
       then {| ak_data := Some sample_keys; ak_error := None |}
       else {| ak_data := None; ak_error := Some "no rows" |};
     exchangeInfo := inr sample_symbols;
     trades := fun symbol _ =>
       if symbol =? "BTCUSDT" then Ok (inr [big_trade; small_trade])
       else if symbol =? "ETHUSDT" then Ok (inr [eth_trade])
       else NotOk (inr "Too many requests");
     upsertError := fun _ => None |}.

Definition sample_request : Request :=
  {| method := "POST"; authorization := Some "Bearer tok" |}.

(** A request without an Authorization header. *)
Definition anonymous_request : Request :=
  {| method := "POST"; authorization := None |}.

(** A storage that keeps every row it is given. *)
Definition append_row (s : list WhaleRow) (r : WhaleRow) : list WhaleRow :=
  s ++ [r].

(** The preflight request of a browser: no Authorization header. *)
Definition preflight_request : Request :=
  {| method := "OPTIONS"; authorization := None |}.

End Binary64.

End Whale.

(* ===================================================================== *)
(** * Sentiment datasets *)
(* ===================================================================== *)

Module Data.

(** Modelled from the spec: the declaration of [SentimentData]
    (components/coins/types.ts) is not among the sources. A dataset is the
    "sentiment data scraped from video comments": videos by id, each with
    its comments, each comment with the indicator the code reads. The
    entries of [videos] are listed in the order [Object.values] and
    [Object.entries] enumerate them; [videos] is absent when the field is
    missing. *)
Record Comment : Type := { indicator : string }.

Record Video : Type := { comments : list Comment }.

Record SentimentData : Type := {
  videos : option (list (string * Video))
}.

(** All comments of a dataset's videos, video by video. *)
Definition all_comments (vs : list (string * Video)) : list Comment :=
  flat_map (fun v => comments (snd v)) vs.

End Data.

(* ===================================================================== *)
(** * calculateSentiments of the coin sentiment view *)
(* ===================================================================== *)

Module Sentiment.

Import Data.

Record Stats : Type := {
  buy : nat;
  sell : nat;
  others : nat;
  total : nat
}.

(** The three counters [buy], [sell], [others] of the loop. *)
Definition counters : Type := (nat * nat * nat)%type.

(** The body of [video.comments.forEach]. *)
Definition count_comment (c : counters) (comment : Comment) : counters :=
  let '(buy, sell, others) := c in
  if indicator comment =? "buy" then (S buy, sell, others)
  else if indicator comment =? "sell" then (buy, S sell, others)
  else (buy, sell, S others).

(** The body of [Object.values(sentimentData.videos).forEach]. *)
Definition count_video (c : counters) (video : Video) : counters :=
  fold_left count_comment (comments video) c.

(** [sentimentData] is the component state: [None] is [null]. *)
Definition calculateSentiments (sentimentData : option SentimentData) : Stats :=
  match sentimentData with
  | None => {| buy := 0; sell := 0; others := 0; total := 0 |}
  | Some d =>
      match videos d with
      | None => {| buy := 0; sell := 0; others := 0; total := 0 |}
      | Some vs =>
          let '(buy, sell, others) :=
            fold_left count_video (map snd vs) (0, 0, 0) in
          let total := buy + sell + others in
          {| buy := buy; sell := sell; others := others; total := total |}
      end
  end.

(** The number of comments of a list that satisfy [p]. *)
Definition count (p : Comment -> bool) (cs : list Comment) : nat :=
  List.length (filter p cs).

Definition is_buy (c : Comment) : bool := indicator c =? "buy".
Definition is_sell (c : Comment) : bool := indicator c =? "sell".
Definition is_other (c : Comment) : bool := negb (is_buy c) && negb (is_sell c).

End Sentiment.

(* ===================================================================== *)
(** * The numbers of JavaScript *)
(* ===================================================================== *)

Module Double.

(** The doubles of the code are Rocq's primitive floats: IEEE 754 binary64
    with rounding to nearest, ties to even, which is the arithmetic of a
    JavaScript number. [Prim2SF] gives the sign, mantissa and exponent of
    a double. *)

(** The doubles that are +0, positive and finite, or +Infinity. *)
Definition nonneg (f : spec_float) : Prop :=
  match f with
  | S754_zero false | S754_finite false _ _ | S754_infinity false => True
  | _ => False
  end.

(** The place of a double of that kind among them: its value in units of
    2^-1074, and a number above all of these for +Infinity. *)
Definition rank (f : spec_float) : Z :=
  match f with
  | S754_finite _ m e => (Zpos m * 2 ^ (e + 1074))%Z
  | S754_infinity _ => (2 ^ 2100)%Z
  | _ => 0%Z
  end.

(** The doubles 1 and 100. *)
Definition one : spec_float := S754_finite false 4503599627370496 (-52).
Definition hundred : spec_float := S754_finite false 7036874417766400 (-46).

(** What a shift record holds of the number N / D it stands for: its
    whole part, and no round or sticky bit when there is no other part. *)
Definition holds (mrs : shr_record) (N D : Z) : Prop :=
  (0 <= shr_m mrs
  /\ shr_m mrs * D <= N < (shr_m mrs + 1) * D
  /\ (N = shr_m mrs * D -> shr_r mrs = false /\ shr_s mrs = false))%Z.

(** A counter of the code that was incremented [n] times from 0: up to
    2^53 every whole number is a double, and 2^53 + 1 is rounded back to
    2^53, where the counter stays. *)
Definition number (n : nat) : float :=
  of_uint63 (Uint63.of_Z (Z.min (Z.of_nat n) (2 ^ 53))).

(** (count / total) * 100 *)
Definition percent (count total : nat) : float :=
  (number count / number total * 100)%float.

End Double.

(* ===================================================================== *)
(** * processData of TopCoinsCard *)
(* ===================================================================== *)

Module TopCoins.

Import Data Double.

(** The [type] property of the card. *)
Inductive SentimentType : Type := Buy | Sell | Others.

Definition type_text (type : SentimentType) : string :=
  match type with
  | Buy => "buy"
  | Sell => "sell"
  | Others => "others"
  end.

(** A value of [coinSentiments]. *)
Record Tally : Type := {
  t_count : nat;
  t_total : nat
}.

(** An element of the returned array. Its percentage is the double the
    code computes. *)
Record Entry : Type := {
  coin : string;
  percentage : float;
  count : nat
}.

(** [o[k] = v] on an object that has the key or does not inherit it: the
    entries are listed in enumeration order, and an existing key keeps its
    place. *)
Fixpoint own_key {V : Type} (k : string) (v : V) (o : list (string * V))
  : list (string * V) :=
  match o with
  | [] => [(k, v)]
  | (k', v') :: o' =>
      if k' =? k then (k', v) :: o' else (k', v') :: own_key k v o'
  end.

(** [o[k] = v] on an object made by [{}]. Such an object inherits the
    accessor [__proto__] of [Object.prototype]: an assignment to that key
    calls the accessor, which replaces the prototype of [o] by [v] when
    [v] is an object, and makes no entry. An object assigned so brings
    no accessor and no read-only property with it, so later assignments
    make their entries. Every other key of [Object.prototype] is a
    writable data property, which an assignment shadows. *)
Definition set_key {V : Type} (k : string) (v : V) (o : list (string * V))
  : list (string * V) :=
  if k =? "__proto__" then o else own_key k v o.

(** The two counters of one coin: [sentimentCount] and [totalComments]
    after the loops over its videos and their comments. *)
Definition tally_comment (type : SentimentType) (t : Tally) (comment : Comment)
  : Tally :=
  {| t_total := S (t_total t);
     t_count := if indicator comment =? type_text type
                then S (t_count t) else t_count t |}.

Definition tally_video (type : SentimentType) (t : Tally) (video : Video)
  : Tally :=
  fold_left (tally_comment type) (comments video) t.

Definition tally_coin (type : SentimentType) (vs : list (string * Video))
  : Tally :=
  fold_left (tally_video type) (map snd vs) {| t_count := 0; t_total := 0 |}.

(** The callback of [Object.entries(data).forEach] applied to
    [coinSentiments]. *)
Definition collect (type : SentimentType)
  (coinSentiments : list (string * Tally)) (entry : string * SentimentData)
  : list (string * Tally) :=
  let '(coin, coinData) := entry in
  match videos coinData with
  | Some vs =>
      let t := tally_coin type vs in
      if (0 <? t_total t)%nat then set_key coin t coinSentiments
      else coinSentiments
  | None => coinSentiments
  end.

(** coin.length > 20 ? coin.substring(0, 20) + "..." : coin *)
Definition label (coin : string) : string :=
  if (20 <? String.length coin)%nat then substring 0 20 coin ++ "..." else coin.

(** The callback of [.map]: the percentage is (count / total) * 100 in
    doubles, a division and a multiplication that each round. *)
Definition to_entry (kv : string * Tally) : Entry :=
  let '(coin, t) := kv in
  {| coin := label coin;
     percentage := percent (t_count t) (t_total t);
     count := t_count t |}.

(** The comparator of [.sort]: (a, b) => b.percentage - a.percentage. *)
Definition compare (a b : Entry) : float :=
  (percentage b - percentage a)%float.

(** [Array.prototype.sort] is stable and puts [a] after [b] only where the
    comparator is positive at (a, b). The percentages of the entries are
    doubles from 0 to 100, on which the comparator is a consistent one, so
    the result is the one stable sorted arrangement; insertion from the
    right computes it: [x] goes before the first element it does not have
    to follow. *)
Fixpoint insert (x : Entry) (l : list Entry) : list Entry :=
  match l with
  | [] => [x]
  | y :: l' =>
      if (0 <? compare x y)%float then y :: insert x l' else x :: y :: l'
  end.

Definition sort (l : list Entry) : list Entry := fold_right insert [] l.

(** [data] is the property of the card: [None] is [null], otherwise the
    entries of the object as [Object.entries] lists them: the keys that
    are array indices first, in ascending order, then the other keys in
    the order of their creation. The entries of [coinSentiments] are
    made in that order, so [Object.entries] lists them as they were made.
    Nothing in the [try] block throws on such data, so its [catch] is never
    entered. *)
Definition processData (type : SentimentType)
  (data : option (list (string * SentimentData))) : list Entry :=
  match data with
  | None => []
  | Some entries =>
      let coinSentiments := fold_left (collect type) entries [] in
      Js.slice0 10 (sort (map to_entry coinSentiments))
  end.

(** ** Words of the properties *)

(** The comments that count for a card of the given type. *)
Definition matches (type : SentimentType) (c : Comment) : bool :=
  indicator c =? type_text type.

(** [a] may stand before [b]: its percentage is not smaller, as doubles
    compare. *)
Definition not_below (a b : Entry) : Prop :=
  (percentage b <=? percentage a)%float = true.

(** The percentage of the entry is +0, a positive double or +Infinity. *)
Definition fair (e : Entry) : Prop := nonneg (Prim2SF (percentage e)).

(** Where a tally of [coinSentiments] comes from: a coin of the data with
    videos and at least one comment. *)
Definition from_data (type : SentimentType)
  (entries : list (string * SentimentData)) (kv : string * Tally) : Prop :=
  exists d vs,
    In (fst kv, d) entries /\ videos d = Some vs
    /\ snd kv = tally_coin type vs /\ 0 < t_total (snd kv).

End TopCoins.

(* ===================================================================== *)
(** * The handlers of TradingSuggestions *)
(* ===================================================================== *)

Module Trading.

Import Js.

(** Modelled from the spec: the declarations of [TradeViewState] and of the
    coins of [useCoinData] (components/trading/types.ts and hooks) are not
    among the sources. A coin carries the three fields the handlers copy
    into a [coin_indicators] row. *)
Record Coin : Type := {
  symbol : string;
  strategy : string;
  indicators : string
}.

Record TradeViewState : Type := {
  id : option string;
  currentIndex : nat;
  coins : list Coin
}.

Record Toast : Type := {
  title : string;
  description : string;
  destructive : bool                 (* variant: "destructive" *)
}.

(** A row of the [trade_views] table. *)
Record TradeView : Type := {
  tv_id : string;
  tv_name : string;
  tv_user_id : string;
  tv_status : string
}.

(** A row of the [coin_indicators] table. *)
Record CoinIndicator : Type := {
  trade_view_id : string;
  coin_symbol : string;
  sentiment : string;
  ci_indicators : string;
  user_response : option string
}.

(** The state of the component together with the two tables it writes and
    what it showed and logged. *)
Record State : Type := {
  started : bool;
  isTradeNameDialogOpen : bool;
  tradeView : TradeViewState;
  toasts : list Toast;
  console : list string;
  trade_views : list TradeView;
  coin_indicators : list CoinIndicator
}.

Definition toast (t : Toast) (st : State) : State :=
  {| started := started st;
     isTradeNameDialogOpen := isTradeNameDialogOpen st;
     tradeView := tradeView st;
     toasts := toasts st ++ [t];
     console := console st;
     trade_views := trade_views st;
     coin_indicators := coin_indicators st |}.

Definition console_error (msg : string) (st : State) : State :=
  {| started := started st;
     isTradeNameDialogOpen := isTradeNameDialogOpen st;
     tradeView := tradeView st;
     toasts := toasts st;
     console := console st ++ [msg];
     trade_views := trade_views st;
     coin_indicators := coin_indicators st |}.

(** setTradeView(f), with [f] applied to the state's current value. *)
Definition setTradeView (f : TradeViewState -> TradeViewState) (st : State)
  : State :=
  {| started := started st;
     isTradeNameDialogOpen := isTradeNameDialogOpen st;
     tradeView := f (tradeView st);
     toasts := toasts st;
     console := console st;
     trade_views := trade_views st;
     coin_indicators := coin_indicators st |}.

Definition setStarted (b : bool) (st : State) : State :=
  {| started := b;
     isTradeNameDialogOpen := isTradeNameDialogOpen st;
     tradeView := tradeView st;
     toasts := toasts st;
     console := console st;
     trade_views := trade_views st;
     coin_indicators := coin_indicators st |}.

Definition setIsTradeNameDialogOpen (b : bool) (st : State) : State :=
  {| started := started st;
     isTradeNameDialogOpen := b;
     tradeView := tradeView st;
     toasts := toasts st;
     console := console st;
     trade_views := trade_views st;
     coin_indicators := coin_indicators st |}.

Definition store_trade_view (r : TradeView) (st : State) : State :=
  {| started := started st;
     isTradeNameDialogOpen := isTradeNameDialogOpen st;
     tradeView := tradeView st;
     toasts := toasts st;
     console := console st;
     trade_views := trade_views st ++ [r];
     coin_indicators := coin_indicators st |}.

Definition store_coin_indicator (r : CoinIndicator) (st : State) : State :=
  {| started := started st;
     isTradeNameDialogOpen := isTradeNameDialogOpen st;
     tradeView := tradeView st;
     toasts := toasts st;
     console := console st;
     trade_views := trade_views st;
     coin_indicators := coin_indicators st ++ [r] |}.

(** error.message || fallback *)
Definition message_or (error : thrown) (fallback : string) : string :=
  match error with
  | Error message => if truthy message then message else fallback
  | NotAnError => fallback
  end.

(** ** handleCreateTradeView *)

(** What the backend answers during one call: the session of
    [auth.getSession] with its error, a failure of the look-up or of the
    insert for a reason of the backend's own, and the id it gives a new
    row. *)
Record CreateAnswers : Type := {
  session_user : option string;      (* sessionData.session.user.id *)
  sessionError : option thrown;
  checkFailure : option thrown;
  insertFailure : option thrown;
  new_id : string
}.

(** The [catch] of handleCreateTradeView. *)
Definition create_failed (error : thrown) (st : State) : State :=
  toast {| title := "Error";
           description :=
             message_or error "Failed to start analysis. Please try again.";
           destructive := true |}
    (console_error "Error creating trade view:" st).

(** .from('trade_views').select().eq('user_id', u).eq('name', n) *)
Definition views_named (user_id name : string) (rows : list TradeView)
  : list TradeView :=
  filter (fun r => (tv_user_id r =? user_id) && (tv_name r =? name)) rows.

(** [.maybeSingle()]: no row gives [null], one row gives the row, several
    rows give an error. *)
Definition maybeSingle (rows : list TradeView) : thrown + option TradeView :=
  match rows with
  | [] => inr None
  | [r] => inr (Some r)
  | _ :: _ :: _ =>
      inl (Error "JSON object requested, multiple (or no) rows returned")
  end.

(** [hookCoins] is the coin list of [useCoinData]. With no error the
    insert ending in [.select().single()] gives the new row, so the test
    [!data] that follows it does not hold. *)
Definition handleCreateTradeView (hookCoins : list Coin) (a : CreateAnswers)
  (name : string) (st : State) : State :=
  match sessionError a with
  | Some e => create_failed e st
  | None =>
      match session_user a with
      | None =>
          toast {| title := "Error";
                   description := "Please sign in to start analysis";
                   destructive := true |} st
      | Some user_id =>
          let check :=
            match checkFailure a with
            | Some e => inl e
            | None => maybeSingle (views_named user_id name (trade_views st))
            end in
          match check with
          | inl checkError => create_failed checkError st
          | inr (Some existingView) =>
              toast {| title := "Error";
                       description :=
                         "A trading view with this name already exists. Please choose a different name.";
                       destructive := true |} st
          | inr None =>
              match insertFailure a with
              | Some insertError => create_failed insertError st
              | None =>
                  let data := {| tv_id := new_id a;
                                 tv_name := name;
                                 tv_user_id := user_id;
                                 tv_status := "active" |} in
                  let st1 := store_trade_view data st in
                  let st2 :=
                    setTradeView
                      (fun _ => {| id := Some (tv_id data);
                                   currentIndex := 0;
                                   coins := hookCoins |}) st1 in
                  let st3 := setIsTradeNameDialogOpen false
                               (setStarted true st2) in
                  toast {| title := "Analysis Started";
                           description :=
                             "Analyzing coins for trading suggestions...";
                           destructive := false |} st3
              end
          end
      end
  end.

(** ** handleNext and handleBuy *)

(** What awaiting an insert into [coin_indicators] gives: the row is
    stored; the backend answers with an error (which the handlers do not
    read) and stores nothing; or the awaited promise rejects. *)
Inductive InsertAnswer : Type :=
| Stored
| Refused
| Rejected (e : thrown).

Definition awaited_insert (a : InsertAnswer) (r : CoinIndicator) (st : State)
  : State :=
  match a with
  | Stored => store_coin_indicator r st
  | Refused | Rejected _ => st
  end.

(** const currentCoin = coins[tradeView.currentIndex] *)
Definition currentCoin (hookCoins : list Coin) (view : TradeViewState)
  : option Coin :=
  nth_error hookCoins (currentIndex view).

(** The row both handlers insert, with or without a response. *)
Definition indicator_row (view_id : string) (c : Coin)
  (response : option string) : CoinIndicator :=
  {| trade_view_id := view_id;
     coin_symbol := symbol c;
     sentiment := strategy c;
     ci_indicators := indicators c;
     user_response := response |}.

(** A handler is a closure of one render: [view] is the [tradeView] that
    render saw, and stays what the handler reads until it ends. Each
    handler runs up to its [await] (the guard, and the insert it asks for)
    and goes on when the awaited insert settles. *)

(** handleNext and handleBuy up to the [await]: nothing when the guard
    [!tradeView.id || !currentCoin] returns, otherwise the row whose insert
    is awaited. *)
Definition guarded_row (hookCoins : list Coin) (view : TradeViewState)
  (response : option string) : option CoinIndicator :=
  match id view, currentCoin hookCoins view with
  | Some view_id, Some c =>
      if truthy view_id then Some (indicator_row view_id c response) else None
  | _, _ => None
  end.

(** handleNext after the [await]. The test reads the render's [view]; the
    update goes through [setTradeView] to the state as it then is. *)
Definition next_settled (hookCoins : list Coin) (view : TradeViewState)
  (a : InsertAnswer) (st : State) : State :=
  match a with
  | Rejected error =>
      toast {| title := "Error";
               description := message_or error "Failed to save analysis";
               destructive := true |}
        (console_error "Error saving coin analysis:" st)
  | _ =>
      if (Z.of_nat (currentIndex view)
          <? Z.of_nat (List.length hookCoins) - 1)%Z
      then
        setTradeView
          (fun prev => {| id := id prev;
                          currentIndex := currentIndex prev + 1;
                          coins := coins prev |}) st
      else
        toast {| title := "Analysis Complete";
                 description := "You've reviewed all available coins.";
                 destructive := false |} st
  end.

(** handleBuy after the [await] and up to its call of handleNext, which
    it makes unless the insert rejected. *)
Definition buy_settled (c_symbol : string) (a : InsertAnswer) (st : State)
  : State :=
  match a with
  | Rejected error =>
      toast {| title := "Error";
               description := message_or error "Failed to record trade";
               destructive := true |}
        (console_error "Error recording trade:" st)
  | _ =>
      toast {| title := "Trade Recorded";
               description := "Recorded buy decision for " ++ c_symbol;
               destructive := false |} st
  end.

(** A call of handleNext that runs to its end with nothing in between. *)
Definition handleNext (hookCoins : list Coin) (view : TradeViewState)
  (a : InsertAnswer) (st : State) : State :=
  match guarded_row hookCoins view None with
  | Some row => next_settled hookCoins view a (awaited_insert a row st)
  | None => st
  end.

(** A call of handleBuy that runs to its end, the call of handleNext it
    makes included, with nothing in between. *)
Definition handleBuy (hookCoins : list Coin) (view : TradeViewState)
  (a1 a2 : InsertAnswer) (st : State) : State :=
  match guarded_row hookCoins view (Some "buy") with
  | Some row =>
      let st1 := buy_settled (coin_symbol row) a1 (awaited_insert a1 row st) in
      match a1 with
      | Rejected _ => st1
      | _ => handleNext hookCoins view a2 st1
      end
  | None => st
  end.

(** ** The component in use, call after call *)

(** What the user does, with the backend's answers to the calls it causes. *)
Inductive action : Type :=
| Create (a : CreateAnswers) (name : string)
| Next (a : InsertAnswer)
| Buy (a1 a2 : InsertAnswer).

(** Each action runs the handler of the current render to its end. *)
Definition step (hookCoins : list Coin) (st : State) (act : action) : State :=
  match act with
  | Create a name => handleCreateTradeView hookCoins a name st
  | Next a => handleNext hookCoins (tradeView st) a st
  | Buy a1 a2 => handleBuy hookCoins (tradeView st) a1 a2 st
  end.

Definition run (hookCoins : list Coin) (acts : list action) (st : State)
  : State :=
  fold_left (step hookCoins) acts st.

(** ** The component in use, with calls in flight *)

(** A call waiting for its insert: the handler, the [tradeView] of its
    render, and the row it asked to insert. *)
Inductive inflight : Type :=
| AwaitingNext (view : TradeViewState) (row : CoinIndicator)
| AwaitingBuy (view : TradeViewState) (row : CoinIndicator).

Record Running : Type := {
  state : State;
  waiting : list inflight
}.

(** A click calls the handler of the current render; [Settle n a] lets
    the [n]-th waiting insert settle with answer [a]. *)
Inductive event : Type :=
| ClickNext
| ClickBuy
| Settle (n : nat) (a : InsertAnswer)
| Submit (a : CreateAnswers) (name : string).

Fixpoint remove_nth {A : Type} (n : nat) (l : list A) : list A :=
  match n, l with
  | _, [] => []
  | O, _ :: l' => l'
  | S n', x :: l' => x :: remove_nth n' l'
  end.

Definition react (hookCoins : list Coin) (r : Running) (e : event)
  : Running :=
  match e with
  | ClickNext =>
      match guarded_row hookCoins (tradeView (state r)) None with
      | Some row =>
          {| state := state r;
             waiting :=
               waiting r ++ [AwaitingNext (tradeView (state r)) row] |}
      | None => r
      end
  | ClickBuy =>
      match guarded_row hookCoins (tradeView (state r)) (Some "buy") with
      | Some row =>
          {| state := state r;
             waiting :=
               waiting r ++ [AwaitingBuy (tradeView (state r)) row] |}
      | None => r
      end
  | Settle n a =>
      match nth_error (waiting r) n with
      | Some (AwaitingNext view row) =>
          {| state :=
               next_settled hookCoins view a (awaited_insert a row (state r));
             waiting := remove_nth n (waiting r) |}
      | Some (AwaitingBuy view row) =>
          let st1 :=
            buy_settled (coin_symbol row) a (awaited_insert a row (state r)) in
          {| state := st1;
             waiting :=
               remove_nth n (waiting r)
               ++ match a, guarded_row hookCoins view None with
                  | Rejected _, _ | _, None => []
                  | _, Some row' => [AwaitingNext view row']
                  end |}
      | None => r
      end
  | Submit a name =>
      (* the dialog's submit, taken as one step *)
      {| state := handleCreateTradeView hookCoins a name (state r);
         waiting := waiting r |}
  end.

Definition play (hookCoins : list Coin) (es : list event)
  (r : Running) : Running :=
  fold_left (react hookCoins) es r.

(** The events of actions that do not overlap: every insert settles
    before the next click. *)
Definition schedule (acts : list action) : list event :=
  flat_map (fun act => match act with
                       | Create a name => [Submit a name]
                       | Next a => [ClickNext; Settle 0 a]
                       | Buy a1 a2 => [ClickBuy; Settle 0 a1; Settle 0 a2]
                       end) acts.

(** The component as mounted, over the tables as they are. *)
Definition mounted (views : list TradeView) (rows : list CoinIndicator)
  : State :=
  {| started := false;
     isTradeNameDialogOpen := false;
     tradeView := {| id := None; currentIndex := 0; coins := [] |};
     toasts := [];
     console := [];
     trade_views := views;
     coin_indicators := rows |}.

(** handleStart *)
Definition handleStart (st : State) : State := setIsTradeNameDialogOpen true st.

(** ** Words of the properties *)

(** The user already has a trade view of this name. *)
Definition name_taken (user_id name : string) (st : State) : Prop :=
  exists r, In r (trade_views st) /\ tv_user_id r = user_id /\ tv_name r = name.

(** The last toast shown is an error notification. *)
Definition error_notified (before after : State) : Prop :=
  exists t, toasts after = toasts before ++ [t]
            /\ title t = "Error" /\ destructive t = true.

(** The index points at a coin of the list. *)
Definition in_range (hookCoins : list Coin) (st : State) : Prop :=
  currentIndex (tradeView st) < List.length hookCoins.

(** The guard of handleNext and handleBuy lets the call through. *)
Definition active (hookCoins : list Coin) (st : State) : Prop :=
  exists view_id c,
    id (tradeView st) = Some view_id /\ truthy view_id = true
    /\ currentCoin hookCoins (tradeView st) = Some c.

(** ** A session for the examples *)

Definition sample_coins : list Coin :=
  [ {| symbol := "BTCUSDT"; strategy := "buy"; indicators := "rsi" |};
    {| symbol := "ETHUSDT"; strategy := "sell"; indicators := "macd" |} ].

(** A signed-in user "u1" and a backend that fails no call. *)
Definition sample_answers : CreateAnswers :=
  {| session_user := Some "u1";
     sessionError := None;
     checkFailure := None;
     insertFailure := None;
     new_id := "view-2" |}.

(** The component as mounted when "u1" already has the view "scalps". *)
Definition sample_state : State :=
  mounted [ {| tv_id := "view-1"; tv_name := "scalps";
               tv_user_id := "u1"; tv_status := "active" |} ] [].

(** The state after "u1" has started the analysis "swing". *)
Definition sample_started : State :=
  handleCreateTradeView sample_coins sample_answers "swing" sample_state.

End Trading.

(* ===================================================================== *)
(** * Further words about the whale-trade function *)
(* ===================================================================== *)

Module WhaleWords.

Import Js Whale.

Section Words.

Context {R : Runtime}.

(** The calls an invocation makes before its loop: authentication, the
    query of the API keys, the fetch of the exchange info. *)
Definition setup_calls (t : list event) : list event :=
  filter (fun e => match e with
                   | EGetUser _ | ESelectApiKeys _ | EFetchExchangeInfo => true
                   | _ => false
                   end) t.

(** The effects of the loop over the pairs: trade fetches, upserts and
    console lines. *)
Definition loop_event (e : event) : bool :=
  match e with
  | EFetchTrades _ _ | EUpsert _ | EConsoleLog _ | EConsoleError _ => true
  | _ => false
  end.

(** A computation whose effects are all effects of the loop. *)
Definition loop_only {A : Type} (m : M A) : Prop :=
  forall st, exists d,
    trace (snd (m st)) = trace st ++ d /\ forallb loop_event d = true.

(** The world [w] with another storage answering the upserts. *)
Definition with_upsert (w : World) (answer : WhaleRow -> option string)
  : World :=
  {| getUser := getUser w;
     selectApiKeys := selectApiKeys w;
     exchangeInfo := exchangeInfo w;
     trades := trades w;
     upsertError := answer |}.

(** The calls of a trace to the services: everything but console lines. *)
Definition service_calls (t : list event) : list event :=
  filter (fun e => match e with
                   | EConsoleLog _ | EConsoleError _ => false
                   | _ => true
                   end) t.

(** The effects of an invocation that reaches the loop, up to the loop. *)
Definition before_loop (token user_id : string) : list event :=
  [ EConsoleLog "Initializing Supabase client...";
    EConsoleLog "Authenticating user...";
    EGetUser token;
    EConsoleLog "Fetching API keys for user:";
    ESelectApiKeys user_id;
    EConsoleLog "Fetching exchange info from Binance...";
    EFetchExchangeInfo;
    EConsoleLog "Fetching trades for USDT pairs..." ].

End Words.

(** ** Further invocations for the examples *)

Import Binary64.

(** A trade worth 150000 whose time is beyond the last time value of a
    [Date]. *)
Definition untimed_trade : Trade :=
  {| price := "50000.00000000"; qty := "3.00000000";
     time := 8640000000000001; isBuyerMaker := true |}.

(** The sample world with an answer for BTCUSDT in which the second of
    three whale trades has no time value. *)
Definition untimed_world : World :=
  {| getUser := getUser sample_world;
     selectApiKeys := selectApiKeys sample_world;
     exchangeInfo := exchangeInfo sample_world;
     trades := fun symbol apikey =>
       if symbol =? "BTCUSDT"
       then Ok (inr [big_trade; untimed_trade; eth_trade])
       else trades sample_world symbol apikey;
     upsertError := upsertError sample_world |}.

(** The sample world when the exchange info cannot be fetched. *)
Definition offline_world : World :=
  {| getUser := getUser sample_world;
     selectApiKeys := selectApiKeys sample_world;
     exchangeInfo := inl (Error "error sending request");
     trades := trades sample_world;
     upsertError := upsertError sample_world |}.

End WhaleWords.

(* ===================================================================== *)
(** * Further words about processData *)
(* ===================================================================== *)

Module TopCoinsWords.

Import Data TopCoins.

(** The coin of the data has videos with at least one comment. *)
Definition has_comments (entry : string * SentimentData) : bool :=
  match videos (snd entry) with
  | Some vs => (0 <? List.length (all_comments vs))%nat
  | None => false
  end.

(** The coin gets an entry of [coinSentiments]: it has a comment, and its
    name is not "__proto__". *)
Definition listed (entry : string * SentimentData) : bool :=
  has_comments entry && negb (fst entry =? "__proto__").

(** The entries of all coins of [coinSentiments], before [.sort] and
    [.slice]. *)
Definition all_entries (type : SentimentType)
  (entries : list (string * SentimentData)) : list Entry :=
  map to_entry (fold_left (collect type) entries []).

(** What [collect] adds for a coin whose name is not yet a key. *)
Definition kept (type : SentimentType) (entry : string * SentimentData)
  : list (string * Tally) :=
  match videos (snd entry) with
  | Some vs =>
      if (0 <? t_total (tally_coin type vs))%nat
      then if fst entry =? "__proto__" then []
           else [(fst entry, tally_coin type vs)]
      else []
  | None => []
  end.

(** Data of twelve coins, each with one comment. *)
Definition one_comment (i : string) : SentimentData :=
  {| videos := Some [("v", {| comments := [ {| indicator := i |} ] |})] |}.

Definition twelve_coins : list (string * SentimentData) :=
  [ ("A", one_comment "buy"); ("B", one_comment "sell");
    ("C", one_comment "buy"); ("D", one_comment "sell");
    ("E", one_comment "buy"); ("F", one_comment "sell");
    ("G", one_comment "buy"); ("H", one_comment "sell");
    ("I", one_comment "buy"); ("J", one_comment "sell");
    ("K", one_comment "buy"); ("L", one_comment "sell") ].

End TopCoinsWords.

(* ===================================================================== *)
(** * Words about the card beside the coin sentiment view *)
(* ===================================================================== *)

Module CardWords.

Import Data TopCoins.

(** The entry has the percentage [p], as doubles compare. *)
Definition same_percentage (p : float) (e : Entry) : bool :=
  (percentage e =? p)%float.

(** The comment's indicator is none of the three card types. *)
Definition unlabelled (c : Comment) : bool :=
  negb (indicator c =? "buy") && negb (indicator c =? "sell")
  && negb (indicator c =? "others").

(** What the card of a type counts, among the counts of the coin
    sentiment view: for "others" the view's count less the comments whose
    indicator is none of the three. *)
Definition view_count (type : SentimentType) (stats : Sentiment.Stats)
  (unlabelled_comments : nat) : nat :=
  match type with
  | Buy => Sentiment.buy stats
  | Sell => Sentiment.sell stats
  | Others => Sentiment.others stats - unlabelled_comments
  end.

End CardWords.

(* ===================================================================== *)
(** * Further words about the handlers of TradingSuggestions *)
(* ===================================================================== *)

Module TradingWords.

Import Js Trading.

(** The row carries the three fields of a coin of the list. *)
Definition row_of_coin (hookCoins : list Coin) (row : CoinIndicator) : Prop :=
  exists c, In c hookCoins
            /\ coin_symbol row = symbol c
            /\ sentiment row = strategy c
            /\ ci_indicators row = indicators c.

(** The row refers to one of the trade views. *)
Definition refers_to (views : list TradeView) (row : CoinIndicator) : Prop :=
  exists v, In v views /\ tv_id v = trade_view_id row.

Definition good_row (hookCoins : list Coin) (created : list TradeView)
  (row : CoinIndicator) : Prop :=
  refers_to created row /\ row_of_coin hookCoins row.

(** The id of the trade view state, when set, is the id of one of the
    views. *)
Definition good_view (created : list TradeView) (view : TradeViewState)
  : Prop :=
  forall i, id view = Some i -> exists v, In v created /\ tv_id v = i.

Definition good_waiting (hookCoins : list Coin) (created : list TradeView)
  (w : inflight) : Prop :=
  match w with
  | AwaitingNext view row | AwaitingBuy view row =>
      good_view created view /\ good_row hookCoins created row
  end.

(** What holds while the component is in use over the tables [views] and
    [rows]: [created] and [added] are the rows it has written. *)
Definition kept_up (hookCoins : list Coin) (views : list TradeView)
  (rows : list CoinIndicator) (created : list TradeView)
  (added : list CoinIndicator) (r : Running) : Prop :=
  trade_views (state r) = views ++ created
  /\ coin_indicators (state r) = rows ++ added
  /\ good_view created (tradeView (state r))
  /\ Forall (good_waiting hookCoins created) (waiting r)
  /\ Forall (good_row hookCoins created) added.

(** The notice of handleNext at the last coin. *)
Definition analysis_complete : Toast :=
  {| title := "Analysis Complete";
     description := "You've reviewed all available coins.";
     destructive := false |}.

(** The notice of handleBuy. *)
Definition trade_recorded (c : Coin) : Toast :=
  {| title := "Trade Recorded";
     description := "Recorded buy decision for " ++ symbol c;
     destructive := false |}.

(** The signed-in user "u1" and a backend that refuses the insert. *)
Definition refusing_answers : CreateAnswers :=
  {| session_user := Some "u1";
     sessionError := None;
     checkFailure := None;
     insertFailure :=
       Some (Error "new row violates row-level security policy");
     new_id := "view-2" |}.

(** The names a user has given to trade views. *)
Definition names_of (user_id : string) (views : list TradeView)
  : list string :=
  map tv_name (filter (fun v => tv_user_id v =? user_id) views).

End TradingWords.

(* ===================================================================== *)
(** * The effects of the coin sentiment view *)
(* ===================================================================== *)

Module SentimentView.

Import Js Data Sentiment.

(** The state of CoinSentimentView that its two effects read and write,
    with what it showed and logged. [sentimentFilter] is left out: the
    effects neither read nor write it. *)
Record Toast : Type := {
  title : string;
  description : string;
  destructive : bool                 (* variant: "destructive" *)
}.

Record State : Type := {
  selectedCoin : string;
  availableCoins : list string;
  sentimentData : option SentimentData;
  loading : bool;
  loadingCoins : bool;
  toasts : list Toast;
  console : list string
}.

Definition setSelectedCoin (c : string) (st : State) : State :=
  {| selectedCoin := c;
     availableCoins := availableCoins st;
     sentimentData := sentimentData st;
     loading := loading st;
     loadingCoins := loadingCoins st;
     toasts := toasts st;
     console := console st |}.

Definition setAvailableCoins (cs : list string) (st : State) : State :=
  {| selectedCoin := selectedCoin st;
     availableCoins := cs;
     sentimentData := sentimentData st;
     loading := loading st;
     loadingCoins := loadingCoins st;
     toasts := toasts st;
     console := console st |}.

Definition setSentimentData (d : option SentimentData) (st : State) : State :=
  {| selectedCoin := selectedCoin st;
     availableCoins := availableCoins st;
     sentimentData := d;
     loading := loading st;
     loadingCoins := loadingCoins st;
     toasts := toasts st;
     console := console st |}.

Definition setLoading (b : bool) (st : State) : State :=
  {| selectedCoin := selectedCoin st;
     availableCoins := availableCoins st;
     sentimentData := sentimentData st;
     loading := b;
     loadingCoins := loadingCoins st;
     toasts := toasts st;
     console := console st |}.

Definition setLoadingCoins (b : bool) (st : State) : State :=
  {| selectedCoin := selectedCoin st;
     availableCoins := availableCoins st;
     sentimentData := sentimentData st;
     loading := loading st;
     loadingCoins := b;
     toasts := toasts st;
     console := console st |}.

Definition toast (t : Toast) (st : State) : State :=
  {| selectedCoin := selectedCoin st;
     availableCoins := availableCoins st;
     sentimentData := sentimentData st;
     loading := loading st;
     loadingCoins := loadingCoins st;
     toasts := toasts st ++ [t];
     console := console st |}.

Definition console_error (msg : string) (st : State) : State :=
  {| selectedCoin := selectedCoin st;
     availableCoins := availableCoins st;
     sentimentData := sentimentData st;
     loading := loading st;
     loadingCoins := loadingCoins st;
     toasts := toasts st;
     console := console st ++ [msg] |}.

(** What awaiting [fetch] and then [response.json()] gives: the fetch
    rejects, the response is not ok, its body cannot be read, or the body
    parses to a value. *)
Inductive Fetched (A : Type) : Type :=
| Rejects
| NotOk
| Unreadable
| Json (data : A).

Arguments Rejects {A}.
Arguments NotOk {A}.
Arguments Unreadable {A}.
Arguments Json {A} data.

(** The body of /coin/search as fetchCoins reads it: [null], on which
    reading [data.coins] throws; a value whose [coins] is missing, falsy
    or not an array; or one with the array. *)
Inductive CoinsBody : Type :=
| NullBody
| NoCoinList
| CoinList (coins : list string).

(** ** fetchCoins *)

(** fetchCoins up to its first [await]. *)
Definition fetchCoins_start (st : State) : State := setLoadingCoins true st.

(** The [catch] of fetchCoins. *)
Definition coins_failed (st : State) : State :=
  toast {| title := "Error";
           description :=
             "Failed to fetch available coins. Please try again later.";
           destructive := true |}
    (console_error "Error fetching coins:" st).

(** fetchCoins after its awaits, [finally] included. [seen] is the
    [selectedCoin] of the render whose effect called it. *)
Definition fetchCoins_settled (seen : string) (a : Fetched CoinsBody)
  (st : State) : State :=
  let st1 :=
    match a with
    | Json (CoinList coins) =>
        let st1 := setAvailableCoins coins st in
        match coins with
        | c :: _ => if truthy seen then st1 else setSelectedCoin c st1
        | [] => st1
        end
    | Json NoCoinList => st
    | Json NullBody | Rejects | NotOk | Unreadable => coins_failed st
    end in
  setLoadingCoins false st1.

(** ** fetchSentimentData *)

(** fetchSentimentData up to its first [await], for the [selectedCoin]
    of its render: nothing when the guard returns. *)
Definition fetchSentimentData_start (coin : string) (st : State)
  : option State :=
  if truthy coin then Some (setSentimentData None (setLoading true st))
  else None.

(** The [catch] of fetchSentimentData. *)
Definition sentiment_failed (st : State) : State :=
  toast {| title := "Error";
           description :=
             "Failed to fetch sentiment data. Please try again later.";
           destructive := true |}
    (console_error "Error fetching sentiment data:" st).

(** fetchSentimentData after its awaits, [finally] included. The body may
    be [null]. *)
Definition fetchSentimentData_settled (a : Fetched (option SentimentData))
  (st : State) : State :=
  let st1 :=
    match a with
    | Json data => setSentimentData data st
    | Rejects | NotOk | Unreadable => sentiment_failed st
    end in
  setLoading false st1.

(** ** The component in use *)

(** A call waiting for its response: fetchCoins with the [selectedCoin]
    it saw, or fetchSentimentData with the coin it asked for. *)
Inductive inflight : Type :=
| AwaitingCoins (seen : string)
| AwaitingSentiment (coin : string).

Record Running : Type := {
  state : State;
  waiting : list inflight
}.

(** The body of the second effect: if (selectedCoin) fetchSentimentData(). *)
Definition sentiment_effect (r : Running) : Running :=
  match fetchSentimentData_start (selectedCoin (state r)) (state r) with
  | Some st =>
      {| state := st;
         waiting := waiting r ++ [AwaitingSentiment (selectedCoin (state r))] |}
  | None => r
  end.

(** After a render the second effect runs when [selectedCoin] has changed
    ([toast], its other dependency, stays the same function). *)
Definition selection_effect (before : string) (r : Running) : Running :=
  if selectedCoin (state r) =? before then r else sentiment_effect r.

(** The user picks a coin; the [n]-th waiting call gets its response. *)
Inductive event : Type :=
| Select (coin : string)
| SettleCoins (n : nat) (a : Fetched CoinsBody)
| SettleSentiment (n : nat) (a : Fetched (option SentimentData)).

Definition react (r : Running) (e : event) : Running :=
  match e with
  | Select coin =>
      selection_effect (selectedCoin (state r))
        {| state := setSelectedCoin coin (state r); waiting := waiting r |}
  | SettleCoins n a =>
      match nth_error (waiting r) n with
      | Some (AwaitingCoins seen) =>
          selection_effect (selectedCoin (state r))
            {| state := fetchCoins_settled seen a (state r);
               waiting := Trading.remove_nth n (waiting r) |}
      | _ => r
      end
  | SettleSentiment n a =>
      match nth_error (waiting r) n with
      | Some (AwaitingSentiment _) =>
          {| state := fetchSentimentData_settled a (state r);
             waiting := Trading.remove_nth n (waiting r) |}
      | _ => r
      end
  end.

Definition play (es : list event) (r : Running) : Running :=
  fold_left react es r.

(** The initial values of the [useState] calls. *)
Definition initial : State :=
  {| selectedCoin := "";
     availableCoins := [];
     sentimentData := None;
     loading := false;
     loadingCoins := true;
     toasts := [];
     console := [] |}.

(** The component after its first render, when both effects run: the
    first calls fetchCoins, the second finds no coin selected. *)
Definition mounted : Running :=
  sentiment_effect
    {| state := fetchCoins_start initial;
       waiting := [AwaitingCoins (selectedCoin initial)] |}.

(** ** Words of the properties *)

Definition awaits_coins (w : inflight) : bool :=
  match w with AwaitingCoins _ => true | AwaitingSentiment _ => false end.

Definition awaits_sentiment (w : inflight) : bool :=
  match w with AwaitingCoins _ => false | AwaitingSentiment _ => true end.

(** The answer is a failure of the fetch for sentiment data. *)
Definition failure {A : Type} (a : Fetched A) : bool :=
  match a with Json _ => false | _ => true end.

Definition no_stats : Stats := {| buy := 0; sell := 0; others := 0; total := 0 |}.

(** A flag that is set has its call waiting. *)
Definition flags_have_calls (r : Running) : Prop :=
  (loading (state r) = false
   \/ existsb awaits_sentiment (waiting r) = true)
  /\ (loadingCoins (state r) = false
      \/ existsb awaits_coins (waiting r) = true).

(** A state in which "BTC" is shown with its data. *)
Definition showing_btc : State :=
  {| selectedCoin := "BTC";
     availableCoins := ["BTC"; "ETH"];
     sentimentData := Some {| videos := Some
         [("v", {| comments := [ {| indicator := "buy" |} ] |})] |};
     loading := false;
     loadingCoins := false;
     toasts := [];
     console := [] |}.

End SentimentView.

(* ===================================================================== *)
(** * Properties of doubles *)
(* ===================================================================== *)

Module DoubleFacts.

Import Double.
Local Open Scope Z_scope.

(** ** Digits *)

Lemma digits_bounds (p : positive) :
  2 ^ (Zpos (digits2_pos p) - 1) <= Zpos p < 2 ^ Zpos (digits2_pos p).
Proof.
  induction p as [p IH|p IH|]; cbn [digits2_pos].
  - rewrite Pos2Z.inj_succ, (Pos2Z.inj_xI p).
    replace (Z.succ (Zpos (digits2_pos p)) - 1)
      with (Z.succ (Zpos (digits2_pos p) - 1)) by lia.
    rewrite !Z.pow_succ_r by lia.
    revert IH. generalize (2 ^ (Zpos (digits2_pos p) - 1)).
    generalize (2 ^ Zpos (digits2_pos p)). intros. lia.
  - rewrite Pos2Z.inj_succ, (Pos2Z.inj_xO p).
    replace (Z.succ (Zpos (digits2_pos p)) - 1)
      with (Z.succ (Zpos (digits2_pos p) - 1)) by lia.
    rewrite !Z.pow_succ_r by lia.
    revert IH. generalize (2 ^ (Zpos (digits2_pos p) - 1)).
    generalize (2 ^ Zpos (digits2_pos p)). intros. lia.
  - cbn. lia.
Qed.

Lemma digits_unique (p : positive) (a : Z) :
  2 ^ (a - 1) <= Zpos p < 2 ^ a -> Zpos (digits2_pos p) = a.
Proof.
  intros [Hl Hu]. destruct (digits_bounds p) as [Hl' Hu'].
  assert (Ha : 0 <= a).
  { destruct (Z.lt_ge_cases a 0) as [N|N]; [|exact N].
    rewrite (Z.pow_neg_r 2 a N) in Hu. lia. }
  assert (H1 : a - 1 < Zpos (digits2_pos p)).
  { apply (Z.pow_lt_mono_r_iff 2); lia. }
  assert (H2 : Zpos (digits2_pos p) - 1 < a).
  { apply (Z.pow_lt_mono_r_iff 2); lia. }
  lia.
Qed.

Lemma digits_shift (p q : positive) (j : Z) :
  0 <= j -> Zpos q = Zpos p * 2 ^ j ->
  Zpos (digits2_pos q) = Zpos (digits2_pos p) + j.
Proof.
  intros Hj Hq. apply digits_unique. rewrite Hq.
  destruct (digits_bounds p) as [Hl Hu].
  replace (Zpos (digits2_pos p) + j - 1)
    with ((Zpos (digits2_pos p) - 1) + j) by lia.
  rewrite !Z.pow_add_r by lia.
  assert (0 < 2 ^ j) by (apply Z.pow_pos_nonneg; lia).
  split; nia.
Qed.

(** ** Doubles in canonical form *)

Lemma valid_finite (s : bool) (m : positive) (e : Z) :
  valid_binary (S754_finite s m e) = true ->
  -1074 <= e <= 971
  /\ Zpos (digits2_pos m) <= 53
  /\ (Zpos (digits2_pos m) = 53 \/ e = -1074).
Proof.
  unfold SpecFloat.valid_binary, bounded, canonical_mantissa, fexp, emin, prec, emax.
  intros H. apply andb_true_iff in H. destruct H as [H1 H2].
  apply Z.eqb_eq in H1. apply Z.leb_le in H2. lia.
Qed.

Lemma rank_finite (s : bool) (m : positive) (e : Z) :
  valid_binary (S754_finite s m e) = true ->
  1 <= rank (S754_finite s m e) < 2 ^ 2100.
Proof.
  intros H. apply valid_finite in H. destruct H as (He & Hd & _).
  cbn [rank]. destruct (digits_bounds m) as [_ Hu].
  assert (Hm : Zpos m < 2 ^ 53).
  { apply (Z.lt_le_trans _ _ _ Hu). apply Z.pow_le_mono_r; lia. }
  assert (H0 : 0 < 2 ^ (e + 1074)) by (apply Z.pow_pos_nonneg; lia).
  assert (H1 : 2 ^ (e + 1074) <= 2 ^ 2045) by (apply Z.pow_le_mono_r; lia).
  replace (2 ^ 2100) with (2 ^ 53 * 2 ^ 2045 * 2 ^ 2)
    by (rewrite <- !Z.pow_add_r by lia; reflexivity).
  split; [nia|].
  assert (Zpos m * 2 ^ (e + 1074) < 2 ^ 53 * 2 ^ 2045) by nia.
  assert (0 < 2 ^ 53 * 2 ^ 2045) by lia.
  change (2 ^ 2) with 4. lia.
Qed.

Lemma compare_finite (m1 m2 : positive) (e1 e2 : Z) :
  valid_binary (S754_finite false m1 e1) = true ->
  valid_binary (S754_finite false m2 e2) = true ->
  match e1 ?= e2 with
  | Lt => Lt
  | Gt => Gt
  | Eq => Pos.compare_cont Eq m1 m2
  end
  = (Zpos m1 * 2 ^ (e1 + 1074) ?= Zpos m2 * 2 ^ (e2 + 1074)).
Proof.
  intros H1 H2. apply valid_finite in H1. apply valid_finite in H2.
  destruct H1 as (He1 & Hd1 & Hc1). destruct H2 as (He2 & Hd2 & Hc2).
  destruct (digits_bounds m1) as [Hl1 Hu1].
  destruct (digits_bounds m2) as [Hl2 Hu2].
  assert (Hm1 : Zpos m1 < 2 ^ 53)
    by (apply (Z.lt_le_trans _ _ _ Hu1); apply Z.pow_le_mono_r; lia).
  assert (Hm2 : Zpos m2 < 2 ^ 53)
    by (apply (Z.lt_le_trans _ _ _ Hu2); apply Z.pow_le_mono_r; lia).
  change (2 ^ 53) with (2 * 2 ^ 52) in Hm1, Hm2.
  destruct (Z.compare_spec e1 e2) as [E|E|E].
  - subst e2. change (Pos.compare_cont Eq m1 m2) with (Zpos m1 ?= Zpos m2).
    assert (0 < 2 ^ (e1 + 1074)) by (apply Z.pow_pos_nonneg; lia).
    symmetry. destruct (Z.compare_spec (Zpos m1) (Zpos m2)) as [E|E|E].
    + rewrite E. apply Z.compare_refl.
    + apply Z.compare_lt_iff. nia.
    + apply Z.compare_gt_iff. nia.
  - symmetry. apply Z.compare_lt_iff.
    assert (Hn : Zpos (digits2_pos m2) = 53) by lia.
    rewrite Hn in Hl2. change (2 ^ (53 - 1)) with (2 ^ 52) in Hl2.
    replace (e2 + 1074) with ((e2 - e1) + (e1 + 1074)) by lia.
    rewrite (Z.pow_add_r 2 (e2 - e1) (e1 + 1074)) by lia.
    assert (HP : 0 < 2 ^ (e1 + 1074)) by (apply Z.pow_pos_nonneg; lia).
    assert (HQ : 2 ^ 1 <= 2 ^ (e2 - e1)) by (apply Z.pow_le_mono_r; lia).
    change (2 ^ 1) with 2 in HQ.
    revert HP HQ. generalize (2 ^ (e1 + 1074)) (2 ^ (e2 - e1)). intros P Q HP HQ.
    assert (2 * 2 ^ 52 <= Zpos m2 * Q) by nia.
    assert (Zpos m1 * P < 2 * 2 ^ 52 * P) by nia.
    assert (2 * 2 ^ 52 * P <= Zpos m2 * Q * P) by nia.
    lia.
  - symmetry. apply Z.compare_gt_iff.
    assert (Hn : Zpos (digits2_pos m1) = 53) by lia.
    rewrite Hn in Hl1. change (2 ^ (53 - 1)) with (2 ^ 52) in Hl1.
    replace (e1 + 1074) with ((e1 - e2) + (e2 + 1074)) by lia.
    rewrite (Z.pow_add_r 2 (e1 - e2) (e2 + 1074)) by lia.
    assert (HP : 0 < 2 ^ (e2 + 1074)) by (apply Z.pow_pos_nonneg; lia).
    assert (HQ : 2 ^ 1 <= 2 ^ (e1 - e2)) by (apply Z.pow_le_mono_r; lia).
    change (2 ^ 1) with 2 in HQ.
    revert HP HQ. generalize (2 ^ (e2 + 1074)) (2 ^ (e1 - e2)). intros P Q HP HQ.
    assert (2 * 2 ^ 52 <= Zpos m1 * Q) by nia.
    assert (Zpos m2 * P < 2 * 2 ^ 52 * P) by nia.
    assert (2 * 2 ^ 52 * P <= Zpos m1 * Q * P) by nia.
    lia.
Qed.

Lemma compare_rank (x y : spec_float) :
  nonneg x -> nonneg y ->
  valid_binary x = true -> valid_binary y = true ->
  SFcompare x y = Some (rank x ?= rank y).
Proof.
  intros Hx Hy Vx Vy.
  destruct x as [[|]|[|]| |[|] mx ex]; try contradiction;
    destruct y as [[|]|[|]| |[|] my ey]; try contradiction;
    cbn [SFcompare]; f_equal;
    try (apply compare_finite; assumption);
    try (pose proof (rank_finite _ _ _ Vx));
    try (pose proof (rank_finite _ _ _ Vy));
    cbn [rank] in *; symmetry;
    first [ apply Z.compare_refl
          | apply Z.compare_lt_iff; lia
          | apply Z.compare_gt_iff; lia ].
Qed.

(** ** Shifting to the right *)

Lemma holds_shr_1 (mrs : shr_record) (N D : Z) :
  0 < D -> holds mrs N D -> holds (shr_1 mrs) N (2 * D).
Proof.
  intros HD (H0 & Hb & Hx). destruct mrs as [m r s]. cbn [shr_m shr_r shr_s] in *.
  destruct m as [|[p|p|]|p]; cbn [shr_1 shr_m shr_r shr_s]; try lia.
  - unfold holds. cbn [shr_m shr_r shr_s].
    split; [lia|]. split; [lia|]. intros E.
    destruct Hx as [-> ->]; [lia|]. split; reflexivity.
  - unfold holds. cbn [shr_m shr_r shr_s].
    rewrite (Pos2Z.inj_xI p) in *.
    split; [lia|]. split; [nia|]. intros E. exfalso. nia.
  - unfold holds. cbn [shr_m shr_r shr_s].
    rewrite (Pos2Z.inj_xO p) in *.
    split; [lia|]. split; [nia|]. intros E.
    destruct Hx as [-> ->]; [nia|]. split; reflexivity.
  - unfold holds. cbn [shr_m shr_r shr_s].
    split; [lia|]. split; [nia|]. intros E. exfalso. nia.
Qed.

Lemma holds_iter (p : positive) : forall (mrs : shr_record) (N D D' : Z),
  0 < D -> D' = 2 ^ Zpos p * D -> holds mrs N D ->
  holds (iter_pos shr_1 p mrs) N D'.
Proof.
  induction p as [p IH|p IH|]; intros mrs N D D' HD -> H; cbn [iter_pos].
  - assert (HP : 0 < 2 ^ Zpos p) by (apply Z.pow_pos_nonneg; lia).
    apply (IH _ N (2 ^ Zpos p * (2 * D))); [nia| |].
    + rewrite (Pos2Z.inj_xI p), Z.pow_add_r, Z.pow_mul_r by lia.
      change (2 ^ 2) with 4. change (2 ^ 1) with 2.
      replace (4 ^ Zpos p) with (2 ^ Zpos p * 2 ^ Zpos p); [ring|].
      rewrite <- Z.pow_mul_l. reflexivity.
    + apply (IH _ N (2 * D)); [lia | reflexivity |].
      apply holds_shr_1; assumption.
  - assert (HP : 0 < 2 ^ Zpos p) by (apply Z.pow_pos_nonneg; lia).
    apply (IH _ N (2 ^ Zpos p * D)); [nia| |].
    + rewrite (Pos2Z.inj_xO p), Z.pow_mul_r by lia.
      change (2 ^ 2) with 4.
      replace (4 ^ Zpos p) with (2 ^ Zpos p * 2 ^ Zpos p); [ring|].
      rewrite <- Z.pow_mul_l. reflexivity.
    + apply (IH _ N D); [lia | reflexivity | exact H].
  - change (2 ^ 1) with 2. apply holds_shr_1; assumption.
Qed.

Lemma holds_shr (mrs : shr_record) (e n N D : Z) :
  0 < D -> holds mrs N D ->
  holds (fst (shr mrs e n)) N (2 ^ Z.max 0 n * D)
  /\ snd (shr mrs e n) = e + Z.max 0 n.
Proof.
  intros HD H. destruct n as [|p|p]; cbn [shr fst snd].
  - change (Z.max 0 0) with 0. rewrite Z.mul_1_l, Z.add_0_r. auto.
  - rewrite (Z.max_r 0 (Zpos p)) by lia. split; [|reflexivity].
    apply (holds_iter p mrs N D); [exact HD | reflexivity | exact H].
  - rewrite (Z.max_l 0 (Zneg p)) by lia.
    change (2 ^ 0) with 1. rewrite Z.mul_1_l, Z.add_0_r. auto.
Qed.

Lemma holds_of_loc (M : Z) (l : location) (N D : Z) :
  0 <= M -> M * D <= N < (M + 1) * D -> (N = M * D -> l = loc_Exact) ->
  holds (shr_record_of_loc M l) N D.
Proof.
  intros H0 Hb Hx. unfold holds.
  destruct l as [|[| |]]; cbn [shr_record_of_loc shr_m shr_r shr_s];
    (split; [exact H0|]; split; [exact Hb|]; intros E;
     specialize (Hx E); try discriminate Hx; split; reflexivity).
Qed.

(** The mantissa after rounding to nearest, ties to even. *)
Lemma round_nearest_even_bounds (mrs : shr_record) (N D : Z) :
  holds mrs N D ->
  let m := round_nearest_even (shr_m mrs) (loc_of_shr_record mrs) in
  (m = shr_m mrs \/ (m = shr_m mrs + 1 /\ N <> shr_m mrs * D)).
Proof.
  intros (H0 & Hb & Hx). destruct mrs as [m [|] [|]];
    cbn [shr_m shr_r shr_s loc_of_shr_record round_nearest_even] in *.
  - right. split; [reflexivity|]. intros E. destruct (Hx E). discriminate.
  - destruct (Z.even m); [left; reflexivity|].
    right. split; [reflexivity|]. intros E. destruct (Hx E). discriminate.
  - left. reflexivity.
  - left. reflexivity.
Qed.

(** ** Rounding *)

Lemma fexp_eq (z : Z) : fexp prec emax z = Z.max (z - 53) (-1074).
Proof. reflexivity. Qed.

(** What [binary_round_aux] makes of the number N / D * 2^E whose whole
    part is [M]: the whole part [m'] after the shift by [k] to the
    exponent of the format, the mantissa [m1] after rounding, and [m2]
    after the shift by [k2] that a carry may ask for. *)
Lemma binary_round_aux_steps (sx : bool) (M E : Z) (l : location) (N D : Z) :
  0 < D -> 0 <= M -> M * D <= N < (M + 1) * D ->
  (N = M * D -> l = loc_Exact) ->
  exists m' m1 m2 k k2,
    k = Z.max 0 (Z.max (Zdigits2 M + E - 53) (-1074) - E)
    /\ k2 = Z.max 0 (Z.max (Zdigits2 m1 + (E + k) - 53) (-1074) - (E + k))
    /\ 0 <= m'
    /\ m' * (2 ^ k * D) <= N < (m' + 1) * (2 ^ k * D)
    /\ (m1 = m' \/ (m1 = m' + 1 /\ N <> m' * (2 ^ k * D)))
    /\ 0 <= m2
    /\ m2 * 2 ^ k2 <= m1 < (m2 + 1) * 2 ^ k2
    /\ binary_round_aux prec emax sx M E l
       = match m2 with
         | Z0 => S754_zero sx
         | Zpos m =>
             if E + k + k2 <=? 971
             then S754_finite sx m (E + k + k2)
             else S754_infinity sx
         | Zneg _ => S754_nan
         end.
Proof.
  intros HD HM Hb Hx.
  unfold binary_round_aux, shr_fexp. rewrite !fexp_eq.
  destruct (holds_shr (shr_record_of_loc M l) E
              (Z.max (Zdigits2 M + E - 53) (-1074) - E) N D HD
              (holds_of_loc M l N D HM Hb Hx)) as [H1 E1].
  destruct (shr (shr_record_of_loc M l) E
              (Z.max (Zdigits2 M + E - 53) (-1074) - E)) as [mrs1 e1].
  cbn [fst snd] in H1, E1. subst e1. rewrite fexp_eq.
  set (k := Z.max 0 (Z.max (Zdigits2 M + E - 53) (-1074) - E)) in *.
  pose proof (round_nearest_even_bounds mrs1 N (2 ^ k * D) H1) as Hr.
  cbn zeta in Hr.
  set (m1 := round_nearest_even (shr_m mrs1) (loc_of_shr_record mrs1)) in *.
  destruct H1 as (H10 & H1b & _).
  assert (Hm1 : 0 <= m1) by (destruct Hr as [->|[-> _]]; lia).
  destruct (holds_shr (shr_record_of_loc m1 loc_Exact) (E + k)
              (Z.max (Zdigits2 m1 + (E + k) - 53) (-1074) - (E + k)) m1 1
              ltac:(lia)
              (holds_of_loc m1 loc_Exact m1 1 Hm1 ltac:(lia)
                 (fun _ => eq_refl))) as [H2 E2].
  destruct (shr (shr_record_of_loc m1 loc_Exact) (E + k)
              (Z.max (Zdigits2 m1 + (E + k) - 53) (-1074) - (E + k)))
    as [mrs2 e2].
  cbn [fst snd] in H2, E2. subst e2.
  set (k2 := Z.max 0 (Z.max (Zdigits2 m1 + (E + k) - 53) (-1074) - (E + k)))
    in *.
  destruct H2 as (H20 & H2b & _). rewrite Z.mul_1_r in H2b.
  exists (shr_m mrs1), m1, (shr_m mrs2), k, k2.
  repeat (split; [assumption || reflexivity|]).
  reflexivity.
Qed.

(** The result for a number that is not negative is +0, positive and
    finite, or +Infinity. *)
Lemma binary_round_aux_nonneg (M E : Z) (l : location) :
  0 <= M -> nonneg (binary_round_aux prec emax false M E l).
Proof.
  intros HM.
  destruct (binary_round_aux_steps false M E l (2 * M + 1) 2)
    as (m' & m1 & m2 & k & k2 & _ & _ & _ & _ & _ & H0 & _ & ->); try lia.
  destruct m2 as [|p|p]; [exact I | | lia].
  destruct (_ <=? _); exact I.
Qed.

Lemma Zdigits2_bounds (M : Z) :
  0 < M -> 2 ^ (Zdigits2 M - 1) <= M < 2 ^ Zdigits2 M.
Proof.
  destruct M as [|p|p]; try lia. intros _. apply digits_bounds.
Qed.

(** ** Arithmetic used below *)

Lemma le_cancel (a b c : Z) : 0 < c -> a * c <= b * c -> a <= b.
Proof. intros Hc H. apply (Z.mul_le_mono_pos_r a b c Hc). exact H. Qed.

Lemma lt_cancel (a b c : Z) : 0 < c -> a * c < b * c -> a < b.
Proof. intros Hc H. apply (Z.mul_lt_mono_pos_r c a b Hc). exact H. Qed.

Lemma chain_lt (P M D N Q B R T : Z) :
  0 < D -> 0 < Q -> 0 < R ->
  P <= M -> M * D <= N -> N * Q <= D * (B * R) -> B < T ->
  P * Q < T * R.
Proof.
  intros HD HQ HR HP HM HN HB.
  assert (H1 : P * D <= M * D) by (apply Z.mul_le_mono_nonneg_r; lia).
  assert (H2 : P * D * Q <= N * Q) by (apply Z.mul_le_mono_nonneg_r; lia).
  assert (H3 : B * R < T * R) by (apply Z.mul_lt_mono_pos_r; lia).
  assert (H4 : D * (B * R) < D * (T * R)) by (apply Z.mul_lt_mono_pos_l; lia).
  apply (lt_cancel _ _ D HD). lia.
Qed.

Lemma chain_le (N R D B P Q : Z) :
  0 < R -> N * R <= D * (B * (P * Q * R)) -> N <= B * P * (Q * D).
Proof.
  intros HR H. apply (le_cancel _ _ R HR). lia.
Qed.

Lemma below_bound (m' m1 b X N : Z) :
  0 < X -> m' * X <= N -> N <= b * X ->
  (m1 = m' \/ (m1 = m' + 1 /\ N <> m' * X)) -> m1 <= b.
Proof.
  intros HX H1 H2 Hr.
  assert (Hm : m' <= b) by (apply (le_cancel _ _ X HX); lia).
  destruct Hr as [->|[-> Hne]]; [exact Hm|].
  destruct (Z.eq_dec m' b) as [E|E]; [|lia].
  exfalso. apply Hne. subst m'. lia.
Qed.

Lemma rank_le_bound (p m1 B R P Q : Z) :
  0 < Q -> p * P <= m1 -> m1 <= B * R -> p * (P * Q) <= B * (R * Q).
Proof.
  intros HQ H1 H2.
  assert (p * P * Q <= B * R * Q) by (apply Z.mul_le_mono_nonneg_r; lia).
  lia.
Qed.

Lemma pow_below (p P B Q b : Z) :
  0 < p -> 0 < P -> 0 < Q -> p * P <= b -> b = B * Q -> B < 2 ^ 53 ->
  P < 2 ^ 53 * Q.
Proof.
  intros Hp HP HQ H1 -> HB.
  assert (P <= p * P) by nia.
  assert (B * Q < 2 ^ 53 * Q) by (apply Z.mul_lt_mono_pos_r; lia).
  lia.
Qed.

(** A shift to the exponent of the format leaves a positive mantissa
    positive when the exponent is not below the least one. *)
Lemma shift_keeps_pos (m e m2 k : Z) :
  0 < m -> -1074 <= e ->
  k = Z.max 0 (Z.max (Zdigits2 m + e - 53) (-1074) - e) ->
  m2 * 2 ^ k <= m < (m2 + 1) * 2 ^ k -> 0 < m2.
Proof.
  intros Hm He Ek Hb.
  destruct (Zdigits2_bounds m Hm) as [Hl _].
  destruct (Z.le_gt_cases k 0) as [Hk|Hk].
  - assert (E0 : k = 0) by lia. rewrite E0 in Hb.
    change (2 ^ 0) with 1 in Hb. lia.
  - assert (Ed : Zdigits2 m - 1 = 52 + k) by lia.
    rewrite Ed, (Z.pow_add_r 2 52 k) in Hl by lia.
    assert (HP : 0 < 2 ^ k) by (apply Z.pow_pos_nonneg; lia).
    clear Ek Ed. revert Hb Hl HP. generalize (2 ^ k). intros P Hb Hl HP.
    assert (H52 : 0 < 2 ^ 52) by reflexivity.
    assert (2 ^ 52 * P < (m2 + 1) * P) by lia.
    assert (2 ^ 52 < m2 + 1) by (apply (lt_cancel _ _ P HP); assumption).
    lia.
Qed.

Lemma binary_round_aux_pos (sx : bool) (M E : Z) :
  0 < M -> -1074 <= E ->
  match binary_round_aux prec emax sx M E loc_Exact with
  | S754_finite s _ _ | S754_infinity s => s = sx
  | _ => False
  end.
Proof.
  intros HM HE.
  destruct (binary_round_aux_steps sx M E loc_Exact M 1)
    as (m' & m1 & m2 & k & k2 & Ek & Ek2 & H0 & Hb & Hr & H20 & H2b & ->);
    try lia; [reflexivity|].
  rewrite Z.mul_1_r in Hb.
  assert (Hm' : 0 < m') by (apply (shift_keeps_pos M E m' k HM HE Ek); exact Hb).
  assert (Hm1 : 0 < m1) by (destruct Hr as [->|[-> _]]; lia).
  assert (Hm2 : 0 < m2)
    by (apply (shift_keeps_pos m1 (E + k) m2 k2 Hm1); [lia | exact Ek2 | exact H2b]).
  destruct m2 as [|p|p]; try lia.
  destruct (_ <=? _); reflexivity.
Qed.

Lemma iter_xO (d : positive) (m : positive) :
  Zpos (Pos.iter xO m d) = Zpos m * 2 ^ Zpos d.
Proof.
  induction d as [|d IH] using Pos.peano_ind.
  - cbn [Pos.iter]. rewrite (Pos2Z.inj_xO m). change (2 ^ 1) with 2. lia.
  - rewrite Pos.iter_succ, (Pos2Z.inj_xO (Pos.iter xO m d)), IH,
      Pos2Z.inj_succ, Z.pow_succ_r by lia. ring.
Qed.

Lemma shl_align_spec (m : positive) (e e' : Z) :
  let (m', e'') := shl_align m e e' in
  e'' = Z.min e e' /\ Zpos m' = Zpos m * 2 ^ (e - Z.min e e').
Proof.
  unfold shl_align. destruct (e' - e) as [|d|d] eqn:Ed.
  - rewrite Z.min_l by lia. rewrite Z.sub_diag. change (2 ^ 0) with 1.
    split; lia.
  - rewrite Z.min_l by lia. rewrite Z.sub_diag. change (2 ^ 0) with 1.
    split; lia.
  - rewrite Z.min_r by lia. split; [reflexivity|].
    rewrite iter_xO. f_equal. f_equal. lia.
Qed.

Lemma binary_round_pos (sx : bool) (m : positive) (e : Z) :
  -1074 <= e ->
  match binary_round prec emax sx m e with
  | S754_finite s _ _ | S754_infinity s => s = sx
  | _ => False
  end.
Proof.
  intros He. unfold binary_round.
  pose proof (shl_align_spec m e (fexp prec emax (Zpos (digits2_pos m) + e)))
    as H.
  destruct (shl_align m e (fexp prec emax (Zpos (digits2_pos m) + e)))
    as [mz ez].
  destruct H as [Hez _]. rewrite fexp_eq in Hez.
  apply binary_round_aux_pos; lia.
Qed.

(** ** Rounding below a bound *)

(** A number that is not above the double [mB * 2^eB] is not rounded
    above it. [S] only serves to compare the two. *)
Lemma round_le (M E : Z) (l : location) (N D S : Z) (mB : positive)
  (eB : Z) :
  0 < D -> 0 <= M -> M * D <= N < (M + 1) * D ->
  (N = M * D -> l = loc_Exact) ->
  E <= fexp prec emax (Zdigits2 M + E) ->
  valid_binary (S754_finite false mB eB) = true -> eB <= 900 ->
  0 <= E + S -> 0 <= eB + S ->
  N * 2 ^ (E + S) <= D * (Zpos mB * 2 ^ (eB + S)) ->
  valid_binary (binary_round_aux prec emax false M E l) = true ->
  rank (binary_round_aux prec emax false M E l)
  <= rank (S754_finite false mB eB).
Proof.
  intros HD HM Hb Hx Hfine VB HeB HES HBS Hle Vr.
  destruct (valid_finite _ _ _ VB) as (HeB' & HdB & _).
  destruct (digits_bounds mB) as [_ HuB].
  assert (HmB : Zpos mB < 2 ^ 53)
    by (apply (Z.lt_le_trans _ _ _ HuB); apply Z.pow_le_mono_r; lia).
  destruct (binary_round_aux_steps false M E l N D HD HM Hb Hx)
    as (m' & m1 & m2 & k & k2 & Ek & Ek2 & H0 & H1b & Hr & H20 & H2b & Eq).
  rewrite fexp_eq in Hfine. rewrite Eq in *. clear Eq.
  assert (Hk : 0 <= k) by lia. assert (Hk2 : 0 <= k2) by lia.
  assert (He1 : -1074 <= E + k) by lia.
  (* the exponent of the format is not above the one of the bound *)
  assert (HeB1 : E + k <= eB).
  { destruct (Z.le_gt_cases (E + k) eB) as [L|G]; [exact L|exfalso].
    assert (E1 : E + k = Zdigits2 M + E - 53) by lia.
    assert (HM' : 0 < M).
    { destruct M as [|p|p]; try lia. cbn [Zdigits2] in E1. lia. }
    destruct (Zdigits2_bounds M HM') as [Hl _].
    assert (Hd : 1 <= Zdigits2 M) by (destruct M; cbn; lia).
    assert (Hlt : 2 ^ (Zdigits2 M - 1) * 2 ^ (E + S) < 2 ^ 53 * 2 ^ (eB + S)).
    { apply (chain_lt _ M D N _ (Zpos mB)); try assumption; try lia;
        apply Z.pow_pos_nonneg; lia. }
    rewrite <- (Z.pow_add_r 2 (Zdigits2 M - 1) (E + S)),
      <- (Z.pow_add_r 2 53 (eB + S)) in Hlt by lia.
    apply Z.pow_lt_mono_r_iff in Hlt; lia. }
  clear Ek Ek2 Hfine.
  set (b := Zpos mB * 2 ^ (eB - (E + k))).
  assert (HX : 0 < 2 ^ k * D)
    by (apply Z.mul_pos_pos; [apply Z.pow_pos_nonneg; lia | exact HD]).
  assert (HN : N <= b * (2 ^ k * D)).
  { unfold b.
    replace (eB + S) with ((eB - (E + k)) + k + (E + S)) in Hle by lia.
    rewrite (Z.pow_add_r 2 ((eB - (E + k)) + k) (E + S)),
      (Z.pow_add_r 2 (eB - (E + k)) k) in Hle by lia.
    apply (chain_le N (2 ^ (E + S))); [apply Z.pow_pos_nonneg; lia|].
    exact Hle. }
  assert (Hm1b : m1 <= b)
    by (apply (below_bound m' m1 b _ N HX); [lia | exact HN | exact Hr]).
  assert (HP2 : 0 < 2 ^ k2) by (apply Z.pow_pos_nonneg; lia).
  destruct m2 as [|p|p]; [| |lia].
  - cbn [rank]. destruct (rank_finite _ _ _ VB). cbn [rank] in *. lia.
  - destruct (E + k + k2 <=? 971) eqn:Hov.
    + cbn [rank].
      replace (E + k + k2 + 1074) with (k2 + (E + k + 1074)) by lia.
      replace (eB + 1074) with ((eB - (E + k)) + (E + k + 1074)) by lia.
      rewrite (Z.pow_add_r 2 k2 (E + k + 1074)),
        (Z.pow_add_r 2 (eB - (E + k)) (E + k + 1074)) by lia.
      apply (rank_le_bound _ m1); [apply Z.pow_pos_nonneg; lia | lia |].
      exact Hm1b.
    + exfalso. apply Z.leb_gt in Hov.
      assert (Hlt : 2 ^ k2 < 2 ^ (53 + (eB - (E + k)))).
      { rewrite (Z.pow_add_r 2 53 (eB - (E + k))) by lia.
        apply (pow_below (Zpos p) (2 ^ k2) (Zpos mB)
                 (2 ^ (eB - (E + k))) b);
          first [ assumption | reflexivity | lia
                | apply Z.pow_pos_nonneg; lia ]. }
      apply Z.pow_lt_mono_r_iff in Hlt; lia.
Qed.

(** ** Subtraction *)

Lemma rank_aligned (m m' : positive) (e ez : Z) :
  -1074 <= ez <= e -> Zpos m' = Zpos m * 2 ^ (e - ez) ->
  Zpos m * 2 ^ (e + 1074) = Zpos m' * 2 ^ (ez + 1074).
Proof.
  intros He ->. replace (e + 1074) with ((e - ez) + (ez + 1074)) by lia.
  rewrite (Z.pow_add_r 2 (e - ez) (ez + 1074)) by lia. ring.
Qed.

(** The sign of a difference of two doubles that are not negative tells
    which one is the larger: [y - x] is positive exactly when [x] is below
    [y]. *)
Lemma SFsub_positive (x y : spec_float) :
  nonneg x -> nonneg y ->
  valid_binary x = true -> valid_binary y = true ->
  SFltb (S754_zero false) (SFsub prec emax y x) = (rank x <? rank y).
Proof.
  intros Hx Hy Vx Vy.
  destruct x as [[|]|[|]| |[|] mx ex]; try contradiction;
    destruct y as [[|]|[|]| |[|] my ey]; try contradiction;
    try (pose proof (rank_finite _ _ _ Vx));
    try (pose proof (rank_finite _ _ _ Vy));
    cbn [SFsub negb SFltb SFcompare rank] in *;
    try (symmetry; first [ apply Z.ltb_lt; lia | apply Z.ltb_ge; lia ]).
  destruct (valid_finite _ _ _ Vx) as (Hex & _).
  destruct (valid_finite _ _ _ Vy) as (Hey & _).
  pose proof (shl_align_spec my ey (Z.min ey ex)) as Ay.
  pose proof (shl_align_spec mx ex (Z.min ey ex)) as Ax.
  destruct (shl_align my ey (Z.min ey ex)) as [my' ey'].
  destruct (shl_align mx ex (Z.min ey ex)) as [mx' ex'].
  destruct Ay as [_ Ay]. destruct Ax as [_ Ax].
  rewrite (Z.min_r ey (Z.min ey ex)) in Ay by lia.
  rewrite (Z.min_r ex (Z.min ey ex)) in Ax by lia.
  cbn [fst cond_Zopp].
  rewrite (rank_aligned my my' ey (Z.min ey ex)) by (lia || exact Ay).
  rewrite (rank_aligned mx mx' ex (Z.min ey ex)) by (lia || exact Ax).
  assert (HP : 0 < 2 ^ (Z.min ey ex + 1074)) by (apply Z.pow_pos_nonneg; lia).
  destruct (Zpos my' - Zpos mx') as [|d|d] eqn:Ed; cbn [binary_normalize].
  - symmetry. apply Z.ltb_ge. assert (Zpos my' = Zpos mx') by lia. nia.
  - pose proof (binary_round_pos false d (Z.min ey ex) ltac:(lia)) as Hr.
    destruct (binary_round prec emax false d (Z.min ey ex)) as [| | |s m e];
      try contradiction; subst; cbn [SFltb SFcompare];
      symmetry; apply Z.ltb_lt; apply Z.mul_lt_mono_pos_r; lia.
  - pose proof (binary_round_pos true d (Z.min ey ex) ltac:(lia)) as Hr.
    destruct (binary_round prec emax true d (Z.min ey ex)) as [| | |s m e];
      try contradiction; subst; cbn [SFltb SFcompare];
      symmetry; apply Z.ltb_ge; apply Z.mul_le_mono_nonneg_r; lia.
Qed.

(** ** Division and multiplication *)

Lemma new_location_exact (nb : Z) : new_location nb 0 = loc_Exact.
Proof.
  unfold new_location, new_location_even, new_location_odd.
  destruct (Z.even nb); reflexivity.
Qed.

Lemma digits_ge_53 (q : Z) : 2 ^ 52 <= q -> 53 <= Zdigits2 q.
Proof.
  intros H. assert (Hq : 0 < q) by (assert (0 < 2 ^ 52) by reflexivity; lia).
  destruct (Zdigits2_bounds q Hq) as [_ Hu].
  assert (Hlt : 2 ^ 52 < 2 ^ Zdigits2 q) by lia.
  assert (Hd : 0 <= Zdigits2 q) by (destruct q; cbn; lia).
  apply Z.pow_lt_mono_r_iff in Hlt; lia.
Qed.

(** The whole part and the remainder of the division that [SFdiv]
    makes. *)
Lemma SFdiv_core_spec (mx mt : positive) (ex et : Z) :
  -1074 <= ex <= 971 -> -1074 <= et <= 971 ->
  exists q e' l s,
    SFdiv_core_binary prec emax (Zpos mx) ex (Zpos mt) et = (q, e', l)
    /\ 0 <= s /\ s = ex - et - e' /\ -2045 <= e'
    /\ 0 <= q
    /\ q * Zpos mt <= Zpos mx * 2 ^ s < (q + 1) * Zpos mt
    /\ (Zpos mx * 2 ^ s = q * Zpos mt -> l = loc_Exact)
    /\ e' <= Z.max (Zdigits2 q + e' - 53) (-1074).
Proof.
  intros Hex Het. unfold SFdiv_core_binary. rewrite fexp_eq.
  set (d1 := Zdigits2 (Zpos mx)). set (d2 := Zdigits2 (Zpos mt)).
  set (e' := Z.min (Z.max (d1 + ex - (d2 + et) - 53) (-1074)) (ex - et)).
  set (s := ex - et - e').
  assert (Hs : 0 <= s) by lia.
  set (m' := match s with
             | 0 => Zpos mx
             | Zpos _ => Z.shiftl (Zpos mx) s
             | Zneg _ => 0
             end).
  assert (Hm' : m' = Zpos mx * 2 ^ s).
  { unfold m'. destruct s as [|p|p] eqn:Es; [change (2 ^ 0) with 1; lia | | lia].
    apply Z.shiftl_mul_pow2. lia. }
  pose proof (Z_div_mod m' (Zpos mt) ltac:(lia)) as Hdiv.
  destruct (Z.div_eucl m' (Zpos mt)) as [q r]. destruct Hdiv as [Hq Hr].
  assert (Hm0 : 0 < m')
    by (rewrite Hm'; apply Z.mul_pos_pos; [lia | apply Z.pow_pos_nonneg; lia]).
  assert (Hq0 : 0 <= q) by nia.
  exists q, e', (new_location (Zpos mt) r), s.
  split; [reflexivity|]. split; [exact Hs|]. split; [reflexivity|].
  split; [lia|]. split; [exact Hq0|]. rewrite <- Hm'.
  split; [lia|]. split.
  - intros E. assert (r = 0) by lia. subst r. apply new_location_exact.
  - destruct (Z.le_gt_cases e' (-1074)) as [L|G]; [lia|].
    assert (He' : e' <= d1 + ex - (d2 + et) - 53) by lia.
    assert (Hs' : d2 - d1 + 53 <= s) by lia.
    destruct (digits_bounds mx) as [Hl1 _]. destruct (digits_bounds mt) as [_ Hu2].
    fold d1 in Hl1. fold d2 in Hu2. cbn [Zdigits2] in d1, d2.
    assert (Hd1 : 1 <= d1) by (unfold d1; lia).
    assert (Hd2 : 1 <= d2) by (unfold d2; lia).
    assert (Hbig : 2 ^ 52 * 2 ^ d2 <= m').
    { rewrite Hm'. rewrite <- (Z.pow_add_r 2 52 d2) by lia.
      apply (Z.le_trans _ (2 ^ (d1 - 1) * 2 ^ s)).
      - rewrite <- (Z.pow_add_r 2 (d1 - 1) s) by lia.
        apply Z.pow_le_mono_r; lia.
      - apply Z.mul_le_mono_nonneg_r; [apply Z.pow_nonneg; lia | exact Hl1]. }
    assert (Hq52 : 2 ^ 52 <= q).
    { assert (H52 : 0 < 2 ^ 52) by reflexivity.
      assert (2 ^ 52 * Zpos mt < 2 ^ 52 * 2 ^ d2)
        by (apply Z.mul_lt_mono_pos_l; assumption).
      assert (2 ^ 52 * Zpos mt < (q + 1) * Zpos mt) by lia.
      assert (2 ^ 52 < q + 1)
        by (apply (lt_cancel _ _ (Zpos mt)); [lia | assumption]).
      lia. }
    pose proof (digits_ge_53 q Hq52). lia.
Qed.

(** A quotient of doubles that are not negative, the first not above the
    second, is not above 1. *)
Lemma SFdiv_le_one (x t : spec_float) :
  nonneg x -> (exists mt et, t = S754_finite false mt et) ->
  valid_binary x = true -> valid_binary t = true ->
  rank x <= rank t ->
  valid_binary (SFdiv prec emax x t) = true ->
  nonneg (SFdiv prec emax x t) /\ rank (SFdiv prec emax x t) <= rank one.
Proof.
  intros Hx (mt & et & ->) Vx Vt Hle Vr.
  pose proof (rank_finite _ _ _ Vt) as Ht.
  destruct x as [[|]|[|]| |[|] mx ex]; try contradiction.
  - cbn. split; [exact I | lia].
  - cbn [rank] in Hle, Ht. lia.
  - destruct (valid_finite _ _ _ Vx) as (Hex & _).
    destruct (valid_finite _ _ _ Vt) as (Het & _).
    destruct (SFdiv_core_spec mx mt ex et Hex Het)
      as (q & e' & l & s & Ec & Hs & Es & He' & Hq & Hb & Hexact & Hfine).
    cbn [SFdiv xorb] in *. rewrite Ec in *.
    split; [apply binary_round_aux_nonneg; exact Hq|].
    apply (round_le q e' l (Zpos mx * 2 ^ s) (Zpos mt) 3000);
      try assumption; try lia; try reflexivity.
    cbn [rank] in Hle.
    change (Zpos 4503599627370496 * 2 ^ (-52 + 3000)) with (2 ^ 3000).
    rewrite <- Z.mul_assoc, <- (Z.pow_add_r 2 s (e' + 3000)) by lia.
    replace (s + (e' + 3000)) with ((ex + 1074) + (1926 - et)) by lia.
    replace 3000 with ((et + 1074) + (1926 - et)) by lia.
    rewrite (Z.pow_add_r 2 (ex + 1074) (1926 - et)),
      (Z.pow_add_r 2 (et + 1074) (1926 - et)) by lia.
    rewrite !Z.mul_assoc. apply Z.mul_le_mono_nonneg_r;
      [apply Z.pow_nonneg; lia | exact Hle].
Qed.

(** Such a quotient times 100 is not above 100. *)
Lemma SFmul_le_hundred (q : spec_float) :
  nonneg q -> valid_binary q = true -> rank q <= rank one ->
  valid_binary (SFmul prec emax q hundred) = true ->
  nonneg (SFmul prec emax q hundred)
  /\ rank (SFmul prec emax q hundred) <= rank hundred.
Proof.
  intros Hq Vq Hle Vr.
  destruct q as [[|]|[|]| |[|] mq eq]; try contradiction.
  - cbn. split; [exact I | lia].
  - destruct (valid_finite _ _ _ Vq) as (Heq & _).
    unfold hundred in *. cbn [SFmul xorb] in *.
    split; [apply binary_round_aux_nonneg; lia|].
    apply (round_le _ _ loc_Exact (Zpos (mq * 7036874417766400)) 1 3000);
      try lia; try reflexivity.
    + rewrite fexp_eq.
      assert (53 <= Zdigits2 (Zpos (mq * 7036874417766400))).
      { apply digits_ge_53. rewrite Pos2Z.inj_mul.
        assert (2 ^ 52 <= 7036874417766400) by (apply Z.leb_le; reflexivity).
        nia. }
      lia.
    + rewrite Pos2Z.inj_mul, Z.mul_1_l. cbn [rank one] in Hle.
      change (Zpos 4503599627370496 * 2 ^ (-52 + 1074)) with (2 ^ 1074) in Hle.
      replace (eq + -46 + 3000) with ((eq + 1074) + 1880) by lia.
      change (-46 + 3000) with (1074 + 1880).
      rewrite (Z.pow_add_r 2 (eq + 1074) 1880),
        (Z.pow_add_r 2 1074 1880) by lia.
      assert (H0 : 0 < 2 ^ 1880) by (apply Z.pow_pos_nonneg; lia).
      revert Hle H0. generalize (2 ^ (eq + 1074)) (2 ^ 1074) (2 ^ 1880).
      intros P Q R Hle HR.
      assert (Zpos mq * P * R <= Q * R)
        by (apply Z.mul_le_mono_nonneg_r; lia).
      assert (0 < 7036874417766400) by reflexivity. nia.
    + exact Vr.
Qed.

(** ** Whole numbers *)

Lemma binary_round_whole (p : positive) :
  Zpos p < 2 ^ 53 ->
  exists m e,
    binary_round prec emax false p 0 = S754_finite false m e
    /\ Zpos m * 2 ^ (e + 1074) = Zpos p * 2 ^ 1074.
Proof.
  intros Hp. unfold binary_round. rewrite fexp_eq.
  destruct (digits_bounds p) as [Hl Hu].
  set (d := Zpos (digits2_pos p)) in *.
  assert (Hd : 1 <= d <= 53).
  { split; [unfold d; lia|].
    destruct (Z.le_gt_cases d 53) as [L|G]; [exact L|exfalso].
    assert (2 ^ 53 <= 2 ^ (d - 1)) by (apply Z.pow_le_mono_r; lia). lia. }
  pose proof (shl_align_spec p 0 (Z.max (d + 0 - 53) (-1074))) as Ha.
  destruct (shl_align p 0 (Z.max (d + 0 - 53) (-1074))) as [mz ez].
  destruct Ha as [Ez Hz].
  assert (Ez' : ez = d - 53) by lia. clear Ez.
  rewrite Z.min_r in Hz by lia.
  replace (0 - Z.max (d + 0 - 53) (-1074)) with (53 - d) in Hz by lia.
  assert (Hdz : Zdigits2 (Zpos mz) = 53).
  { cbn [Zdigits2]. rewrite (digits_shift p mz (53 - d)); [fold d| |]; lia. }
  destruct (binary_round_aux_steps false (Zpos mz) ez loc_Exact (Zpos mz) 1)
    as (m' & m1 & m2 & k & k2 & Ek & Ek2 & H0 & Hb & Hr & H20 & H2b & ->);
    try lia; [reflexivity|].
  rewrite Hdz in Ek. assert (k = 0) by lia. clear Ek. subst k.
  change (2 ^ 0) with 1 in *. rewrite !Z.mul_1_r in *.
  assert (m' = Zpos mz) by lia. subst m'.
  assert (m1 = Zpos mz) by (destruct Hr as [->|[_ C]]; [reflexivity | lia]).
  subst m1. rewrite Hdz in Ek2. assert (k2 = 0) by lia. clear Ek2. subst k2.
  change (2 ^ 0) with 1 in *. rewrite !Z.mul_1_r in *.
  assert (m2 = Zpos mz) by lia. subst m2.
  replace (ez + 0 + 0 <=? 971) with true by (symmetry; apply Z.leb_le; lia).
  exists mz, (ez + 0 + 0). split; [reflexivity|].
  rewrite Hz, Ez'. replace (d - 53 + 0 + 0 + 1074) with (1074 - (53 - d)) by lia.
  rewrite <- Z.mul_assoc, <- Z.pow_add_r by lia. f_equal. f_equal. lia.
Qed.

(** A counter is +0 or a positive finite double, and its value is the
    number of increments up to 2^53. *)
Lemma number_rank (n : nat) :
  nonneg (Prim2SF (number n))
  /\ rank (Prim2SF (number n)) = Z.min (Z.of_nat n) (2 ^ 53) * 2 ^ 1074
  /\ (0 < Z.of_nat n ->
      exists m e, Prim2SF (number n) = S754_finite false m e).
Proof.
  unfold number. rewrite of_uint63_spec, Uint63.of_Z_spec.
  assert (H53 : 0 < 2 ^ 53) by reflexivity.
  rewrite Z.mod_small
    by (split; [lia|]; apply (Z.le_lt_trans _ (2 ^ 53)); [lia | reflexivity]).
  destruct (Z.min (Z.of_nat n) (2 ^ 53)) as [|p|p] eqn:Em; [| |lia].
  - cbn. split; [exact I|]. split; [reflexivity | lia].
  - cbn [binary_normalize].
    destruct (Z.eq_dec (Zpos p) (2 ^ 53)) as [E|E].
    + injection E as ->. cbn. split; [exact I|]. split; [reflexivity|].
      intros _. eexists. eexists. reflexivity.
    + destruct (binary_round_whole p ltac:(lia)) as (m & e & -> & Hr).
      cbn [nonneg rank]. split; [exact I|]. split; [exact Hr|].
      intros _. exists m, e. reflexivity.
Qed.

(** ** Doubles that are not negative, by their places *)

Lemma leb_rank (x y : float) :
  nonneg (Prim2SF x) -> nonneg (Prim2SF y) ->
  (x <=? y)%float = (rank (Prim2SF x) <=? rank (Prim2SF y)).
Proof.
  intros Hx Hy. rewrite leb_spec. unfold SFleb.
  rewrite (compare_rank _ _ Hx Hy (Prim2SF_valid x) (Prim2SF_valid y)).
  unfold Z.leb. destruct (rank (Prim2SF x) ?= rank (Prim2SF y)); reflexivity.
Qed.

Lemma eqb_rank (x y : float) :
  nonneg (Prim2SF x) -> nonneg (Prim2SF y) ->
  (x =? y)%float = (rank (Prim2SF x) =? rank (Prim2SF y)).
Proof.
  intros Hx Hy. rewrite eqb_spec. unfold SFeqb.
  rewrite (compare_rank _ _ Hx Hy (Prim2SF_valid x) (Prim2SF_valid y)).
  unfold Z.eqb.
  destruct (Z.compare_spec (rank (Prim2SF x)) (rank (Prim2SF y))) as [E|E|E].
  - rewrite E. destruct (rank (Prim2SF y)); cbn;
      rewrite ?Pos.eqb_refl; reflexivity.
  - symmetry. apply Z.eqb_neq. lia.
  - symmetry. apply Z.eqb_neq. lia.
Qed.

(** The test of the sort: [y - x] is positive exactly when [x] is below
    [y]. *)
Lemma sub_positive (x y : float) :
  nonneg (Prim2SF x) -> nonneg (Prim2SF y) ->
  (0 <? y - x)%float = (rank (Prim2SF x) <? rank (Prim2SF y)).
Proof.
  intros Hx Hy. rewrite ltb_spec, sub_spec.
  apply (SFsub_positive _ _ Hx Hy (Prim2SF_valid x) (Prim2SF_valid y)).
Qed.

(** ** Percentages *)

Lemma percent_rank (count total : nat) :
  (count <= total)%nat -> (0 < total)%nat ->
  nonneg (Prim2SF (percent count total))
  /\ rank (Prim2SF (percent count total)) <= rank hundred.
Proof.
  intros Hct Ht. unfold percent.
  destruct (number_rank count) as (Nc & Rc & _).
  destruct (number_rank total) as (Nt & Rt & Ft).
  destruct (Ft ltac:(lia)) as (mt & et & Et).
  assert (Hle : rank (Prim2SF (number count)) <= rank (Prim2SF (number total))).
  { rewrite Rc, Rt. apply Z.mul_le_mono_nonneg_r; [apply Z.pow_nonneg; lia|].
    apply Z.min_le_compat_r. lia. }
  pose proof (Prim2SF_valid (number count / number total)) as Vq.
  rewrite div_spec in Vq.
  destruct (SFdiv_le_one _ _ Nc (ex_intro _ mt (ex_intro _ et Et))
              (Prim2SF_valid _) (Prim2SF_valid _) Hle Vq) as [Nq Rq].
  pose proof (Prim2SF_valid (number count / number total * 100)) as Vp.
  rewrite mul_spec, div_spec in *.
  change (Prim2SF 100) with hundred in *.
  apply SFmul_le_hundred; assumption.
Qed.

Lemma percent_range (count total : nat) :
  (count <= total)%nat -> (0 < total)%nat ->
  (0 <=? percent count total)%float = true
  /\ (percent count total <=? 100)%float = true.
Proof.
  intros Hct Ht. destruct (percent_rank count total Hct Ht) as [Hn Hr].
  split.
  - rewrite leb_rank; [|exact I | exact Hn].
    apply Z.leb_le. change (rank (Prim2SF 0)) with 0.
    destruct (Prim2SF (percent count total)) as [| | |s m e]; cbn [rank];
      try lia.
  - rewrite leb_rank; [|exact Hn | exact I].
    apply Z.leb_le. exact Hr.
Qed.

(** ** Equal doubles *)

Lemma SFeqb_rank (x p : spec_float) :
  nonneg x -> SFeqb x p = true -> rank x = rank p.
Proof.
  intros Hx H. unfold SFeqb in H.
  destruct x as [[|]|[|]| |[|] mx ex]; try contradiction;
    destruct p as [sp|sp| |sp mp ep]; cbn [SFcompare] in H;
    try discriminate H; try reflexivity;
    try (destruct sp; discriminate H).
  destruct sp; [discriminate H|].
  destruct (Z.compare_spec ex ep) as [E|E|E]; try discriminate H.
  destruct (Pos.compare_cont Eq mx mp) eqn:C; try discriminate H.
  apply Pos.compare_eq in C. subst. reflexivity.
Qed.

Lemma eqb_same (x y p : float) :
  nonneg (Prim2SF x) -> nonneg (Prim2SF y) ->
  (x =? p)%float = true -> (y =? p)%float = true ->
  rank (Prim2SF x) = rank (Prim2SF y).
Proof.
  intros Hx Hy Ex Ey. rewrite eqb_spec in Ex, Ey.
  rewrite (SFeqb_rank _ _ Hx Ex), (SFeqb_rank _ _ Hy Ey). reflexivity.
Qed.

(** ** Products *)

Lemma SFmul_comm (x y : spec_float) :
  SFmul prec emax x y = SFmul prec emax y x.
Proof.
  destruct x as [sx|sx| |sx mx ex]; destruct y as [sy|sy| |sy my ey];
    cbn [SFmul]; rewrite ?(xorb_comm sx sy); try reflexivity.
  rewrite (Pos.mul_comm mx my), (Z.add_comm ex ey). reflexivity.
Qed.

Lemma mul_comm (x y : float) : (x * y = y * x)%float.
Proof.
  rewrite <- (SF2Prim_Prim2SF (x * y)), <- (SF2Prim_Prim2SF (y * x)).
  rewrite !mul_spec, SFmul_comm. reflexivity.
Qed.

End DoubleFacts.

(* ===================================================================== *)
(** * Properties of calculateSentiments *)
(* ===================================================================== *)

Module SentimentFacts.

Import Data Sentiment.

Lemma count_cons (p : Comment -> bool) (c : Comment) (cs : list Comment) :
  count p (c :: cs) = (if p c then 1 else 0) + count p cs.
Proof. unfold count. simpl. destruct (p c); reflexivity. Qed.

Lemma count_app (p : Comment -> bool) (cs ds : list Comment) :
  count p (cs ++ ds) = count p cs + count p ds.
Proof. unfold count. rewrite filter_app, length_app. reflexivity. Qed.

(** One comment moves exactly one counter. *)
Lemma count_comment_step (b s o : nat) (c : Comment) :
  count_comment (b, s, o) c =
  (b + (if is_buy c then 1 else 0),
   s + (if is_sell c then 1 else 0),
   o + (if is_other c then 1 else 0)).
Proof.
  unfold count_comment, is_other, is_buy, is_sell.
  destruct (indicator c =? "buy") eqn:Hb.
  - apply String.eqb_eq in Hb. rewrite Hb. simpl.
    f_equal; [f_equal|]; lia.
  - destruct (indicator c =? "sell"); simpl; f_equal; try f_equal; lia.
Qed.

Lemma count_video_spec (cs : list Comment) : forall b s o,
  fold_left count_comment cs (b, s, o) =
  (b + count is_buy cs, s + count is_sell cs, o + count is_other cs).
Proof.
  induction cs as [|c cs IH]; intros b s o.
  - unfold count. simpl. f_equal; [f_equal|]; lia.
  - cbn [fold_left]. rewrite count_comment_step, IH, !count_cons.
    f_equal; [f_equal|]; lia.
Qed.

Lemma count_videos_spec (vs : list (string * Video)) : forall b s o,
  fold_left count_video (map snd vs) (b, s, o) =
  (b + count is_buy (all_comments vs),
   s + count is_sell (all_comments vs),
   o + count is_other (all_comments vs)).
Proof.
  induction vs as [|v vs IH]; intros b s o.
  - unfold count. simpl. f_equal; [f_equal|]; lia.
  - cbn [map fold_left all_comments flat_map snd]. unfold count_video at 2.
    rewrite count_video_spec. fold (all_comments vs). rewrite IH.
    rewrite !count_app. f_equal; [f_equal|]; lia.
Qed.

(** Every comment is a buy, a sell or another one, and only one of them. *)
Lemma count_partition (cs : list Comment) :
  count is_buy cs + count is_sell cs + count is_other cs = List.length cs.
Proof.
  induction cs as [|c cs IH]; [reflexivity|].
  rewrite !count_cons. simpl List.length. unfold is_other, is_buy, is_sell in *.
  destruct (indicator c =? "buy") eqn:Hb.
  - apply String.eqb_eq in Hb. rewrite Hb. simpl. lia.
  - destruct (indicator c =? "sell"); simpl; lia.
Qed.

(** C5. For a dataset with videos, [calculateSentiments] returns as [buy]
    the number of comments of all videos whose indicator is 'buy', as
    [sell] the number whose indicator is 'sell', as [others] the number of
    all remaining comments, and as [total] their sum (the number of all
    comments); for [null] and for a dataset without a [videos] field all
    four counts are zero. *)
Theorem calculateSentiments_counts :
  (forall vs : list (string * Video),
     let r := calculateSentiments (Some {| videos := Some vs |}) in
     buy r = count is_buy (all_comments vs)
     /\ sell r = count is_sell (all_comments vs)
     /\ others r = count is_other (all_comments vs)
     /\ total r = buy r + sell r + others r
     /\ total r = List.length (all_comments vs))
  /\ calculateSentiments None
     = {| buy := 0; sell := 0; others := 0; total := 0 |}
  /\ calculateSentiments (Some {| videos := None |})
     = {| buy := 0; sell := 0; others := 0; total := 0 |}.
Proof.
  split; [|split; reflexivity].
  intros vs r. subst r. unfold calculateSentiments. cbn [videos].
  rewrite count_videos_spec. cbn [buy sell others total].
  repeat split; try reflexivity.
  rewrite <- count_partition. reflexivity.
Qed.

(** The counters on a dataset of two videos. *)
Example calculateSentiments_example :
  calculateSentiments
    (Some {| videos := Some
         [("a", {| comments := [ {| indicator := "buy" |};
                                 {| indicator := "sell" |};
                                 {| indicator := "hold" |} ] |});
          ("b", {| comments := [ {| indicator := "buy" |} ] |})] |})
  = {| buy := 2; sell := 1; others := 1; total := 4 |}.
Proof. reflexivity. Qed.

End SentimentFacts.

(* ===================================================================== *)
(** * Properties of processData *)
(* ===================================================================== *)

Module TopCoinsFacts.

Import Data Double DoubleFacts TopCoins.

(** ** The counters of one coin *)

Lemma tally_comments (type : SentimentType) (cs : list Comment) : forall t,
  t_total (fold_left (tally_comment type) cs t) = t_total t + List.length cs
  /\ t_count (fold_left (tally_comment type) cs t)
     = t_count t + List.length (filter (matches type) cs).
Proof.
  induction cs as [|c cs IH]; intros t; cbn [fold_left filter List.length].
  - split; lia.
  - destruct (IH (tally_comment type t c)) as [Ht Hc]. rewrite Ht, Hc.
    unfold tally_comment, matches. cbn [t_total t_count].
    destruct (indicator c =? type_text type); cbn [List.length]; split; lia.
Qed.

Lemma tally_videos (type : SentimentType) (vs : list (string * Video)) :
  forall t,
  t_total (fold_left (tally_video type) (map snd vs) t)
  = t_total t + List.length (all_comments vs)
  /\ t_count (fold_left (tally_video type) (map snd vs) t)
     = t_count t + List.length (filter (matches type) (all_comments vs)).
Proof.
  induction vs as [|v vs IH]; intros t;
    cbn [map fold_left all_comments flat_map snd].
  - cbn. split; lia.
  - fold (all_comments vs).
    destruct (IH (tally_video type t (snd v))) as [Ht Hc]. rewrite Ht, Hc.
    unfold tally_video.
    destruct (tally_comments type (comments (snd v)) t) as [Ht' Hc'].
    rewrite Ht', Hc', filter_app, !length_app. split; lia.
Qed.

Lemma tally_coin_spec (type : SentimentType) (vs : list (string * Video)) :
  t_total (tally_coin type vs) = List.length (all_comments vs)
  /\ t_count (tally_coin type vs)
     = List.length (filter (matches type) (all_comments vs)).
Proof.
  unfold tally_coin.
  destruct (tally_videos type vs {| t_count := 0; t_total := 0 |}) as [Ht Hc].
  rewrite Ht, Hc. cbn. split; reflexivity.
Qed.

Lemma matching_le_all (type : SentimentType) (cs : list Comment) :
  List.length (filter (matches type) cs) <= List.length cs.
Proof.
  induction cs as [|c cs IH]; cbn [filter List.length]; [lia|].
  destruct (matches type c); cbn [List.length]; lia.
Qed.

(** ** The object coinSentiments *)

Lemma in_own_key {V : Type} (k : string) (v : V) (o : list (string * V)) :
  forall kv, In kv (own_key k v o) -> kv = (k, v) \/ In kv o.
Proof.
  induction o as [|[k' v'] o IH]; intros kv H; cbn [own_key] in H.
  - destruct H as [H|[]]. left. symmetry. exact H.
  - destruct (k' =? k) eqn:E.
    + apply String.eqb_eq in E. subst k'.
      destruct H as [H|H]; [left; symmetry; exact H | right; right; exact H].
    + destruct H as [H|H]; [right; left; exact H|].
      destruct (IH kv H) as [H'|H']; [left; exact H' | right; right; exact H'].
Qed.

Lemma in_set_key {V : Type} (k : string) (v : V) (o : list (string * V)) :
  forall kv, In kv (set_key k v o) -> kv = (k, v) \/ In kv o.
Proof.
  intros kv. unfold set_key. destruct (k =? "__proto__").
  - intros H. right. exact H.
  - apply in_own_key.
Qed.

Lemma collect_from_data (type : SentimentType)
  (entries : list (string * SentimentData)) :
  forall (seen : list (string * SentimentData)) (o : list (string * Tally)),
    (forall kv, In kv o -> from_data type seen kv) ->
    forall kv, In kv (fold_left (collect type) entries o) ->
               from_data type (seen ++ entries) kv.
Proof.
  induction entries as [|[k d] entries IH]; intros seen o Ho kv H;
    cbn [fold_left] in H.
  - rewrite app_nil_r. apply Ho. exact H.
  - replace (seen ++ (k, d) :: entries) with ((seen ++ [(k, d)]) ++ entries)
      by (rewrite <- app_assoc; reflexivity).
    apply (IH (seen ++ [(k, d)]) (collect type o (k, d))); [|exact H].
    intros kv' H'. unfold collect in H'.
    assert (Hold : In kv' o -> from_data type (seen ++ [(k, d)]) kv').
    { intros Hin. destruct (Ho kv' Hin) as (d' & vs' & Hi & Hv & Ht & Hp).
      exists d', vs'. repeat split; try assumption.
      apply in_or_app. left. exact Hi. }
    destruct (videos d) as [vs|] eqn:Hv; [|apply Hold; exact H'].
    destruct (0 <? t_total (tally_coin type vs))%nat eqn:Hpos;
      [|apply Hold; exact H'].
    destruct (in_set_key _ _ _ _ H') as [->|Hin]; [|apply Hold; exact Hin].
    exists d, vs. cbn [fst snd]. repeat split; try assumption.
    + apply in_or_app. right. left. reflexivity.
    + apply Nat.ltb_lt. exact Hpos.
Qed.

(** ** Percentages *)

Lemma percentage_fair (type : SentimentType)
  (entries : list (string * SentimentData)) (kv : string * Tally) :
  from_data type entries kv ->
  fair (to_entry kv)
  /\ (0 <=? percentage (to_entry kv))%float = true
  /\ (percentage (to_entry kv) <=? 100)%float = true.
Proof.
  intros (d & vs & _ & _ & Ht & Hp). destruct kv as [k t].
  cbn [fst snd] in *. unfold fair. cbn [to_entry percentage].
  assert (Hle : t_count t <= t_total t).
  { subst t. destruct (tally_coin_spec type vs) as [-> ->].
    apply matching_le_all. }
  split; [apply (percent_rank _ _ Hle Hp) | apply (percent_range _ _ Hle Hp)].
Qed.

Lemma collected_fair (type : SentimentType)
  (entries : list (string * SentimentData)) :
  Forall fair (map to_entry (fold_left (collect type) entries [])).
Proof.
  apply Forall_forall. intros e He. apply in_map_iff in He.
  destruct He as (kv & <- & Hin).
  apply (percentage_fair type entries).
  apply (collect_from_data type entries [] [] (fun _ F => match F with end)).
  exact Hin.
Qed.

(** ** Sorting *)

Lemma insert_perm (x : Entry) (l : list Entry) :
  Permutation (insert x l) (x :: l).
Proof.
  induction l as [|y l IH]; cbn [insert]; [reflexivity|].
  destruct (0 <? compare x y)%float; [|reflexivity].
  rewrite IH. apply perm_swap.
Qed.

Lemma sort_perm (l : list Entry) : Permutation (sort l) l.
Proof.
  induction l as [|x l IH]; cbn [sort fold_right]; [reflexivity|].
  fold (sort l). rewrite insert_perm, IH. reflexivity.
Qed.

Lemma sort_fair (l : list Entry) : Forall fair l -> Forall fair (sort l).
Proof.
  intros H. apply Forall_forall. intros e He.
  rewrite Forall_forall in H. apply H.
  apply (Permutation_in _ (sort_perm l)). exact He.
Qed.

(** The comparator is positive at (x, y) exactly when [x] is below [y]. *)
Lemma compare_positive (x y : Entry) :
  fair x -> fair y ->
  (0 <? compare x y)%float
  = (rank (Prim2SF (percentage x)) <? rank (Prim2SF (percentage y)))%Z.
Proof. intros Hx Hy. unfold compare. apply sub_positive; assumption. Qed.

Lemma not_below_rank (x y : Entry) :
  fair x -> fair y ->
  not_below x y
  <-> (rank (Prim2SF (percentage y)) <= rank (Prim2SF (percentage x)))%Z.
Proof.
  intros Hx Hy. unfold not_below. rewrite (leb_rank _ _ Hy Hx).
  apply Z.leb_le.
Qed.

Lemma insert_sorted (x : Entry) (l : list Entry) :
  fair x -> Forall fair l ->
  Sorted not_below l -> Sorted not_below (insert x l).
Proof.
  intros Hx. induction l as [|y l IH]; intros Hf Hs; cbn [insert].
  - constructor; constructor.
  - inversion Hf as [|? ? Hy Hf']; subst.
    destruct (0 <? compare x y)%float eqn:E;
      rewrite (compare_positive x y Hx Hy) in E.
    + assert (Hyx : not_below y x)
        by (apply (not_below_rank y x Hy Hx); apply Z.ltb_lt in E; lia).
      inversion Hs as [|? ? Hs' Hhd]; subst.
      constructor; [apply IH; assumption|].
      destruct l as [|z l]; cbn [insert].
      * constructor. exact Hyx.
      * destruct (0 <? compare x z)%float; constructor;
          [inversion Hhd; assumption | exact Hyx].
    + constructor; [exact Hs|]. constructor.
      apply (not_below_rank x y Hx Hy). apply Z.ltb_ge in E. exact E.
Qed.

Lemma sort_sorted (l : list Entry) :
  Forall fair l -> Sorted not_below (sort l).
Proof.
  induction l as [|x l IH]; intros Hf; cbn [sort fold_right]; [constructor|].
  inversion Hf as [|? ? Hx Hf']; subst. fold (sort l).
  apply insert_sorted; [exact Hx | apply sort_fair; exact Hf' | apply IH; exact Hf'].
Qed.

(** ** The first ten *)

Lemma firstn_sorted (l : list Entry) : forall n,
  Sorted not_below l -> Sorted not_below (firstn n l).
Proof.
  induction l as [|x l IH]; intros [|n] Hs; cbn [firstn]; try constructor.
  - apply IH. inversion Hs; assumption.
  - inversion Hs as [|? ? Hs' Hhd]; subst.
    destruct l as [|y l]; destruct n; cbn [firstn]; constructor.
    inversion Hhd; assumption.
Qed.

Lemma firstn_in {A : Type} (l : list A) : forall n x,
  In x (firstn n l) -> In x l.
Proof.
  induction l as [|y l IH]; intros [|n] x H; cbn [firstn] in H;
    try contradiction.
  destruct H as [H|H]; [left; exact H | right; exact (IH n x H)].
Qed.

Lemma firstn_length_le {A : Type} (l : list A) : forall n,
  List.length (firstn n l) <= n.
Proof.
  induction l as [|y l IH]; intros [|n]; cbn [firstn List.length]; try lia.
  specialize (IH n). lia.
Qed.

(** C10. [processData] returns at most 10 entries, sorted by non-increasing
    percentage; every entry comes from a coin of the data that has at least
    one comment, its count is the number of that coin's comments whose
    indicator is the card's type, and its percentage is 100 times that
    number over the number of all comments of the coin, in the doubles of
    the code, where the quotient and the product are each rounded; it
    lies between 0 and 100. *)
Theorem processData_top_ten (type : SentimentType)
  (data : option (list (string * SentimentData))) :
  let r := processData type data in
  List.length r <= 10
  /\ Sorted not_below r
  /\ forall e, In e r ->
       exists entries k d vs,
         data = Some entries /\ In (k, d) entries /\ videos d = Some vs
         /\ 1 <= List.length (all_comments vs)
         /\ coin e = label k
         /\ count e = List.length (filter (matches type) (all_comments vs))
         /\ percentage e
            = (100 * (number (count e)
                      / number (List.length (all_comments vs))))%float
         /\ (0 <=? percentage e)%float = true
         /\ (percentage e <=? 100)%float = true.
Proof.
  intros r. subst r. destruct data as [entries|]; cbn [processData].
  - unfold Js.slice0. split; [apply firstn_length_le|].
    split; [apply firstn_sorted, sort_sorted, collected_fair|].
    intros e He. apply firstn_in in He.
    apply (Permutation_in _ (sort_perm _)) in He.
    apply in_map_iff in He. destruct He as ([k t] & <- & Hin).
    pose proof (collect_from_data type entries [] []
                  (fun _ F => match F with end) (k, t) Hin) as Hfrom.
    destruct (percentage_fair type entries (k, t) Hfrom) as (_ & H0 & H100).
    destruct Hfrom as (d & vs & Hi & Hv & Ht & Hp).
    cbn [fst snd app] in *. subst t.
    destruct (tally_coin_spec type vs) as [Htot Hcnt].
    exists entries, k, d, vs.
    cbn [to_entry coin count percentage] in *. unfold percent.
    rewrite Htot in *. rewrite Hcnt in *.
    repeat split; try assumption; try reflexivity.
    apply mul_comm.
  - split; [cbn; lia|]. split; [constructor|]. intros e [].
Qed.

(** Three coins, one of them without comments, on a "buy" card: one of
    two comments gives 50, one of one gives 100. *)
Example processData_example :
  processData Buy
    (Some [("ADA", {| videos := Some
                       [("v", {| comments := [ {| indicator := "sell" |};
                                               {| indicator := "buy" |} ] |})] |});
           ("BTC", {| videos := Some
                       [("v", {| comments := [ {| indicator := "buy" |} ] |})] |});
           ("XRP", {| videos := Some [("v", {| comments := [] |})] |});
           ("DOT", {| videos := None |})])
  = [ {| coin := "BTC"; percentage := 100%float; count := 1 |};
      {| coin := "ADA"; percentage := 50%float; count := 1 |} ].
Proof. vm_compute. reflexivity. Qed.

(** One comment of three that counts gives the double nearest to a third,
    multiplied by 100 and rounded again: 33.33333333333333, which is
    below the double nearest to 100 / 3. *)
Example processData_two_roundings :
  processData Sell
    (Some [("ADA", {| videos := Some
                       [("v", {| comments := [ {| indicator := "sell" |};
                                               {| indicator := "buy" |};
                                               {| indicator := "buy" |} ] |})] |})])
  = [ {| coin := "ADA"; percentage := 0x1.0aaaaaaaaaaaap+5%float; count := 1 |} ]
  /\ (0x1.0aaaaaaaaaaaap+5 <? 100 / 3)%float = true.
Proof. vm_compute. split; reflexivity. Qed.

End TopCoinsFacts.

(* ===================================================================== *)
(** * Properties of the TradingSuggestions handlers *)
(* ===================================================================== *)

Module TradingFacts.

Import Js Trading.

(** ** Creating a trade view *)

Lemma views_named_in (user_id name : string) (rows : list TradeView) :
  forall r, In r (views_named user_id name rows) <->
            In r rows /\ tv_user_id r = user_id /\ tv_name r = name.
Proof.
  intros r. unfold views_named. rewrite filter_In, andb_true_iff.
  rewrite !String.eqb_eq. reflexivity.
Qed.

Lemma create_failed_keeps_views (e : thrown) (st : State) :
  trade_views (create_failed e st) = trade_views st
  /\ error_notified st (create_failed e st)
  /\ started (create_failed e st) = started st.
Proof.
  unfold create_failed, error_notified. cbn. repeat split.
  eexists. repeat split.
Qed.




(** ** Stepping through the coins *)

Lemma guarded_row_active (hookCoins : list Coin) (st : State)
  (response : option string) :
  active hookCoins st <->
  exists row, guarded_row hookCoins (tradeView st) response = Some row.
Proof.
  unfold active, guarded_row. split.
  - intros (view_id & c & Hid & Ht & Hc). rewrite Hid, Hc, Ht. eexists.
    reflexivity.
  - intros (row & H).
    destruct (id (tradeView st)) as [view_id|]; [|discriminate H].
    destruct (currentCoin hookCoins (tradeView st)) as [c|]; [|discriminate H].
    destruct (truthy view_id) eqn:Ht; [|discriminate H].
    exists view_id, c. repeat split. exact Ht.
Qed.

(** What the part of handleNext after its await does to the index. *)
Lemma next_settled_index (hookCoins : list Coin) (view : TradeViewState)
  (a : InsertAnswer) (st : State) :
  currentIndex (tradeView (next_settled hookCoins view a st))
  = currentIndex (tradeView st)
  \/ (currentIndex (tradeView (next_settled hookCoins view a st))
      = currentIndex (tradeView st) + 1
      /\ currentIndex view + 1 < List.length hookCoins).
Proof.
  unfold next_settled.
  destruct (Z.of_nat (currentIndex view)
            <? Z.of_nat (List.length hookCoins) - 1)%Z eqn:E;
    destruct a; cbn; try (left; reflexivity);
    right; (split; [reflexivity | apply Z.ltb_lt in E; lia]).
Qed.

Lemma awaited_insert_view (a : InsertAnswer) (row : CoinIndicator)
  (st : State) : tradeView (awaited_insert a row st) = tradeView st.
Proof. destruct a; reflexivity. Qed.

Lemma buy_settled_view (sym : string) (a : InsertAnswer) (st : State) :
  tradeView (buy_settled sym a st) = tradeView st.
Proof. destruct a; reflexivity. Qed.

(** What one call of handleNext does to the index. *)
Lemma handleNext_index (hookCoins : list Coin) (a : InsertAnswer) (st : State) :
  let st' := handleNext hookCoins (tradeView st) a st in
  currentIndex (tradeView st') = currentIndex (tradeView st)
  \/ (currentIndex (tradeView st') = currentIndex (tradeView st) + 1
      /\ currentIndex (tradeView st) + 1 < List.length hookCoins).
Proof.
  intros st'. subst st'. unfold handleNext.
  destruct (guarded_row hookCoins (tradeView st) None) as [row|];
    [|left; reflexivity].
  rewrite <- (awaited_insert_view a row st) at 2 4.
  apply next_settled_index.
Qed.

Lemma handleBuy_index (hookCoins : list Coin) (a1 a2 : InsertAnswer)
  (st : State) :
  let st' := handleBuy hookCoins (tradeView st) a1 a2 st in
  currentIndex (tradeView st') = currentIndex (tradeView st)
  \/ (currentIndex (tradeView st') = currentIndex (tradeView st) + 1
      /\ currentIndex (tradeView st) + 1 < List.length hookCoins).
Proof.
  intros st'. subst st'. unfold handleBuy.
  destruct (guarded_row hookCoins (tradeView st) (Some "buy")) as [row|];
    [|left; reflexivity].
  set (st1 := buy_settled (coin_symbol row) a1 (awaited_insert a1 row st)).
  assert (Hv : tradeView st1 = tradeView st)
    by (subst st1; rewrite buy_settled_view; apply awaited_insert_view).
  destruct a1; try (left; rewrite Hv; reflexivity);
    rewrite <- Hv; apply handleNext_index.
Qed.

Lemma create_index (hookCoins : list Coin) (a : CreateAnswers) (name : string)
  (st : State) :
  let st' := handleCreateTradeView hookCoins a name st in
  currentIndex (tradeView st') = currentIndex (tradeView st)
  \/ currentIndex (tradeView st') = 0.
Proof.
  intros st'. subst st'. unfold handleCreateTradeView.
  destruct (sessionError a); [left; reflexivity|].
  destruct (session_user a); [|left; reflexivity].
  destruct (checkFailure a); [left; reflexivity|].
  destruct (maybeSingle _) as [e|[r|]]; try (left; reflexivity).
  destruct (insertFailure a); [left; reflexivity | right; reflexivity].
Qed.

Lemma step_in_range (hookCoins : list Coin) (act : action) (st : State) :
  in_range hookCoins st -> in_range hookCoins (step hookCoins st act).
Proof.
  unfold in_range. intros H. destruct act as [a name|a|a1 a2]; cbn [step].
  - destruct (create_index hookCoins a name st) as [E|E]; rewrite E; lia.
  - destruct (handleNext_index hookCoins a st) as [E|[E L]]; rewrite E; lia.
  - destruct (handleBuy_index hookCoins a1 a2 st) as [E|[E L]]; rewrite E; lia.
Qed.

Lemma run_in_range (hookCoins : list Coin) (acts : list action) :
  forall st, in_range hookCoins st -> in_range hookCoins (run hookCoins acts st).
Proof.
  induction acts as [|act acts IH]; intros st H; cbn [run fold_left].
  - exact H.
  - apply IH. apply step_in_range. exact H.
Qed.

(** What holds of the index: when every call runs to its end before the
    next one starts, a non-empty coin list and an index at 0, where
    mounting and starting an analysis put it, keep [currentIndex] below
    [coins.length], so the current coin is defined; a call of handleNext
    that passes its guard and whose insert does not reject adds one to the
    index when [currentIndex < coins.length - 1] and otherwise leaves it
    unchanged and shows the completion notice. *)
Lemma sequential_calls_stay_in_range (hookCoins : list Coin)
  (acts : list action) (st0 : State) :
  hookCoins <> [] ->
  currentIndex (tradeView st0) = 0 ->
  let st := run hookCoins acts st0 in
  in_range hookCoins st
  /\ currentCoin hookCoins (tradeView st) <> None
  /\ forall a, active hookCoins st -> (forall e, a <> Rejected e) ->
       let st' := handleNext hookCoins (tradeView st) a st in
       (currentIndex (tradeView st) + 1 < List.length hookCoins ->
          currentIndex (tradeView st') = currentIndex (tradeView st) + 1)
       /\ (~ currentIndex (tradeView st) + 1 < List.length hookCoins ->
           currentIndex (tradeView st') = currentIndex (tradeView st)
           /\ exists t, toasts st' = toasts st ++ [t]
                        /\ title t = "Analysis Complete").
Proof.
  intros Hne H0 st.
  assert (Hr : in_range hookCoins st).
  { apply run_in_range. unfold in_range. rewrite H0.
    destruct hookCoins; [contradiction | cbn; lia]. }
  split; [exact Hr|]. split.
  - unfold currentCoin. apply nth_error_Some. exact Hr.
  - intros a (view_id & c & Hid & Ht & Hc) Ha st'. subst st'.
    unfold handleNext, guarded_row. rewrite Hid, Hc, Ht. unfold next_settled.
    destruct (Z.of_nat (currentIndex (tradeView st))
              <? Z.of_nat (List.length hookCoins) - 1)%Z eqn:E.
    + apply Z.ltb_lt in E.
      destruct a as [| |e]; try (exfalso; apply (Ha e); reflexivity);
        (split; [intros _; reflexivity | intros N; exfalso; lia]).
    + apply Z.ltb_ge in E.
      destruct a as [| |e]; try (exfalso; apply (Ha e); reflexivity);
        (split; [intros L; exfalso; lia
                | intros _; split; [reflexivity
                                   | cbn; eexists; split; reflexivity]]).
Qed.

(** Three steps through the two sample coins, one after the other, end on
    the second coin. *)
Example sequential_calls_example :
  in_range sample_coins
    (run sample_coins [Next Stored; Buy Stored Refused; Next Stored]
       sample_started)
  /\ currentIndex
       (tradeView
          (run sample_coins [Next Stored; Buy Stored Refused; Next Stored]
             sample_started)) = 1.
Proof.
  split; [|reflexivity].
  apply (sequential_calls_stay_in_range sample_coins
           [Next Stored; Buy Stored Refused; Next Stored] sample_started);
    [discriminate | reflexivity].
Qed.

(** Calls that do not overlap are the calls of [run]. *)
Lemma play_schedule (hookCoins : list Coin) (acts : list action) :
  forall st,
    play hookCoins (schedule acts) {| state := st; waiting := [] |}
    = {| state := run hookCoins acts st; waiting := [] |}.
Proof.
  unfold play, run.
  induction acts as [|act acts IH]; intros st; [reflexivity|].
  cbn [schedule flat_map]. fold (schedule acts).
  rewrite fold_left_app. cbn [fold_left step].
  rewrite <- IH. f_equal.
  destruct act as [a name|a|a1 a2]; cbn [fold_left react step state waiting].
  - reflexivity.
  - unfold handleNext.
    destruct (guarded_row hookCoins (tradeView st) None) as [row|];
      reflexivity.
  - unfold handleBuy, handleNext.
    destruct (guarded_row hookCoins (tradeView st) (Some "buy")) as [row|];
      [|reflexivity].
    cbn [state waiting nth_error app remove_nth].
    destruct a1 as [| |e];
      destruct (guarded_row hookCoins (tradeView st) None) as [row'|];
      reflexivity.
Qed.

(** C8, at the failing input. Two sample coins, analysis started, index 0:
    Next is clicked twice before the first insert settles, so both calls
    are handlers of the same render. Each passes the test
    [tradeView.currentIndex < coins.length - 1] on that render's index 0
    and each adds one to the state's index: it ends at 2, the length of
    the list, where no coin is. *)
Example overlapping_next_calls_leave_range :
  let r := play sample_coins
             [ClickNext; ClickNext; Settle 0 Stored; Settle 0 Stored]
             {| state := sample_started; waiting := [] |} in
  currentIndex (tradeView sample_started) = 0
  /\ List.length sample_coins = 2
  /\ currentIndex (tradeView (state r)) = 2
  /\ currentCoin sample_coins (tradeView (state r)) = None
  /\ waiting r = [].
Proof. repeat split. Qed.

(** The same with a buy and a next in flight together. *)
Example overlapping_buy_and_next_leave_range :
  let r := play sample_coins
             [ClickBuy; ClickNext; Settle 0 Stored; Settle 0 Stored;
              Settle 0 Stored]
             {| state := sample_started; waiting := [] |} in
  currentIndex (tradeView (state r)) = 2
  /\ currentCoin sample_coins (tradeView (state r)) = None.
Proof. repeat split. Qed.

(** ** The rows of a step *)



(** When the insert of the buy row rejects, handleNext is not called and
    no row is written. *)
Lemma buy_rejected_writes_nothing (hookCoins : list Coin) (st : State)
  (e : thrown) (a2 : InsertAnswer) :
  coin_indicators (handleBuy hookCoins (tradeView st) (Rejected e) a2 st)
  = coin_indicators st
  /\ tradeView (handleBuy hookCoins (tradeView st) (Rejected e) a2 st)
     = tradeView st.
Proof.
  unfold handleBuy.
  destruct (guarded_row hookCoins (tradeView st) (Some "buy"));
    split; reflexivity.
Qed.

End TradingFacts.

(* ===================================================================== *)
(** * Properties of the whale-trade function *)
(* ===================================================================== *)

Module WhaleFacts.

Import Js Whale.

Section Facts.

Context {R : Runtime}.

(** ** Computations that only add to the state *)

Lemma extend_init_r (st : St) : extend st init = st.
Proof. destruct st. unfold extend. cbn. rewrite !app_nil_r. reflexivity. Qed.

Lemma extend_init_l (d : St) : extend init d = d.
Proof. destruct d. reflexivity. Qed.

Lemma extend_assoc (a b c : St) :
  extend (extend a b) c = extend a (extend b c).
Proof. unfold extend. cbn. rewrite !app_assoc. reflexivity. Qed.

Lemma adds_ret {A : Type} (a : A) : adds (ret a).
Proof. intros st. cbn. rewrite extend_init_r. reflexivity. Qed.

Lemma adds_throw {A : Type} (e : thrown) : adds (@throw R A e).
Proof. intros st. cbn. rewrite extend_init_r. reflexivity. Qed.

Lemma adds_emit (e : event) : adds (emit e).
Proof. intros st. unfold emit, extend. cbn. rewrite app_nil_r. reflexivity. Qed.

Lemma adds_push (ts : list Trade) : adds (push_whales ts).
Proof.
  intros st. unfold push_whales, extend. cbn. rewrite app_nil_r. reflexivity.
Qed.

Lemma adds_await {A : Type} (r : thrown + A) : adds (await r).
Proof. destruct r; [apply adds_throw | apply adds_ret]. Qed.

Lemma adds_bind {A B : Type} (m : M A) (k : A -> M B) :
  adds m -> (forall a, adds (k a)) -> adds (bind m k).
Proof.
  intros Hm Hk st. unfold bind. rewrite (Hm st).
  destruct (m init) as [[e|a] d]; cbn [fst snd].
  - reflexivity.
  - rewrite (Hk a (extend st d)), (Hk a d), extend_assoc. reflexivity.
Qed.

Lemma adds_try_catch {A : Type} (m : M A) (h : thrown -> M A) :
  adds m -> (forall e, adds (h e)) -> adds (try_catch m h).
Proof.
  intros Hm Hh st. unfold try_catch. rewrite (Hm st).
  destruct (m init) as [[e|a] d]; cbn [fst snd].
  - rewrite (Hh e (extend st d)), (Hh e d), extend_assoc. reflexivity.
  - reflexivity.
Qed.

Lemma adds_for_of {A : Type} (body : A -> M unit) (l : list A) :
  (forall x, adds (body x)) -> adds (for_of l body).
Proof.
  intros Hb. induction l as [|x l IH]; cbn [for_of].
  - apply adds_ret.
  - apply adds_bind; [apply Hb | intros _; exact IH].
Qed.

Create HintDb adds.

#[local] Hint Resolve adds_ret adds_throw adds_emit adds_push adds_await
  adds_bind adds_try_catch adds_for_of : adds.

Lemma adds_store_trade (w : World) (user : User) (symbol : string)
  (trade : Trade) : adds (store_trade w user symbol trade).
Proof.
  unfold store_trade, console_error, console_log.
  apply adds_bind; [auto with adds|]. intros ts.
  apply adds_bind; [auto with adds|]. intros _.
  destruct (upsertError w _); auto with adds.
Qed.

Lemma adds_process_pair (w : World) (user : User) (apiKeys : ApiKeys)
  (symbol : string) : adds (process_pair w user apiKeys symbol).
Proof.
  unfold process_pair, console_error.
  apply adds_try_catch; [|auto with adds].
  apply adds_bind; [auto with adds|]. intros _.
  destruct (trades w symbol (binance_api_key apiKeys)) as [e|text|json].
  - auto with adds.
  - apply adds_bind; auto with adds.
  - apply adds_bind; [auto with adds|]. intros tradeData.
    apply adds_bind; [|auto with adds].
    apply adds_for_of. intros t. apply adds_store_trade.
Qed.

(** ** Reading a trace *)

Lemma pair_calls_app (a b : list event) :
  pair_calls (a ++ b) = pair_calls a ++ pair_calls b.
Proof. apply filter_app. Qed.

Lemma pair_calls_fetch (symbol apikey : string) (t : list event) :
  pair_calls (EFetchTrades symbol apikey :: t)
  = EFetchTrades symbol apikey :: pair_calls t.
Proof. reflexivity. Qed.

Lemma upserts_app (a b : list event) :
  upserts (a ++ b) = upserts a ++ upserts b.
Proof.
  induction a as [|e a IH]; [reflexivity|].
  destruct e; cbn [app upserts]; rewrite IH; reflexivity.
Qed.

Lemma fetched_app (a b : list event) :
  fetched (a ++ b) = fetched a ++ fetched b.
Proof.
  induction a as [|e a IH]; [reflexivity|].
  destruct e; cbn [app fetched]; rewrite IH; reflexivity.
Qed.

Lemma upserts_pair_calls (t : list event) : upserts (pair_calls t) = upserts t.
Proof.
  induction t as [|e t IH]; [reflexivity|].
  destruct e; cbn [pair_calls filter upserts]; fold (pair_calls t);
    rewrite ?IH; reflexivity.
Qed.

Lemma fetched_pair_calls (t : list event) : fetched (pair_calls t) = fetched t.
Proof.
  induction t as [|e t IH]; [reflexivity|].
  destruct e; cbn [pair_calls filter fetched]; fold (pair_calls t);
    rewrite ?IH; reflexivity.
Qed.

Lemma upserts_map (rows : list WhaleRow) : upserts (map EUpsert rows) = rows.
Proof.
  induction rows as [|r rows IH]; [reflexivity|].
  cbn [map upserts]. rewrite IH. reflexivity.
Qed.

Lemma fetched_map (rows : list WhaleRow) : fetched (map EUpsert rows) = [].
Proof. induction rows as [|r rows IH]; [reflexivity | exact IH]. Qed.

(** ** The loop over the whale trades of one pair *)

Lemma toISOString_ok (t : Trade) :
  toISOString (time t)
  = if time_ok t then inr (isoText (time t))
    else inl (Error "Invalid time value").
Proof. reflexivity. Qed.

Lemma store_trade_run (w : World) (user : User) (symbol : string)
  (t : Trade) :
  if time_ok t
  then exists e, pair_calls [e] = []
         /\ store_trade w user symbol t init
            = (inr tt, {| whales := [];
                          trace := [EUpsert (whale_row user symbol t); e] |})
  else store_trade w user symbol t init
       = (inl (Error "Invalid time value"), init).
Proof.
  unfold store_trade, bind. rewrite toISOString_ok.
  destruct (time_ok t); [|reflexivity].
  cbn [await ret emit init whales trace app]. fold (whale_row user symbol t).
  destruct (upsertError w (whale_row user symbol t));
    eexists; (split; [|reflexivity]); reflexivity.
Qed.

Lemma store_loop_run (w : World) (user : User) (symbol : string)
  (ws : list Trade) :
  exists t,
    for_of ws (store_trade w user symbol) init
    = (if forallb time_ok ws then inr tt
       else inl (Error "Invalid time value"),
       {| whales := []; trace := t |})
    /\ pair_calls t = map EUpsert (map (whale_row user symbol) (reached ws)).
Proof.
  induction ws as [|t ws IH]; cbn [for_of forallb reached].
  - exists []. split; reflexivity.
  - destruct IH as (tr & Hrun & Hcalls).
    pose proof (store_trade_run w user symbol t) as Ht.
    unfold bind. destruct (time_ok t); cbn [andb].
    + destruct Ht as (e & He & Ht). rewrite Ht.
      rewrite (adds_for_of (store_trade w user symbol) ws
                 (fun x => adds_store_trade w user symbol x)).
      rewrite Hrun. cbn [fst snd extend whales trace app].
      eexists. split; [reflexivity|]. cbn [trace].
      change [EUpsert (whale_row user symbol t); e]
        with ([EUpsert (whale_row user symbol t)] ++ [e]).
      rewrite !pair_calls_app, He, Hcalls. reflexivity.
    + rewrite Ht. exists []. split; reflexivity.
Qed.

Lemma reached_all (ws : list Trade) :
  forallb time_ok ws = true -> reached ws = ws.
Proof.
  induction ws as [|t ws IH]; cbn [forallb reached]; [reflexivity|].
  intros H. apply andb_true_iff in H. destruct H as [Ht Hws].
  rewrite Ht, (IH Hws). reflexivity.
Qed.

(** ** One pair *)

Lemma process_pair_value (w : World) (user : User) (apiKeys : ApiKeys)
  (symbol : string) :
  exists d,
    process_pair w user apiKeys symbol init = (inr tt, d)
    /\ whales d = pair_collected w apiKeys symbol
    /\ pair_calls (trace d)
       = EFetchTrades symbol (binance_api_key apiKeys)
         :: map EUpsert (pair_rows w user apiKeys symbol)
    /\ (fetch_fails w apiKeys symbol -> failure_logged symbol (trace d)).
Proof.
  unfold pair_collected, pair_rows, qualifying, fetch_fails, failure_logged.
  unfold process_pair, try_catch, bind at 1.
  cbn [emit init whales trace app].
  destruct (trades w symbol (binance_api_key apiKeys)) as [e|[e|text]|[e|ts]];
    try (eexists; (split; [reflexivity|]); cbn; repeat split; auto; fail).
  cbn [await]. unfold bind at 1. cbn [ret]. unfold bind at 1.
  rewrite (adds_for_of (store_trade w user symbol) (filter is_whale ts)
             (fun x => adds_store_trade w user symbol x)).
  destruct (store_loop_run w user symbol (filter is_whale ts))
    as (tr & Hrun & Hcalls).
  rewrite Hrun. cbn [fst snd extend whales trace app].
  destruct (forallb time_ok (filter is_whale ts)) eqn:Hall.
  - rewrite (reached_all _ Hall) in *.
    eexists; (split; [reflexivity|]).
    unfold extend, console_error, emit. cbn [fst snd whales trace app].
    rewrite pair_calls_fetch, Hcalls.
    repeat split; try reflexivity. intros [].
  - eexists; (split; [reflexivity|]).
    unfold extend, console_error, emit. cbn [fst snd whales trace app].
    rewrite pair_calls_fetch, pair_calls_app, Hcalls.
    cbn [pair_calls filter app]. rewrite app_nil_r.
    repeat split; try reflexivity. intros [].
Qed.

Lemma process_pair_run (w : World) (user : User) (apiKeys : ApiKeys)
  (symbol : string) :
  process_pair w user apiKeys symbol init
  = (inr tt, pair_added w user apiKeys symbol)
  /\ whales (pair_added w user apiKeys symbol)
     = pair_collected w apiKeys symbol
  /\ pair_calls (trace (pair_added w user apiKeys symbol))
     = EFetchTrades symbol (binance_api_key apiKeys)
       :: map EUpsert (pair_rows w user apiKeys symbol)
  /\ (fetch_fails w apiKeys symbol ->
      failure_logged symbol (trace (pair_added w user apiKeys symbol))).
Proof.
  destruct (process_pair_value w user apiKeys symbol) as (d & Hrun & H).
  unfold pair_added. rewrite Hrun. cbn [snd]. split; [reflexivity | exact H].
Qed.

(** ** The loop over the pairs *)

Lemma loop_run (w : World) (user : User) (apiKeys : ApiKeys)
  (symbols : list string) : forall st,
  for_of symbols (process_pair w user apiKeys) st
  = (inr tt, extend st (pairs_added w user apiKeys symbols)).
Proof.
  induction symbols as [|s symbols IH]; intros st;
    cbn [for_of pairs_added fold_right].
  - cbn. rewrite extend_init_r. reflexivity.
  - unfold bind. rewrite (adds_process_pair w user apiKeys s st).
    destruct (process_pair_run w user apiKeys s) as (Hrun & _).
    rewrite Hrun. cbn [fst snd]. rewrite IH, extend_assoc. reflexivity.
Qed.

Lemma pairs_added_whales (w : World) (user : User) (apiKeys : ApiKeys)
  (symbols : list string) :
  whales (pairs_added w user apiKeys symbols)
  = flat_map (pair_collected w apiKeys) symbols.
Proof.
  induction symbols as [|s symbols IH]; [reflexivity|].
  cbn [pairs_added fold_right flat_map extend whales].
  fold (pairs_added w user apiKeys symbols). rewrite IH.
  destruct (process_pair_run w user apiKeys s) as (_ & Hw & _).
  rewrite Hw. reflexivity.
Qed.

Lemma pairs_added_calls (w : World) (user : User) (apiKeys : ApiKeys)
  (symbols : list string) :
  pair_calls (trace (pairs_added w user apiKeys symbols))
  = flat_map (fun s => EFetchTrades s (binance_api_key apiKeys)
                       :: map EUpsert (pair_rows w user apiKeys s)) symbols.
Proof.
  induction symbols as [|s symbols IH]; [reflexivity|].
  cbn [pairs_added fold_right flat_map extend trace].
  fold (pairs_added w user apiKeys symbols).
  rewrite pair_calls_app, IH.
  destruct (process_pair_run w user apiKeys s) as (_ & _ & Hc & _).
  rewrite Hc. reflexivity.
Qed.

Lemma pairs_added_logs (w : World) (user : User) (apiKeys : ApiKeys)
  (symbols : list string) (s : string) :
  In s symbols -> fetch_fails w apiKeys s ->
  failure_logged s (trace (pairs_added w user apiKeys symbols)).
Proof.
  induction symbols as [|s' symbols IH]; intros Hin Hf; [destruct Hin|].
  cbn [pairs_added fold_right extend trace].
  fold (pairs_added w user apiKeys symbols).
  destruct Hin as [->|Hin].
  - destruct (process_pair_run w user apiKeys s) as (_ & _ & _ & Hl).
    destruct (Hl Hf) as [H|H]; [left | right]; apply in_or_app; left; exact H.
  - destruct (IH Hin Hf) as [H|H]; [left | right]; apply in_or_app; right;
      exact H.
Qed.

(** ** The whole invocation *)

Lemma not_options (req : Request) :
  method req <> "OPTIONS" -> (method req =? "OPTIONS") = false.
Proof. intros H. apply String.eqb_neq. exact H. Qed.

(** An invocation that reaches the loop: the response lists what the pairs
    collected, and the trace is what the pairs added between the lines
    before and after the loop. *)
Lemma serve_authenticated (w : World) (req : Request) (user : User)
  (apiKeys : ApiKeys) (symbols : list SymbolInfo) :
  authenticated w req user apiKeys ->
  exchangeInfo w = inr symbols ->
  exists pre post,
    pair_calls pre = [] /\ pair_calls post = []
    /\ serve w req
       = ({| resp_status := 200;
             resp_body :=
               BodySuccess true
                 (flat_map (pair_collected w apiKeys)
                    (slice0 10 (usdtPairs symbols))) |},
          pre ++ trace (pairs_added w user apiKeys
                          (slice0 10 (usdtPairs symbols))) ++ post).
Proof.
  intros (Hm & h & Hh & Ht & Hu & Hk) Hx.
  unfold serve. rewrite (not_options req Hm).
  unfold try_catch, main. rewrite Hh, Ht, Hu. cbn [gu_error gu_user].
  rewrite Hk. cbn [ak_error ak_data]. rewrite Hx.
  unfold console_log, bind, emit. cbn [init whales trace app await ret].
  rewrite loop_run. unfold get_whales, extend.
  cbn [fst snd whales trace app]. rewrite pairs_added_whales.
  cbn [ret trace].
  exists [ EConsoleLog "Initializing Supabase client...";
           EConsoleLog "Authenticating user...";
           EGetUser (replace "Bearer " "" h);
           EConsoleLog "Fetching API keys for user:";
           ESelectApiKeys (id user);
           EConsoleLog "Fetching exchange info from Binance...";
           EFetchExchangeInfo;
           EConsoleLog "Fetching trades for USDT pairs..." ],
         [ EConsoleLog "Completed processing whale trades" ].
  repeat split.
Qed.

Lemma upserts_blocks (apikey : string) (rows : string -> list WhaleRow)
  (symbols : list string) :
  upserts (flat_map (fun s => EFetchTrades s apikey :: map EUpsert (rows s))
             symbols)
  = flat_map rows symbols.
Proof.
  induction symbols as [|s symbols IH]; [reflexivity|].
  cbn [flat_map app upserts]. rewrite upserts_app, upserts_map, IH.
  reflexivity.
Qed.

Lemma fetched_blocks (apikey : string) (rows : string -> list WhaleRow)
  (symbols : list string) :
  fetched (flat_map (fun s => EFetchTrades s apikey :: map EUpsert (rows s))
             symbols)
  = symbols.
Proof.
  induction symbols as [|s symbols IH]; [reflexivity|].
  cbn [flat_map app fetched]. rewrite fetched_app, fetched_map, IH.
  reflexivity.
Qed.

(** The calls, fetches and upserts of an invocation that reaches the
    loop. *)
Lemma serve_calls (w : World) (req : Request) (user : User)
  (apiKeys : ApiKeys) (symbols : list SymbolInfo) :
  authenticated w req user apiKeys ->
  exchangeInfo w = inr symbols ->
  pair_calls (snd (serve w req))
  = flat_map (fun s => EFetchTrades s (binance_api_key apiKeys)
                       :: map EUpsert (pair_rows w user apiKeys s))
      (slice0 10 (usdtPairs symbols))
  /\ fetched (snd (serve w req)) = slice0 10 (usdtPairs symbols)
  /\ upserts (snd (serve w req))
     = flat_map (pair_rows w user apiKeys) (slice0 10 (usdtPairs symbols)).
Proof.
  intros Ha Hx.
  destruct (serve_authenticated w req user apiKeys symbols Ha Hx)
    as (pre & post & Hpre & Hpost & Hrun).
  assert (Hc : pair_calls (snd (serve w req))
               = flat_map (fun s => EFetchTrades s (binance_api_key apiKeys)
                                    :: map EUpsert (pair_rows w user apiKeys s))
                   (slice0 10 (usdtPairs symbols))).
  { rewrite Hrun. cbn [snd].
    rewrite !pair_calls_app, Hpre, Hpost, app_nil_r. cbn [app].
    apply pairs_added_calls. }
  split; [exact Hc|]. split.
  - rewrite <- fetched_pair_calls, Hc. apply fetched_blocks.
  - rewrite <- upserts_pair_calls, Hc. apply upserts_blocks.
Qed.

Lemma in_upserts (r : WhaleRow) (t : list event) :
  In (EUpsert r) t <-> In r (upserts t).
Proof.
  induction t as [|e t IH]; [reflexivity|].
  destruct e; cbn [In upserts]; rewrite IH; split;
    try (intros [H|H]; [discriminate H | exact H]);
    try (intros H; right; exact H).
  - intros [H|H]; [left; congruence | right; exact H].
  - intros [H|H]; [left; congruence | right; exact H].
Qed.

Lemma in_reached (t : Trade) (ts : list Trade) : In t (reached ts) -> In t ts.
Proof.
  induction ts as [|t' ts IH]; cbn [reached]; [intros []|].
  destruct (time_ok t'); [|intros []].
  intros [H|H]; [left; exact H | right; exact (IH H)].
Qed.

Lemma qualifying_whale (w : World) (apiKeys : ApiKeys) (s : string)
  (t : Trade) :
  In t (qualifying w apiKeys s) -> is_whale t = true.
Proof.
  unfold qualifying.
  destruct (trades w s (binance_api_key apiKeys)) as [e|x|[e|ts]];
    try (intros []).
  intros H. apply filter_In in H. apply H.
Qed.

(** Every row of [pair_rows] is worth the threshold or more. *)
Lemma pair_rows_amount (w : World) (user : User) (apiKeys : ApiKeys)
  (s : string) (r : WhaleRow) :
  In r (pair_rows w user apiKeys s) ->
  num_ge (row_amount r) WHALE_THRESHOLD = true.
Proof.
  unfold pair_rows. intros H. apply in_map_iff in H.
  destruct H as (t & <- & Ht). apply in_reached in Ht.
  apply (qualifying_whale w apiKeys s t Ht).
Qed.

Lemma forallb_time_ok (ts : list Trade) :
  (forall t, In t ts -> time_ok t = true) -> forallb time_ok ts = true.
Proof. intros H. apply forallb_forall. exact H. Qed.

(** ** The threshold *)


(** ** Invocations that do not reach the loop *)

Lemma serve_early (w : World) (req : Request) :
  (exists user apiKeys symbols,
      authenticated w req user apiKeys /\ exchangeInfo w = inr symbols)
  \/ (pair_calls (snd (serve w req)) = []
      /\ (fst (serve w req) = {| resp_status := 200; resp_body := BodyNull |}
          \/ exists msg,
               fst (serve w req)
               = {| resp_status := 500; resp_body := BodyError msg |})).
Proof.
  unfold serve. destruct (method req =? "OPTIONS") eqn:Hm.
  { right. split; [reflexivity | left; reflexivity]. }
  apply String.eqb_neq in Hm.
  destruct (authorization req) as [h|] eqn:Hh.
  2:{ right. unfold try_catch, main. rewrite Hh. cbn.
      split; [reflexivity | right; eexists; reflexivity]. }
  destruct (truthy h) eqn:Ht.
  2:{ right. unfold try_catch, main. rewrite Hh, Ht. cbn.
      split; [reflexivity | right; eexists; reflexivity]. }
  destruct (getUser w (replace "Bearer " "" h)) as [[user|] [ue|]] eqn:Hu;
    try (right; unfold try_catch, main; rewrite Hh, Ht, Hu; cbn;
         split; [reflexivity | right; eexists; reflexivity]).
  destruct (selectApiKeys w (id user)) as [[apiKeys|] [ke|]] eqn:Hk;
    try (right; unfold try_catch, main; rewrite Hh, Ht, Hu;
         cbn [gu_error gu_user]; rewrite Hk; cbn;
         split; [reflexivity | right; eexists; reflexivity]).
  destruct (exchangeInfo w) as [e|symbols] eqn:Hx.
  - right. unfold try_catch, main. rewrite Hh, Ht, Hu.
    cbn [gu_error gu_user]. rewrite Hk. cbn [ak_error ak_data]. rewrite Hx.
    cbn. split; [reflexivity | right; eexists; reflexivity].
  - left. exists user, apiKeys, symbols. split; [|reflexivity].
    split; [exact Hm|]. exists h. repeat split; assumption.
Qed.

(** ** The pairs that are fetched *)

Lemma in_firstn {A : Type} (l : list A) : forall n x,
  In x (firstn n l) -> In x l.
Proof.
  induction l as [|y l IH]; intros [|n] x H; cbn [firstn] in H;
    try contradiction.
  destruct H as [H|H]; [left; exact H | right; exact (IH n x H)].
Qed.

Lemma in_usdtPairs (symbols : list SymbolInfo) (s : string) :
  In s (usdtPairs symbols) ->
  exists info, In info symbols /\ symbol info = s
               /\ quoteAsset info = "USDT" /\ status info = "TRADING".
Proof.
  unfold usdtPairs. intros H. apply in_map_iff in H.
  destruct H as (info & Hs & Hin). apply filter_In in Hin.
  destruct Hin as (Hin & Hf). apply andb_true_iff in Hf.
  destruct Hf as (Hq & Hst). apply String.eqb_eq in Hq, Hst.
  exists info. repeat split; assumption.
Qed.

Lemma blocks_of_pairs (apikey : string) (rows : string -> list WhaleRow)
  (symbols : list string) :
  flat_map (block apikey) (map (fun s => (s, rows s)) symbols)
  = flat_map (fun s => EFetchTrades s apikey :: map EUpsert (rows s)) symbols.
Proof.
  induction symbols as [|s symbols IH]; [reflexivity|].
  cbn [map flat_map]. rewrite IH. reflexivity.
Qed.

(** C2. In every invocation the trade fetches are those of the first 10
    pairs, in the order of the exchange info, among the pairs whose
    quoteAsset is 'USDT' and whose status is 'TRADING'; and the calls of the
    loop come pair by pair: the fetch of a pair, then the upserts of that
    pair's rows, then the fetch of the next pair. *)
Theorem fetches_first_ten_usdt_pairs (w : World) (req : Request) :
  let t := snd (serve w req) in
  List.length (fetched t) <= 10
  /\ (fetched t = []
      \/ exists symbols,
           exchangeInfo w = inr symbols
           /\ fetched t = slice0 10 (usdtPairs symbols))
  /\ (forall s, In s (fetched t) ->
        exists symbols info,
          exchangeInfo w = inr symbols /\ In info symbols
          /\ symbol info = s /\ quoteAsset info = "USDT"
          /\ status info = "TRADING")
  /\ exists apikey blocks,
       pair_calls t = flat_map (block apikey) blocks
       /\ map fst blocks = fetched t
       /\ forall b r, In b blocks -> In r (snd b) -> row_symbol r = fst b.
Proof.
  intros t. subst t.
  destruct (serve_early w req)
    as [(user & apiKeys & symbols & Ha & Hx)|(Hc & _)].
  - destruct (serve_calls w req user apiKeys symbols Ha Hx) as (Hc & Hf & _).
    rewrite Hf. split; [apply firstn_le_length|].
    split; [right; exists symbols; split; [exact Hx | reflexivity]|].
    split.
    + intros s Hs. apply in_firstn in Hs.
      destruct (in_usdtPairs symbols s Hs) as (info & H).
      exists symbols, info. split; [exact Hx | exact H].
    + exists (binance_api_key apiKeys),
        (map (fun s => (s, pair_rows w user apiKeys s))
           (slice0 10 (usdtPairs symbols))).
      split; [rewrite Hc, blocks_of_pairs; reflexivity|].
      split; [rewrite map_map; cbn [fst]; apply map_id|].
      intros b r Hb Hr. apply in_map_iff in Hb.
      destruct Hb as (s & <- & _). cbn [fst snd] in *.
      unfold pair_rows in Hr. apply in_map_iff in Hr.
      destruct Hr as (tr & <- & _). reflexivity.
  - rewrite <- fetched_pair_calls, Hc. cbn [fetched List.length].
    split; [lia|]. split; [left; reflexivity|].
    split; [intros s []|].
    exists "", []. repeat split. intros b r [].
Qed.

(** ** A pair that fails *)

Lemma failed_pair_adds_nothing (w : World) (user : User) (apiKeys : ApiKeys)
  (s : string) :
  fetch_fails w apiKeys s ->
  pair_rows w user apiKeys s = [] /\ pair_collected w apiKeys s = [].
Proof.
  unfold fetch_fails, pair_rows, pair_collected, qualifying.
  destruct (trades w s (binance_api_key apiKeys)) as [e|x|[e|ts]];
    intros H; try (split; reflexivity). destruct H.
Qed.

(** C3. When fetching the trades of one pair fails, the failure is logged
    and the loop goes on: every pair is fetched once, the failed one
    included; the upserts are those of the pairs before it followed by
    those of the pairs after it; and the response is the success response
    listing the whale trades the other pairs collected. *)
Theorem failed_pair_is_skipped (w : World) (req : Request) (user : User)
  (apiKeys : ApiKeys) (symbols : list SymbolInfo)
  (before after : list string) (s : string) :
  authenticated w req user apiKeys ->
  exchangeInfo w = inr symbols ->
  slice0 10 (usdtPairs symbols) = before ++ s :: after ->
  fetch_fails w apiKeys s ->
  failure_logged s (snd (serve w req))
  /\ fetched (snd (serve w req)) = before ++ s :: after
  /\ upserts (snd (serve w req))
     = flat_map (pair_rows w user apiKeys) before
       ++ flat_map (pair_rows w user apiKeys) after
  /\ fst (serve w req)
     = {| resp_status := 200;
          resp_body :=
            BodySuccess true
              (flat_map (pair_collected w apiKeys) before
               ++ flat_map (pair_collected w apiKeys) after) |}.
Proof.
  intros Ha Hx Hp Hf.
  destruct (failed_pair_adds_nothing w user apiKeys s Hf) as (Hr & Hw).
  destruct (serve_calls w req user apiKeys symbols Ha Hx) as (_ & Hfe & Hu).
  destruct (serve_authenticated w req user apiKeys symbols Ha Hx)
    as (pre & post & _ & _ & Hrun).
  split; [|split; [|split]].
  - rewrite Hrun. cbn [snd].
    assert (Hl : failure_logged s
                   (trace (pairs_added w user apiKeys
                             (slice0 10 (usdtPairs symbols))))).
    { apply pairs_added_logs; [|exact Hf].
      rewrite Hp. apply in_or_app. right. left. reflexivity. }
    destruct Hl as [H|H]; [left | right];
      apply in_or_app; right; apply in_or_app; left; exact H.
  - rewrite Hfe. exact Hp.
  - rewrite Hu, Hp, flat_map_app. cbn [flat_map]. rewrite Hr. reflexivity.
  - rewrite Hrun, Hp, flat_map_app. cbn [fst flat_map]. rewrite Hw.
    reflexivity.
Qed.

(** ** Requests that are turned away *)

(** C4, as the code has it. For a request that is no preflight (its method
    is not OPTIONS): without an Authorization header, or when token
    authentication fails, or when the API-keys query gives an error or no
    row, the function calls neither the exchange nor whale_trades and
    answers with status 500 and the error message in the body; and every
    response that is not the success response has this shape. *)
Theorem unauthenticated_gets_500 (w : World) (req : Request) :
  method req <> "OPTIONS" ->
  (truthy_opt (authorization req) = false ->
     rejected_with w req "No authorization header")
  /\ (forall h,
        authorization req = Some h -> truthy h = true ->
        (gu_error (getUser w (replace "Bearer " "" h)) <> None
         \/ gu_user (getUser w (replace "Bearer " "" h)) = None) ->
        rejected_with w req "Unauthorized")
  /\ (forall h user,
        authorization req = Some h -> truthy h = true ->
        getUser w (replace "Bearer " "" h)
        = {| gu_user := Some user; gu_error := None |} ->
        (ak_error (selectApiKeys w (id user)) <> None
         \/ ak_data (selectApiKeys w (id user)) = None) ->
        rejected_with w req "API keys not found")
  /\ ((exists ws, fst (serve w req)
                  = {| resp_status := 200; resp_body := BodySuccess true ws |})
      \/ exists msg, fst (serve w req)
                     = {| resp_status := 500; resp_body := BodyError msg |}).
Proof.
  intros Hm. split; [|split; [|split]].
  - intros Hno. unfold rejected_with, serve. rewrite (not_options req Hm).
    unfold try_catch, main, truthy_opt in *.
    destruct (authorization req) as [h|]; [rewrite Hno|]; cbn;
      split; reflexivity.
  - intros h Hh Ht Hfail. unfold rejected_with, serve.
    rewrite (not_options req Hm). unfold try_catch, main. rewrite Hh, Ht.
    destruct (getUser w (replace "Bearer " "" h)) as [[user|] [e|]];
      cbn [gu_error gu_user] in *;
      try (cbn; split; reflexivity).
    destruct Hfail as [H|H]; [contradiction H; reflexivity | discriminate H].
  - intros h user Hh Ht Hu Hfail. unfold rejected_with, serve.
    rewrite (not_options req Hm). unfold try_catch, main. rewrite Hh, Ht, Hu.
    cbn [gu_error gu_user].
    destruct (selectApiKeys w (id user)) as [[apiKeys|] [e|]];
      cbn [ak_error ak_data] in *;
      try (cbn; split; reflexivity).
    destruct Hfail as [H|H]; [contradiction H; reflexivity | discriminate H].
  - destruct (serve_early w req)
      as [(user & apiKeys & symbols & Ha & Hx)|(_ & [H|H])].
    + destruct (serve_authenticated w req user apiKeys symbols Ha Hx)
        as (pre & post & _ & _ & Hrun).
      left. eexists. rewrite Hrun. reflexivity.
    + exfalso. unfold serve in H. rewrite (not_options req Hm) in H.
      destruct (try_catch (main w req) on_error init) as [[e|r] st] eqn:E;
        cbn [fst] in H; [discriminate H|].
      unfold try_catch in E.
      destruct (main w req init) as [[e|r'] st'] eqn:E'.
      * cbn in E. injection E as Hr _. rewrite <- Hr in H. discriminate H.
      * injection E as Hr _. rewrite <- Hr in H. clear Hr.
        unfold main in E'.
        destruct (authorization req) as [h|]; [|discriminate E'].
        destruct (truthy h); [|discriminate E'].
        destruct (getUser w (replace "Bearer " "" h)) as [[u|] [ue|]];
          cbn [gu_error gu_user] in E'; try discriminate E'.
        destruct (selectApiKeys w (id u)) as [[k|] [ke|]];
          cbn [ak_error ak_data] in E'; try discriminate E'.
        destruct (exchangeInfo w) as [xe|symbols]; [discriminate E'|].
        unfold console_log, bind, emit in E'.
        cbn [init whales trace app await ret] in E'.
        rewrite loop_run in E'. cbn in E'. injection E' as Hr _.
        rewrite <- Hr in H. discriminate H.
    + right. exact H.
Qed.

(** ** One upsert for each qualifying trade *)

Lemma pair_rows_all (w : World) (user : User) (apiKeys : ApiKeys)
  (symbols : list string) :
  (forall s t, In s symbols -> In t (qualifying w apiKeys s) ->
               time_ok t = true) ->
  flat_map (pair_rows w user apiKeys) symbols
  = flat_map (fun s => map (whale_row user s) (qualifying w apiKeys s))
      symbols.
Proof.
  induction symbols as [|s symbols IH]; intros H; [reflexivity|].
  cbn [flat_map]. rewrite IH.
  - unfold pair_rows. rewrite reached_all; [reflexivity|].
    apply forallb_time_ok. intros t Ht. apply (H s t); [left; reflexivity|].
    exact Ht.
  - intros s' t Hs Ht. apply (H s' t); [right; exact Hs | exact Ht].
Qed.

Lemma length_rows (user : User) (f : string -> list Trade)
  (symbols : list string) :
  List.length (flat_map (fun s => map (whale_row user s) (f s)) symbols)
  = List.length (flat_map f symbols).
Proof.
  induction symbols as [|s symbols IH]; [reflexivity|].
  cbn [flat_map]. rewrite !length_app, length_map, IH. reflexivity.
Qed.

(** C7, as the code has it. An invocation that reaches the loop, where
    each qualifying trade of the pairs it processes has a time value in
    the range of a [Date], issues exactly one upsert for each of them, in
    order and with repetitions kept; two invocations over the same
    exchange data issue each of them twice, so what the storage holds
    afterwards is what its own upsert makes of the repetition. *)
Theorem one_upsert_per_qualifying_trade (w : World) (req : Request)
  (user : User) (apiKeys : ApiKeys) (symbols : list SymbolInfo)
  (Store : Type) (put : Store -> WhaleRow -> Store) (s0 : Store) :
  authenticated w req user apiKeys ->
  exchangeInfo w = inr symbols ->
  (forall s t, In s (slice0 10 (usdtPairs symbols)) ->
               In t (qualifying w apiKeys s) -> time_ok t = true) ->
  let rows :=
    flat_map (fun s => map (whale_row user s) (qualifying w apiKeys s))
      (slice0 10 (usdtPairs symbols)) in
  upserts (snd (serve w req)) = rows
  /\ List.length (upserts (snd (serve w req)))
     = List.length (flat_map (qualifying w apiKeys)
                      (slice0 10 (usdtPairs symbols)))
  /\ upserts (snd (serve w req) ++ snd (serve w req)) = rows ++ rows
  /\ stored put s0 (snd (serve w req) ++ snd (serve w req))
     = fold_left put rows (fold_left put rows s0).
Proof.
  intros Ha Hx Htime rows.
  destruct (serve_calls w req user apiKeys symbols Ha Hx) as (_ & _ & Hu).
  assert (Hrows : upserts (snd (serve w req)) = rows).
  { rewrite Hu. apply pair_rows_all. exact Htime. }
  split; [exact Hrows|]. split; [|split].
  - rewrite Hrows. apply length_rows.
  - rewrite upserts_app, Hrows. reflexivity.
  - unfold stored. rewrite upserts_app, Hrows, fold_left_app. reflexivity.
Qed.

(** What the storage's upsert makes of a repetition: a storage whose
    upsert is idempotent and insensitive to order holds after two
    invocations what it holds after one. *)
Lemma stored_twice_idempotent (Store : Type)
  (put : Store -> WhaleRow -> Store) :
  (forall s r, put (put s r) r = put s r) ->
  (forall s r r', put (put s r) r' = put (put s r') r) ->
  forall rows s, fold_left put rows (fold_left put rows s)
                 = fold_left put rows s.
Proof.
  intros Hidem Hcomm.
  assert (Hmove : forall rows s r,
             fold_left put rows (put s r) = put (fold_left put rows s) r).
  { induction rows as [|r' rows IH]; intros s r; [reflexivity|].
    cbn [fold_left]. rewrite <- IH, (Hcomm s r r'). reflexivity. }
  induction rows as [|r rows IH]; intros s; [reflexivity|].
  cbn [fold_left]. rewrite (Hmove rows s r), Hidem, Hmove, IH. reflexivity.
Qed.

End Facts.


Lemma sample_authenticated :
  authenticated Binary64.sample_world Binary64.sample_request
    Binary64.sample_user Binary64.sample_keys.
Proof. split; [discriminate|]. exists "Bearer tok". repeat split. Qed.

(** The theorem at work on the sample invocation: BNBUSDT, between BTCUSDT
    and ETHUSDT, is refused by the exchange; all three are fetched once and
    the response lists the whale trades of the other two. *)
Lemma failed_pair_is_skipped_witness :
  fetched (snd (serve Binary64.sample_world Binary64.sample_request))
  = ["BTCUSDT"; "BNBUSDT"; "ETHUSDT"]
  /\ fst (serve Binary64.sample_world Binary64.sample_request)
     = {| resp_status := 200;
          resp_body :=
            BodySuccess true [Binary64.big_trade; Binary64.eth_trade] |}.
Proof.
  destruct (failed_pair_is_skipped Binary64.sample_world
              Binary64.sample_request Binary64.sample_user
              Binary64.sample_keys Binary64.sample_symbols
              ["BTCUSDT"] ["ETHUSDT"] "BNBUSDT"
              sample_authenticated eq_refl eq_refl I)
    as (_ & Hf & _ & Hr).
  split; [exact Hf | exact Hr].
Defined.

(** The claim as the specification words it fails on a preflight: the
    request has no Authorization header and is answered 200 with an empty
    body. *)
Lemma preflight_without_authorization_gets_200 :
  authorization Binary64.preflight_request = None
  /\ serve Binary64.sample_world Binary64.preflight_request
     = ({| resp_status := 200; resp_body := BodyNull |}, [])
  /\ resp_status
       (fst (serve Binary64.sample_world Binary64.preflight_request))
     <> 500%Z.
Proof. repeat split. discriminate. Qed.

(** The theorem at work: a POST without an Authorization header. *)
Lemma unauthenticated_gets_500_witness :
  rejected_with Binary64.sample_world Binary64.anonymous_request
    "No authorization header".
Proof.
  apply (unauthenticated_gets_500 Binary64.sample_world
           Binary64.anonymous_request);
    [discriminate | reflexivity].
Defined.

(** The theorem at work: after two sample invocations a storage that keeps
    every row holds both whale rows twice. *)
Lemma one_upsert_per_qualifying_trade_witness :
  stored Binary64.append_row []
    (snd (serve Binary64.sample_world Binary64.sample_request)
     ++ snd (serve Binary64.sample_world Binary64.sample_request))
  = [ whale_row Binary64.sample_user "BTCUSDT" Binary64.big_trade;
      whale_row Binary64.sample_user "ETHUSDT" Binary64.eth_trade;
      whale_row Binary64.sample_user "BTCUSDT" Binary64.big_trade;
      whale_row Binary64.sample_user "ETHUSDT" Binary64.eth_trade ].
Proof.
  assert (Htime : forall s t,
             In s (slice0 10 (usdtPairs Binary64.sample_symbols)) ->
             In t (qualifying Binary64.sample_world Binary64.sample_keys s) ->
             time_ok t = true).
  { intros s t [<-|[<-|[<-|[]]]] Ht; vm_compute in Ht;
      repeat (destruct Ht as [<-|Ht]; [reflexivity|]); destruct Ht. }
  destruct (one_upsert_per_qualifying_trade Binary64.sample_world
              Binary64.sample_request Binary64.sample_user
              Binary64.sample_keys Binary64.sample_symbols
              (list WhaleRow) Binary64.append_row []
              sample_authenticated eq_refl Htime)
    as (_ & _ & _ & H).
  exact H.
Defined.

(** ** Trades without a time value *)

Lemma untimed_passes :
  authenticated WhaleWords.untimed_world Binary64.sample_request
    Binary64.sample_user Binary64.sample_keys.
Proof. split; [discriminate|]. exists "Bearer tok". repeat split. Qed.

Lemma untimed_upserts :
  upserts (snd (serve WhaleWords.untimed_world Binary64.sample_request))
  = [ whale_row Binary64.sample_user "BTCUSDT" Binary64.big_trade;
      whale_row Binary64.sample_user "ETHUSDT" Binary64.eth_trade ].
Proof.
  destruct (serve_calls WhaleWords.untimed_world Binary64.sample_request
              Binary64.sample_user Binary64.sample_keys
              Binary64.sample_symbols untimed_passes eq_refl)
    as (_ & _ & Hu).
  rewrite Hu. reflexivity.
Qed.


(** C7 as the specification words it fails in the same world: the pairs
    processed have four qualifying trades, and the invocation issues two
    upserts. *)
Lemma fewer_upserts_than_qualifying_trades :
  authenticated WhaleWords.untimed_world Binary64.sample_request
    Binary64.sample_user Binary64.sample_keys
  /\ exchangeInfo WhaleWords.untimed_world = inr Binary64.sample_symbols
  /\ flat_map (qualifying WhaleWords.untimed_world Binary64.sample_keys)
       (slice0 10 (usdtPairs Binary64.sample_symbols))
     = [Binary64.big_trade; WhaleWords.untimed_trade; Binary64.eth_trade;
        Binary64.eth_trade]
  /\ List.length
       (upserts (snd (serve WhaleWords.untimed_world
                        Binary64.sample_request))) = 2.
Proof.
  split; [exact untimed_passes|]. split; [reflexivity|].
  split; [reflexivity|]. rewrite untimed_upserts. reflexivity.
Qed.

(** A preflight is answered without any call. *)
Example serve_preflight :
  serve Binary64.sample_world Binary64.preflight_request
  = ({| resp_status := 200; resp_body := BodyNull |}, []).
Proof. reflexivity. Qed.

(** The calls of the sample invocation, pair by pair. *)
Example serve_sample_calls :
  pair_calls (snd (serve Binary64.sample_world Binary64.sample_request))
  = [ EFetchTrades "BTCUSDT" "key";
      EUpsert (whale_row Binary64.sample_user "BTCUSDT" Binary64.big_trade);
      EFetchTrades "BNBUSDT" "key";
      EFetchTrades "ETHUSDT" "key";
      EUpsert (whale_row Binary64.sample_user "ETHUSDT" Binary64.eth_trade) ].
Proof. reflexivity. Qed.

(** [parseFloat] and [toISOString] on values of the exchange. *)
#[local] Set Warnings "-inexact-float".

Example binary64_values :
  Binary64.parseDecimal "67231.45000000" = 67231.45%float
  /\ Binary64.parseDecimal "0.10000000" = 0.1%float
  /\ PrimFloat.mul (Binary64.parseDecimal "67231.45000000")
       (Binary64.parseDecimal "2.50000000") = 168078.625%float
  /\ Binary64.isoText 1499865549590 = "2017-07-12T13:19:09.590Z".
Proof. repeat split. Qed.

(** [toISOString] at the ends of the range of a [Date], before 1970 and
    around the year 0. *)
Example isoText_years :
  Binary64.isoText 8640000000000000 = "+275760-09-13T00:00:00.000Z"
  /\ Binary64.isoText (-8640000000000000) = "-271821-04-20T00:00:00.000Z"
  /\ Binary64.isoText (-1) = "1969-12-31T23:59:59.999Z"
  /\ Binary64.isoText (-62167219200000) = "0000-01-01T00:00:00.000Z"
  /\ Binary64.isoText (-62167219200001) = "-000001-12-31T23:59:59.999Z"
  /\ Binary64.isoText 253402300800000 = "+010000-01-01T00:00:00.000Z".
Proof. repeat split. Qed.

End WhaleFacts.

(* ===================================================================== *)
(** * Further properties of the whale-trade function *)
(* ===================================================================== *)

Module WhaleCoverage.

Import Js Whale WhaleWords WhaleFacts.

Section Coverage.

Context {R : Runtime}.

(** ** Computations whose effects are effects of the loop *)

Lemma loop_only_ret {A : Type} (a : A) : loop_only (ret a).
Proof. intros st. exists []. cbn. rewrite app_nil_r. split; reflexivity. Qed.

Lemma loop_only_throw {A : Type} (e : thrown) : loop_only (@throw R A e).
Proof. intros st. exists []. cbn. rewrite app_nil_r. split; reflexivity. Qed.

Lemma loop_only_emit (e : event) : loop_event e = true -> loop_only (emit e).
Proof.
  intros He st. exists [e]. cbn. rewrite He. split; reflexivity.
Qed.

Lemma loop_only_push (ts : list Trade) : loop_only (push_whales ts).
Proof. intros st. exists []. cbn. rewrite app_nil_r. split; reflexivity. Qed.

Lemma loop_only_await {A : Type} (r : thrown + A) : loop_only (await r).
Proof. destruct r; [apply loop_only_throw | apply loop_only_ret]. Qed.

Lemma loop_only_bind {A B : Type} (m : M A) (k : A -> M B) :
  loop_only m -> (forall a, loop_only (k a)) -> loop_only (bind m k).
Proof.
  intros Hm Hk st. unfold bind. destruct (Hm st) as (d & Hd & Hl).
  destruct (m st) as [[e|a] st1]; cbn [snd] in *.
  - exists d. split; assumption.
  - destruct (Hk a st1) as (d' & Hd' & Hl').
    exists (d ++ d'). rewrite Hd', Hd, app_assoc, forallb_app, Hl, Hl'.
    split; reflexivity.
Qed.

Lemma loop_only_try_catch {A : Type} (m : M A) (h : thrown -> M A) :
  loop_only m -> (forall e, loop_only (h e)) -> loop_only (try_catch m h).
Proof.
  intros Hm Hh st. unfold try_catch. destruct (Hm st) as (d & Hd & Hl).
  destruct (m st) as [[e|a] st1]; cbn [snd] in *.
  - destruct (Hh e st1) as (d' & Hd' & Hl').
    exists (d ++ d'). rewrite Hd', Hd, app_assoc, forallb_app, Hl, Hl'.
    split; reflexivity.
  - exists d. split; assumption.
Qed.

Lemma loop_only_for_of {A : Type} (body : A -> M unit) (l : list A) :
  (forall x, loop_only (body x)) -> loop_only (for_of l body).
Proof.
  intros Hb. induction l as [|x l IH]; cbn [for_of].
  - apply loop_only_ret.
  - apply loop_only_bind; [apply Hb | intros _; exact IH].
Qed.

Lemma loop_only_store_trade (w : World) (user : User) (symbol : string)
  (trade : Trade) : loop_only (store_trade w user symbol trade).
Proof.
  unfold store_trade, console_error, console_log.
  apply loop_only_bind; [apply loop_only_await|]. intros ts.
  apply loop_only_bind; [apply loop_only_emit; reflexivity|]. intros _.
  destruct (upsertError w _); apply loop_only_emit; reflexivity.
Qed.

Lemma loop_only_process_pair (w : World) (user : User) (apiKeys : ApiKeys)
  (symbol : string) : loop_only (process_pair w user apiKeys symbol).
Proof.
  unfold process_pair, console_error.
  apply loop_only_try_catch;
    [|intros e; apply loop_only_emit; reflexivity].
  apply loop_only_bind; [apply loop_only_emit; reflexivity|]. intros _.
  destruct (trades w symbol (binance_api_key apiKeys)) as [e|text|json].
  - apply loop_only_throw.
  - apply loop_only_bind; [apply loop_only_await|]. intros _.
    apply loop_only_emit. reflexivity.
  - apply loop_only_bind; [apply loop_only_await|]. intros tradeData.
    apply loop_only_bind; [|intros _; apply loop_only_push].
    apply loop_only_for_of. intros t. apply loop_only_store_trade.
Qed.

(** The effects a loop over pairs adds are effects of the loop. *)
Lemma pairs_added_loop_events (w : World) (user : User) (apiKeys : ApiKeys)
  (symbols : list string) :
  forallb loop_event (trace (pairs_added w user apiKeys symbols)) = true.
Proof.
  destruct (loop_only_for_of (process_pair w user apiKeys) symbols
              (loop_only_process_pair w user apiKeys) init) as (d & Hd & Hl).
  rewrite loop_run in Hd. cbn [snd init trace app] in Hd.
  rewrite extend_init_l in Hd. rewrite Hd. exact Hl.
Qed.

(** The whole trace of an invocation that reaches the loop. *)
Lemma serve_reaches_loop (w : World) (req : Request) (user : User)
  (apiKeys : ApiKeys) (symbols : list SymbolInfo) (h : string) :
  method req <> "OPTIONS" ->
  authorization req = Some h -> truthy h = true ->
  getUser w (replace "Bearer " "" h)
  = {| gu_user := Some user; gu_error := None |} ->
  selectApiKeys w (id user) = {| ak_data := Some apiKeys; ak_error := None |} ->
  exchangeInfo w = inr symbols ->
  serve w req
  = ({| resp_status := 200;
        resp_body :=
          BodySuccess true
            (flat_map (pair_collected w apiKeys)
               (slice0 10 (usdtPairs symbols))) |},
     before_loop (replace "Bearer " "" h) (id user)
     ++ trace (pairs_added w user apiKeys (slice0 10 (usdtPairs symbols)))
     ++ [EConsoleLog "Completed processing whale trades"]).
Proof.
  intros Hm Hh Ht Hu Hk Hx.
  unfold serve. rewrite (not_options req Hm).
  unfold try_catch, main. rewrite Hh, Ht, Hu. cbn [gu_error gu_user].
  rewrite Hk. cbn [ak_error ak_data]. rewrite Hx.
  unfold console_log, bind, emit. cbn [init whales trace app await ret].
  rewrite loop_run. unfold get_whales, extend.
  cbn [fst snd whales trace app]. rewrite pairs_added_whales.
  cbn [ret trace]. reflexivity.
Qed.

(** ** Who may reach the exchange *)

(** X1. The exchange and [whale_trades] are called only for a request
    that passed authentication and for whose user API keys were found. *)
Theorem exchange_called_only_when_authenticated (w : World) (req : Request)
  (e : event) :
  In e (snd (serve w req)) -> is_io e = true ->
  exists user apiKeys, authenticated w req user apiKeys.
Proof.
  intros Hin He. unfold serve in Hin.
  destruct (method req =? "OPTIONS") eqn:Hm; [destruct Hin|].
  apply String.eqb_neq in Hm.
  assert (Hquiet : forall t : list event,
             In e t -> forallb (fun x => negb (is_io x)) t = true -> False).
  { intros t Ht Hall. rewrite forallb_forall in Hall.
    specialize (Hall e Ht). rewrite He in Hall. discriminate Hall. }
  unfold try_catch, main in Hin.
  destruct (authorization req) as [h|] eqn:Hh;
    [|exfalso; apply (Hquiet _ Hin); reflexivity].
  destruct (truthy h) eqn:Ht;
    [|exfalso; apply (Hquiet _ Hin); reflexivity].
  destruct (getUser w (replace "Bearer " "" h)) as [[user|] [ue|]] eqn:Hu;
    cbn [gu_error gu_user] in Hin;
    try (exfalso; apply (Hquiet _ Hin); reflexivity).
  destruct (selectApiKeys w (id user)) as [[apiKeys|] [ke|]] eqn:Hk;
    cbn [ak_error ak_data] in Hin;
    try (exfalso; apply (Hquiet _ Hin); reflexivity).
  exists user, apiKeys. split; [exact Hm|]. exists h. repeat split; assumption.
Qed.

(** ** When the exchange info cannot be fetched *)

(** X2. When the fetch of the exchange info fails for an authenticated
    request, the function answers 500 with the error's message; the
    exchange info was asked for once, no trades were fetched and nothing
    was upserted. *)
Theorem exchange_info_failure_gets_500 (w : World) (req : Request)
  (user : User) (apiKeys : ApiKeys) (e : thrown) :
  authenticated w req user apiKeys ->
  exchangeInfo w = inl e ->
  fst (serve w req)
  = {| resp_status := 500; resp_body := BodyError (error_text e) |}
  /\ filter is_io (snd (serve w req)) = [EFetchExchangeInfo]
  /\ fetched (snd (serve w req)) = []
  /\ upserts (snd (serve w req)) = [].
Proof.
  intros (Hm & h & Hh & Ht & Hu & Hk) Hx.
  unfold serve. rewrite (not_options req Hm).
  unfold try_catch, main. rewrite Hh, Ht, Hu. cbn [gu_error gu_user].
  rewrite Hk. cbn [ak_error ak_data]. rewrite Hx.
  cbn. repeat split.
Qed.

(** ** The token *)

Lemma replace_bearer (token : string) :
  replace "Bearer " "" ("Bearer " ++ token) = token.
Proof. destruct token; reflexivity. Qed.

Lemma setup_calls_app (a b : list event) :
  setup_calls (a ++ b) = setup_calls a ++ setup_calls b.
Proof. apply filter_app. Qed.

Lemma setup_calls_loop (d : list event) :
  forallb loop_event d = true -> setup_calls d = [].
Proof.
  induction d as [|e d IH]; [reflexivity|].
  cbn [forallb]. intros H. apply andb_true_iff in H. destruct H as (He & Hd).
  unfold setup_calls in *. cbn [filter].
  destruct e; try discriminate He; apply IH; exact Hd.
Qed.

(** X3. For a header "Bearer " followed by a token, the function
    authenticates exactly that token, first of all its calls; it then
    queries the API keys of the user that token belongs to and of no one
    else, and fetches the exchange info at most once. *)
Theorem bearer_token_is_authenticated (w : World) (req : Request)
  (token : string) :
  method req <> "OPTIONS" ->
  authorization req = Some ("Bearer " ++ token)%string ->
  exists rest,
    setup_calls (snd (serve w req)) = EGetUser token :: rest
    /\ (rest = []
        \/ exists user,
             gu_user (getUser w token) = Some user
             /\ (rest = [ESelectApiKeys (id user)]
                 \/ rest = [ESelectApiKeys (id user); EFetchExchangeInfo])).
Proof.
  intros Hm Hh.
  destruct (getUser w token) as [[user|] [ue|]] eqn:Hu.
  1,3,4: (unfold serve; rewrite (not_options req Hm);
          unfold try_catch, main; rewrite Hh, replace_bearer; cbn [truthy append];
          rewrite Hu; cbn;
          eexists; split; [reflexivity | left; reflexivity]).
  destruct (selectApiKeys w (id user)) as [[apiKeys|] [ke|]] eqn:Hk.
  1,3,4: (unfold serve; rewrite (not_options req Hm);
          unfold try_catch, main; rewrite Hh, replace_bearer; cbn [truthy append];
          rewrite Hu; cbn [gu_error gu_user];
          rewrite Hk; cbn;
          eexists; split;
          [reflexivity
          | right; exists user; split; [reflexivity | left; reflexivity]]).
  destruct (exchangeInfo w) as [xe|symbols] eqn:Hx.
  - unfold serve. rewrite (not_options req Hm).
    unfold try_catch, main. rewrite Hh, replace_bearer. cbn [truthy append].
    rewrite Hu. cbn [gu_error gu_user].
    rewrite Hk. cbn [ak_error ak_data]. rewrite Hx. cbn.
    eexists; split;
      [reflexivity
      | right; exists user; split; [reflexivity | right; reflexivity]].
  - rewrite (serve_reaches_loop w req user apiKeys symbols
               ("Bearer " ++ token)%string Hm Hh eq_refl).
    + rewrite replace_bearer. cbn [snd].
      rewrite !setup_calls_app.
      rewrite (setup_calls_loop _ (pairs_added_loop_events w user apiKeys _)).
      cbn. eexists; split;
        [reflexivity
        | right; exists user; split; [reflexivity | right; reflexivity]].
    + rewrite replace_bearer. exact Hu.
    + exact Hk.
    + exact Hx.
Qed.

(** ** A whale trade without a time value *)

Lemma pair_untimed_logged (w : World) (user : User) (apiKeys : ApiKeys)
  (s : string) (ts : list Trade) :
  trades w s (binance_api_key apiKeys) = Ok (inr ts) ->
  forallb time_ok (filter is_whale ts) = false ->
  In (EConsoleError ("Error fetching trades for " ++ s ++ ":"))
     (trace (pair_added w user apiKeys s)).
Proof.
  intros Hts Hall. unfold pair_added, process_pair, try_catch, bind at 1.
  cbn [emit init whales trace app]. rewrite Hts.
  cbn [await]. unfold bind at 1. cbn [ret]. unfold bind at 1.
  rewrite (adds_for_of (store_trade w user s) (filter is_whale ts)
             (fun x => adds_store_trade w user s x)).
  destruct (store_loop_run w user s (filter is_whale ts))
    as (tr & Hrun & _).
  rewrite Hrun, Hall. unfold extend, console_error, emit.
  cbn [fst snd whales trace app].
  right. apply in_or_app. right. left. reflexivity.
Qed.

(** X4. When a qualifying trade of a pair has no time value, the upserts
    of that pair stop before it and the pair's failure is logged: the
    trades upserted before it stay upserted, but the response lists none
    of that pair's trades. *)
Theorem untimed_whale_drops_pair_from_response (w : World) (req : Request)
  (user : User) (apiKeys : ApiKeys) (symbols : list SymbolInfo)
  (before after : list string) (s : string) (ts : list Trade) :
  authenticated w req user apiKeys ->
  exchangeInfo w = inr symbols ->
  slice0 10 (usdtPairs symbols) = before ++ s :: after ->
  trades w s (binance_api_key apiKeys) = Ok (inr ts) ->
  forallb time_ok (filter is_whale ts) = false ->
  upserts (snd (serve w req))
  = flat_map (pair_rows w user apiKeys) before
    ++ map (whale_row user s) (reached (filter is_whale ts))
    ++ flat_map (pair_rows w user apiKeys) after
  /\ fst (serve w req)
     = {| resp_status := 200;
          resp_body :=
            BodySuccess true
              (flat_map (pair_collected w apiKeys) before
               ++ flat_map (pair_collected w apiKeys) after) |}
  /\ In (EConsoleError ("Error fetching trades for " ++ s ++ ":"))
        (snd (serve w req)).
Proof.
  intros Ha Hx Hp Hts Hall.
  destruct (serve_calls w req user apiKeys symbols Ha Hx) as (_ & _ & Hu).
  destruct (serve_authenticated w req user apiKeys symbols Ha Hx)
    as (pre & post & _ & _ & Hrun).
  split; [|split].
  - rewrite Hu, Hp, flat_map_app. cbn [flat_map].
    unfold pair_rows at 2. unfold qualifying. rewrite Hts. reflexivity.
  - rewrite Hrun, Hp, flat_map_app. cbn [fst flat_map].
    unfold pair_collected at 2. unfold qualifying. rewrite Hts, Hall.
    reflexivity.
  - rewrite Hrun, Hp. cbn [snd].
    apply in_or_app. right. apply in_or_app. left.
    assert (Hin : forall l l' : list string,
               In (EConsoleError ("Error fetching trades for " ++ s ++ ":"))
                  (trace (pairs_added w user apiKeys (l ++ s :: l')))).
    { induction l as [|x l IH]; intros l'; cbn [app pairs_added fold_right];
        cbn [extend trace]; apply in_or_app.
      - left. apply (pair_untimed_logged w user apiKeys s ts Hts Hall).
      - right. apply IH. }
    apply Hin.
Qed.

(** ** What the response lists *)

(** X5. Every trade the success response lists passed the filter and was
    upserted: its row, under the symbol of one of the processed pairs, is
    among the upserts of the invocation. *)
Theorem listed_whales_were_upserted (w : World) (req : Request)
  (user : User) (apiKeys : ApiKeys) (symbols : list SymbolInfo)
  (ws : list Trade) (t : Trade) :
  authenticated w req user apiKeys ->
  exchangeInfo w = inr symbols ->
  resp_body (fst (serve w req)) = BodySuccess true ws ->
  In t ws ->
  is_whale t = true
  /\ exists s, In s (slice0 10 (usdtPairs symbols))
               /\ In (EUpsert (whale_row user s t)) (snd (serve w req)).
Proof.
  intros Ha Hx Hb Ht.
  destruct (serve_calls w req user apiKeys symbols Ha Hx) as (_ & _ & Hu).
  destruct (serve_authenticated w req user apiKeys symbols Ha Hx)
    as (pre & post & _ & _ & Hrun).
  rewrite Hrun in Hb. cbn [fst resp_body] in Hb.
  injection Hb as Hws. subst ws.
  apply in_flat_map in Ht. destruct Ht as (s & Hs & Ht).
  unfold pair_collected in Ht.
  destruct (forallb time_ok (qualifying w apiKeys s)) eqn:Hall;
    [|destruct Ht].
  split; [apply (qualifying_whale w apiKeys s t Ht)|].
  exists s. split; [exact Hs|].
  rewrite in_upserts, Hu. apply in_flat_map. exists s. split; [exact Hs|].
  unfold pair_rows. rewrite (reached_all _ Hall). apply in_map. exact Ht.
Qed.

(** ** What the storage answers *)

Lemma service_calls_app (a b : list event) :
  service_calls (a ++ b) = service_calls a ++ service_calls b.
Proof. apply filter_app. Qed.

Lemma service_calls_loop (d : list event) :
  forallb loop_event d = true -> service_calls d = pair_calls d.
Proof.
  induction d as [|e d IH]; [reflexivity|].
  cbn [forallb]. intros H. apply andb_true_iff in H. destruct H as (He & Hd).
  unfold service_calls, pair_calls in *. cbn [filter].
  destruct e; try discriminate He; rewrite (IH Hd); reflexivity.
Qed.

(** X6. What the storage answers to an upsert changes console lines
    only: with any other answers the response is the same and so are the
    calls to the services, in the same order; a failed upsert stops
    nothing. *)
Theorem upsert_answers_change_logs_only (w : World) (req : Request)
  (answer : WhaleRow -> option string) :
  fst (serve (with_upsert w answer) req) = fst (serve w req)
  /\ service_calls (snd (serve (with_upsert w answer) req))
     = service_calls (snd (serve w req)).
Proof.
  unfold serve. destruct (method req =? "OPTIONS") eqn:Hm;
    [split; reflexivity|].
  apply String.eqb_neq in Hm.
  destruct (authorization req) as [h|] eqn:Hh;
    [|unfold try_catch, main; rewrite Hh; split; reflexivity].
  destruct (truthy h) eqn:Ht;
    [|unfold try_catch, main; rewrite Hh, Ht; split; reflexivity].
  destruct (getUser w (replace "Bearer " "" h)) as [[user|] [ue|]] eqn:Hu;
    try (unfold try_catch, main; cbn [with_upsert getUser];
         rewrite Hh, Ht, Hu; split; reflexivity).
  destruct (selectApiKeys w (id user)) as [[apiKeys|] [ke|]] eqn:Hk;
    try (unfold try_catch, main; cbn [with_upsert getUser selectApiKeys];
         rewrite Hh, Ht, Hu; cbn [gu_error gu_user]; rewrite Hk;
         split; reflexivity).
  destruct (exchangeInfo w) as [xe|symbols] eqn:Hx.
  - unfold try_catch, main.
    cbn [with_upsert getUser selectApiKeys exchangeInfo].
    rewrite Hh, Ht, Hu. cbn [gu_error gu_user]. rewrite Hk.
    cbn [ak_error ak_data]. rewrite Hx. split; reflexivity.
  - pose proof (serve_reaches_loop w req user apiKeys symbols h
                  Hm Hh Ht Hu Hk Hx) as H1.
    pose proof (serve_reaches_loop (with_upsert w answer) req user apiKeys
                  symbols h Hm Hh Ht Hu Hk Hx) as H2.
    unfold serve in H1, H2. rewrite (not_options req Hm) in H1, H2.
    rewrite H1, H2. cbn [fst snd]. split; [reflexivity|].
    rewrite !service_calls_app.
    rewrite !(service_calls_loop _ (pairs_added_loop_events _ user apiKeys _)).
    rewrite !pairs_added_calls. reflexivity.
Qed.

(** ** Whose rows and whose key *)

(** X7. In an invocation that reaches the loop every upserted row carries
    the id of the authenticated user, the symbol of a processed pair, an
    amount of at least the threshold and the trade type 'buy' or 'sell';
    every trade fetch is for a processed pair and carries that user's API
    key. *)
Theorem calls_are_for_the_authenticated_user (w : World) (req : Request)
  (user : User) (apiKeys : ApiKeys) (symbols : list SymbolInfo) :
  authenticated w req user apiKeys ->
  exchangeInfo w = inr symbols ->
  (forall r, In (EUpsert r) (snd (serve w req)) ->
     row_user_id r = id user
     /\ In (row_symbol r) (slice0 10 (usdtPairs symbols))
     /\ num_ge (row_amount r) WHALE_THRESHOLD = true
     /\ (row_trade_type r = "buy" \/ row_trade_type r = "sell"))
  /\ (forall s k, In (EFetchTrades s k) (snd (serve w req)) ->
        k = binance_api_key apiKeys
        /\ In s (slice0 10 (usdtPairs symbols))).
Proof.
  intros Ha Hx.
  destruct (serve_calls w req user apiKeys symbols Ha Hx) as (Hc & _ & Hu).
  split.
  - intros r Hr. rewrite in_upserts, Hu in Hr.
    apply in_flat_map in Hr. destruct Hr as (s & Hs & Hr).
    pose proof (pair_rows_amount w user apiKeys s r Hr) as Hamt.
    unfold pair_rows in Hr. apply in_map_iff in Hr.
    destruct Hr as (t & <- & _).
    repeat split; try assumption.
    cbn. destruct (isBuyerMaker t); [left | right]; reflexivity.
  - intros s k Hf.
    assert (Hin : In (EFetchTrades s k) (pair_calls (snd (serve w req))))
      by (apply filter_In; split; [exact Hf | reflexivity]).
    rewrite Hc in Hin. apply in_flat_map in Hin.
    destruct Hin as (s' & Hs' & [Heq|Hin]).
    + injection Heq as -> ->. split; [reflexivity | exact Hs'].
    + apply in_map_iff in Hin. destruct Hin as (r & Hr & _). discriminate Hr.
Qed.

End Coverage.

(** ** The theorems at work *)

Import Binary64.

(** The sample invocation fetches the exchange info, so it is one of an
    authenticated request. *)
Lemma exchange_called_only_when_authenticated_witness :
  exists user apiKeys,
    authenticated sample_world sample_request user apiKeys.
Proof.
  apply (exchange_called_only_when_authenticated sample_world sample_request
           EFetchExchangeInfo
           (or_intror (or_intror (or_intror (or_intror (or_intror (or_intror
              (or_introl eq_refl)))))))
           eq_refl).
Defined.

Lemma offline_authenticated :
  authenticated offline_world sample_request sample_user sample_keys.
Proof. split; [discriminate|]. exists "Bearer tok". repeat split. Qed.

(** The sample request when the exchange cannot be reached. *)
Lemma exchange_info_failure_gets_500_witness :
  fst (serve offline_world sample_request)
  = {| resp_status := 500; resp_body := BodyError "error sending request" |}.
Proof.
  apply (exchange_info_failure_gets_500 offline_world sample_request
           sample_user sample_keys (Error "error sending request")
           offline_authenticated eq_refl).
Defined.

(** The sample request carries "Bearer tok". *)
Lemma bearer_token_is_authenticated_witness :
  exists rest,
    setup_calls (snd (serve sample_world sample_request))
    = EGetUser "tok" :: rest.
Proof.
  destruct (bearer_token_is_authenticated sample_world sample_request "tok"
              ltac:(discriminate) eq_refl) as (rest & H & _).
  exists rest. exact H.
Defined.

Lemma untimed_authenticated :
  authenticated untimed_world sample_request sample_user sample_keys.
Proof. split; [discriminate|]. exists "Bearer tok". repeat split. Qed.

(** In the world where the second whale trade of BTCUSDT has no time
    value, the first one is upserted and not listed; the third one is
    neither. *)
Lemma untimed_whale_drops_pair_from_response_witness :
  upserts (snd (serve untimed_world sample_request))
  = [ whale_row sample_user "BTCUSDT" big_trade;
      whale_row sample_user "ETHUSDT" eth_trade ]
  /\ fst (serve untimed_world sample_request)
     = {| resp_status := 200; resp_body := BodySuccess true [eth_trade] |}.
Proof.
  destruct (untimed_whale_drops_pair_from_response untimed_world
              sample_request sample_user sample_keys sample_symbols
              [] ["BNBUSDT"; "ETHUSDT"] "BTCUSDT"
              [big_trade; untimed_trade; eth_trade]
              untimed_authenticated eq_refl eq_refl eq_refl eq_refl)
    as (Hu & Hr & _).
  split; [exact Hu | exact Hr].
Defined.

(** The ETHUSDT trade listed by the sample invocation was upserted. *)
Lemma listed_whales_were_upserted_witness :
  is_whale eth_trade = true
  /\ exists s, In s (slice0 10 (usdtPairs sample_symbols))
               /\ In (EUpsert (whale_row sample_user s eth_trade))
                     (snd (serve sample_world sample_request)).
Proof.
  apply (listed_whales_were_upserted sample_world sample_request sample_user
           sample_keys sample_symbols [big_trade; eth_trade] eth_trade
           sample_authenticated eq_refl eq_refl).
  right. left. reflexivity.
Defined.

(** The fetches of the sample invocation carry the key of "u1". *)
Lemma calls_are_for_the_authenticated_user_witness :
  "key" = binance_api_key sample_keys
  /\ In "ETHUSDT" (slice0 10 (usdtPairs sample_symbols)).
Proof.
  destruct (calls_are_for_the_authenticated_user sample_world sample_request
              sample_user sample_keys sample_symbols
              sample_authenticated eq_refl) as (_ & Hf).
  apply (Hf "ETHUSDT" "key"
    (or_intror (or_intror (or_intror (or_intror (or_intror (or_intror
    (or_intror (or_intror (or_intror (or_intror (or_intror (or_intror
    (or_intror (or_introl eq_refl))))))))))))))).
Defined.

End WhaleCoverage.

(* ===================================================================== *)
(** * Further properties of calculateSentiments and processData *)
(* ===================================================================== *)

Module SentimentCoverage.

Import Data Sentiment SentimentFacts.

Lemma count_perm (p : Comment -> bool) (cs ds : list Comment) :
  Permutation cs ds -> count p cs = count p ds.
Proof.
  intros H. induction H as [|c cs ds _ IH|c d cs|cs ds es _ IH1 _ IH2].
  - reflexivity.
  - rewrite !count_cons, IH. reflexivity.
  - rewrite !count_cons. lia.
  - rewrite IH1. exact IH2.
Qed.

Lemma stats_of_videos (vs : list (string * Video)) :
  calculateSentiments (Some {| videos := Some vs |})
  = {| buy := count is_buy (all_comments vs);
       sell := count is_sell (all_comments vs);
       others := count is_other (all_comments vs);
       total := count is_buy (all_comments vs)
                + count is_sell (all_comments vs)
                + count is_other (all_comments vs) |}.
Proof.
  unfold calculateSentiments. cbn [videos].
  rewrite count_videos_spec. reflexivity.
Qed.

(** X8. The four counts do not depend on the order in which the videos
    of the dataset are enumerated. *)
Theorem calculateSentiments_any_order (vs vs' : list (string * Video)) :
  Permutation vs vs' ->
  calculateSentiments (Some {| videos := Some vs |})
  = calculateSentiments (Some {| videos := Some vs' |}).
Proof.
  intros H. rewrite !stats_of_videos.
  assert (Hc : Permutation (all_comments vs) (all_comments vs'))
    by (unfold all_comments; apply Permutation_flat_map; exact H).
  rewrite (count_perm is_buy _ _ Hc), (count_perm is_sell _ _ Hc),
    (count_perm is_other _ _ Hc).
  reflexivity.
Qed.

(** Two videos, enumerated either way. *)
Lemma calculateSentiments_any_order_witness :
  calculateSentiments
    (Some {| videos := Some
         [("a", {| comments := [ {| indicator := "buy" |} ] |});
          ("b", {| comments := [ {| indicator := "sell" |} ] |})] |})
  = calculateSentiments
      (Some {| videos := Some
           [("b", {| comments := [ {| indicator := "sell" |} ] |});
            ("a", {| comments := [ {| indicator := "buy" |} ] |})] |}).
Proof.
  apply calculateSentiments_any_order. apply perm_swap.
Defined.

(** X9. The counts of a dataset are the sums of the counts of its parts:
    for the videos [vs] followed by the videos [vs'], each of buy, sell,
    others and total is the sum of the two. *)
Theorem calculateSentiments_adds_up (vs vs' : list (string * Video)) :
  let whole := calculateSentiments (Some {| videos := Some (vs ++ vs') |}) in
  let one := calculateSentiments (Some {| videos := Some vs |}) in
  let other := calculateSentiments (Some {| videos := Some vs' |}) in
  buy whole = buy one + buy other
  /\ sell whole = sell one + sell other
  /\ others whole = others one + others other
  /\ total whole = total one + total other.
Proof.
  cbn zeta. rewrite !stats_of_videos. cbn [buy sell others total].
  unfold all_comments. rewrite flat_map_app, !count_app.
  repeat split; lia.
Qed.

End SentimentCoverage.

Module TopCoinsCoverage.

Import Data Double DoubleFacts TopCoins TopCoinsWords TopCoinsFacts.

(** ** The ten that are kept *)

Lemma not_below_trans (a b c : Entry) :
  fair a -> fair b -> fair c ->
  not_below a b -> not_below b c -> not_below a c.
Proof.
  intros Ha Hb Hc Hab Hbc.
  apply (not_below_rank a b Ha Hb) in Hab.
  apply (not_below_rank b c Hb Hc) in Hbc.
  apply (not_below_rank a c Ha Hc). lia.
Qed.

Lemma sorted_strongly (l : list Entry) :
  Forall fair l -> Sorted not_below l -> StronglySorted not_below l.
Proof.
  induction l as [|a l IH]; intros Hf Hs; [constructor|].
  inversion Hf as [|? ? Ha Hf']; subst.
  inversion Hs as [|? ? Hs' Hhd]; subst.
  specialize (IH Hf' Hs'). constructor; [exact IH|].
  destruct l as [|b l]; [constructor|].
  inversion Hhd as [|? ? Hab]; subst.
  inversion IH as [|? ? _ Hall]; subst.
  inversion Hf' as [|? ? Hb Hf'']; subst.
  constructor; [exact Hab|].
  rewrite Forall_forall in *. intros c Hc.
  apply (not_below_trans a b c Ha Hb (Hf'' c Hc) Hab (Hall c Hc)).
Qed.

Lemma sort_strongly_sorted (l : list Entry) :
  Forall fair l -> StronglySorted not_below (sort l).
Proof.
  intros Hf. apply sorted_strongly; [apply sort_fair | apply sort_sorted];
    exact Hf.
Qed.

Lemma skipn_in {A : Type} (l : list A) : forall n x,
  In x (skipn n l) -> In x l.
Proof.
  induction l as [|y l IH]; intros [|n] x H; cbn [skipn] in H;
    try assumption.
  right. exact (IH n x H).
Qed.

Lemma kept_before_dropped (l : list Entry) :
  StronglySorted not_below l ->
  forall n x y, In x (firstn n l) -> In y (skipn n l) -> not_below x y.
Proof.
  induction 1 as [|a l Hs IH Hall]; intros n x y Hx Hy.
  - destruct n; destruct Hx.
  - destruct n as [|n]; [destruct Hx|].
    cbn [firstn skipn] in Hx, Hy. destruct Hx as [<-|Hx].
    + rewrite Forall_forall in Hall. apply Hall.
      apply (skipn_in l n y Hy).
    + apply (IH n x y Hx Hy).
Qed.

(** X10. The entries returned are the highest of all coins with comments:
    the entries of all such coins are the returned ones together with
    dropped ones, none of which has a higher percentage than a returned
    one, as the doubles compare; entries are dropped only beyond the
    tenth. *)
Theorem processData_keeps_the_highest (type : SentimentType)
  (entries : list (string * SentimentData)) :
  let shown := processData type (Some entries) in
  exists dropped,
    Permutation (shown ++ dropped) (all_entries type entries)
    /\ List.length shown
       = Nat.min 10 (List.length (all_entries type entries))
    /\ forall e e', In e shown -> In e' dropped -> not_below e e'.
Proof.
  cbn zeta. unfold processData, Js.slice0. fold (all_entries type entries).
  exists (skipn 10 (sort (all_entries type entries))).
  split; [rewrite firstn_skipn; apply sort_perm|].
  split.
  - rewrite length_firstn, (Permutation_length (sort_perm _)). reflexivity.
  - intros e e'. apply kept_before_dropped, sort_strongly_sorted.
    apply collected_fair.
Qed.

(** ** One entry per coin *)

Lemma own_key_fresh {V : Type} (k : string) (v : V) (o : list (string * V)) :
  ~ In k (map fst o) -> own_key k v o = o ++ [(k, v)].
Proof.
  induction o as [|[k' v'] o IH]; intros H; cbn [own_key app]; [reflexivity|].
  destruct (k' =? k) eqn:E.
  - apply String.eqb_eq in E. exfalso. apply H. left. exact E.
  - rewrite IH; [reflexivity|]. intros C. apply H. right. exact C.
Qed.

Lemma set_key_fresh {V : Type} (k : string) (v : V) (o : list (string * V)) :
  ~ In k (map fst o) ->
  set_key k v o = o ++ (if k =? "__proto__" then [] else [(k, v)]).
Proof.
  intros H. unfold set_key. destruct (k =? "__proto__").
  - rewrite app_nil_r. reflexivity.
  - apply own_key_fresh. exact H.
Qed.

Lemma collect_fresh (type : SentimentType) (o : list (string * Tally))
  (entry : string * SentimentData) :
  ~ In (fst entry) (map fst o) ->
  collect type o entry = o ++ kept type entry.
Proof.
  intros H. destruct entry as [k d]. unfold collect, kept. cbn [fst snd] in *.
  destruct (videos d) as [vs|]; [|rewrite app_nil_r; reflexivity].
  destruct (0 <? t_total (tally_coin type vs))%nat;
    [apply set_key_fresh; exact H | rewrite app_nil_r; reflexivity].
Qed.

Lemma kept_keys (type : SentimentType) (entry : string * SentimentData) :
  forall k, In k (map fst (kept type entry)) -> k = fst entry.
Proof.
  intros k. unfold kept. destruct (videos (snd entry)) as [vs|]; [|intros []].
  destruct (0 <? t_total (tally_coin type vs))%nat; [|intros []].
  destruct (fst entry =? "__proto__"); [intros []|].
  intros [<-|[]]. reflexivity.
Qed.

Lemma collect_distinct (type : SentimentType)
  (entries : list (string * SentimentData)) :
  forall o : list (string * Tally),
    NoDup (map fst entries) ->
    (forall k, In k (map fst o) -> ~ In k (map fst entries)) ->
    fold_left (collect type) entries o = o ++ flat_map (kept type) entries.
Proof.
  induction entries as [|entry entries IH]; intros o Hd Ho;
    cbn [fold_left flat_map map] in *.
  - rewrite app_nil_r. reflexivity.
  - inversion Hd as [|? ? Hnot Hd']; subst.
    rewrite collect_fresh
      by (intros C; apply (Ho _ C); left; reflexivity).
    rewrite IH; [rewrite <- app_assoc; reflexivity | exact Hd' |].
    intros k Hk. rewrite map_app, in_app_iff in Hk.
    destruct Hk as [Hk|Hk].
    + intros C. apply (Ho _ Hk). right. exact C.
    + apply kept_keys in Hk. subst k. exact Hnot.
Qed.

Lemma kept_listed (type : SentimentType)
  (entry : string * SentimentData) :
  kept type entry
  = if listed entry
    then match videos (snd entry) with
         | Some vs => [(fst entry, tally_coin type vs)]
         | None => []
         end
    else [].
Proof.
  unfold kept, listed, has_comments.
  destruct (videos (snd entry)) as [vs|]; [|reflexivity].
  destruct (tally_coin_spec type vs) as [-> _].
  destruct (0 <? List.length (all_comments vs))%nat; [|reflexivity].
  destruct (fst entry =? "__proto__"); reflexivity.
Qed.

Lemma length_kept (type : SentimentType)
  (entries : list (string * SentimentData)) :
  List.length (flat_map (kept type) entries)
  = List.length (filter listed entries).
Proof.
  induction entries as [|entry entries IH]; cbn [flat_map filter];
    [reflexivity|].
  rewrite length_app, IH, kept_listed.
  destruct (listed entry) eqn:E; [|reflexivity].
  unfold listed, has_comments in E.
  destruct (videos (snd entry)); [|discriminate E].
  reflexivity.
Qed.

(** X11. The data is an object, so its coin names are distinct. A coin
    gets an entry when it has a comment and its name is not "__proto__",
    a name whose assignment makes no key of an object. Then the entries
    returned are as many as such coins, up to ten; and when at most ten
    coins are such, each of them has its entry. *)
Theorem processData_one_entry_per_coin (type : SentimentType)
  (entries : list (string * SentimentData)) :
  NoDup (map fst entries) ->
  List.length (processData type (Some entries))
  = Nat.min 10 (List.length (filter listed entries))
  /\ (List.length (filter listed entries) <= 10 ->
      forall entry, In entry entries -> listed entry = true ->
        exists e, In e (processData type (Some entries))
                  /\ coin e = label (fst entry)).
Proof.
  intros Hd.
  assert (Hall : fold_left (collect type) entries []
                 = flat_map (kept type) entries)
    by (apply (collect_distinct type entries [] Hd); intros k []).
  unfold processData, Js.slice0. rewrite Hall. split.
  - rewrite length_firstn, (Permutation_length (sort_perm _)), length_map,
      length_kept. reflexivity.
  - intros Hten entry Hin Hc.
    rewrite firstn_all2
      by (rewrite (Permutation_length (sort_perm _)), length_map, length_kept;
          exact Hten).
    assert (Hk : exists t, In (fst entry, t) (flat_map (kept type) entries)).
    { pose proof (kept_listed type entry) as K. rewrite Hc in K.
      unfold listed, has_comments in Hc.
      destruct (videos (snd entry)) as [vs|]; [|discriminate Hc].
      exists (tally_coin type vs). apply in_flat_map. exists entry.
      split; [exact Hin|]. rewrite K. left. reflexivity. }
    destruct Hk as (t & Hk). exists (to_entry (fst entry, t)).
    split; [|reflexivity].
    apply (Permutation_in _ (Permutation_sym (sort_perm _))).
    apply in_map. exact Hk.
Qed.

Lemma twelve_coins_distinct : NoDup (map fst twelve_coins).
Proof.
  cbn [twelve_coins map fst].
  repeat (constructor;
          [cbn [In]; intros C;
           repeat (destruct C as [C|C]; [discriminate C|]); exact C|]).
  constructor.
Qed.

(** Of twelve coins with one comment each, ten are returned. *)
Lemma processData_one_entry_per_coin_witness :
  List.length (processData Buy (Some twelve_coins)) = 10.
Proof.
  apply (processData_one_entry_per_coin Buy twelve_coins
           twelve_coins_distinct).
Defined.

(** A coin named "__proto__" gets no entry, whatever its comments. *)
Example processData_proto :
  processData Buy (Some [("__proto__", one_comment "buy");
                         ("BTC", one_comment "buy")])
  = [ {| coin := "BTC"; percentage := 100%float; count := 1 |} ].
Proof. vm_compute. reflexivity. Qed.

(** ** Labels *)

Lemma length_append (s t : string) :
  String.length (s ++ t)%string = String.length s + String.length t.
Proof.
  induction s as [|c s IH]; cbn [append String.length]; [reflexivity|].
  rewrite IH. reflexivity.
Qed.

Lemma length_substring (s : string) : forall n,
  n <= String.length s -> String.length (substring 0 n s) = n.
Proof.
  induction s as [|c s IH]; intros [|n] H; cbn [substring String.length] in *;
    try reflexivity; try lia.
  rewrite IH; [reflexivity | lia].
Qed.

Lemma substring_append (p s : string) :
  substring 0 (String.length p) (p ++ s)%string = p.
Proof.
  induction p as [|c p IH]; cbn [append String.length substring].
  - destruct s; reflexivity.
  - rewrite IH. reflexivity.
Qed.

Lemma label_cases (k : string) :
  (String.length k <= 20 /\ label k = k)
  \/ (20 < String.length k
      /\ label k = (substring 0 20 k ++ "...")%string
      /\ String.length (label k) = 23).
Proof.
  unfold label. destruct (20 <? String.length k)%nat eqn:E.
  - apply Nat.ltb_lt in E. right. split; [exact E|]. split; [reflexivity|].
    rewrite length_append, length_substring by lia. reflexivity.
  - apply Nat.ltb_ge in E. left. split; [exact E | reflexivity].
Qed.


(** X13. Two coin names longer than 20 characters that agree on their
    first 20 characters get the same label. *)
Theorem long_names_share_a_label (p a b : string) :
  String.length p = 20 -> a <> "" -> b <> "" ->
  label (p ++ a)%string = label (p ++ b)%string.
Proof.
  intros Hp Ha Hb. unfold label. rewrite !length_append, Hp.
  assert (La : (20 <? 20 + String.length a)%nat = true)
    by (apply Nat.ltb_lt; destruct a; [contradiction | cbn; lia]).
  assert (Lb : (20 <? 20 + String.length b)%nat = true)
    by (apply Nat.ltb_lt; destruct b; [contradiction | cbn; lia]).
  rewrite La, Lb, <- Hp, !substring_append. reflexivity.
Qed.

Lemma long_names_share_a_label_witness :
  label "12345678901234567890-USDT" = label "12345678901234567890-BUSD".
Proof.
  apply (long_names_share_a_label "12345678901234567890" "-USDT" "-BUSD");
    [reflexivity | discriminate | discriminate].
Defined.

End TopCoinsCoverage.

(* ===================================================================== *)
(** * Further properties of the handlers of TradingSuggestions *)
(* ===================================================================== *)

Module TradingCoverage.

Import Js Trading TradingWords TradingFacts.

(** ** Creating a trade view, in every case *)

Lemma create_failed_fields (e : thrown) (st : State) :
  trade_views (create_failed e st) = trade_views st
  /\ tradeView (create_failed e st) = tradeView st
  /\ started (create_failed e st) = started st
  /\ isTradeNameDialogOpen (create_failed e st) = isTradeNameDialogOpen st
  /\ coin_indicators (create_failed e st) = coin_indicators st
  /\ error_notified st (create_failed e st).
Proof.
  unfold create_failed, error_notified. cbn. repeat split.
  eexists. repeat split.
Qed.

Lemma views_named_none (user_id name : string) (st : State) :
  views_named user_id name (trade_views st) = [] ->
  ~ name_taken user_id name st.
Proof.
  intros Hv (r & Hin & Hu & Hn).
  assert (H : In r (views_named user_id name (trade_views st)))
    by (apply views_named_in; auto).
  rewrite Hv in H. destruct H.
Qed.

(** X14. A call of handleCreateTradeView either changes nothing but the
    notifications and the console, ending in an error notification, with
    the dialog and [started] as they were; or the user is signed in and
    had no view of that name, one row is added to [trade_views], the trade
    view state has its id, index 0 and the coin list, the analysis is
    started, the dialog is closed and "Analysis Started" is shown. *)
Theorem handleCreateTradeView_all_or_nothing (hookCoins : list Coin)
  (a : CreateAnswers) (name : string) (st : State) :
  let st' := handleCreateTradeView hookCoins a name st in
  (trade_views st' = trade_views st
   /\ tradeView st' = tradeView st
   /\ started st' = started st
   /\ isTradeNameDialogOpen st' = isTradeNameDialogOpen st
   /\ coin_indicators st' = coin_indicators st
   /\ error_notified st st')
  \/ (exists user_id,
        session_user a = Some user_id
        /\ ~ name_taken user_id name st
        /\ trade_views st'
           = trade_views st ++ [ {| tv_id := new_id a;
                                    tv_name := name;
                                    tv_user_id := user_id;
                                    tv_status := "active" |} ]
        /\ tradeView st' = {| id := Some (new_id a);
                              currentIndex := 0;
                              coins := hookCoins |}
        /\ started st' = true
        /\ isTradeNameDialogOpen st' = false
        /\ coin_indicators st' = coin_indicators st
        /\ toasts st'
           = toasts st
             ++ [ {| title := "Analysis Started";
                     description :=
                       "Analyzing coins for trading suggestions...";
                     destructive := false |} ]).
Proof.
  cbn zeta. unfold handleCreateTradeView.
  destruct (sessionError a) as [e|]; [left; apply create_failed_fields|].
  destruct (session_user a) as [user_id|].
  2:{ left. unfold error_notified. cbn. repeat split. eexists. repeat split. }
  destruct (checkFailure a) as [e|]; [left; apply create_failed_fields|].
  destruct (views_named user_id name (trade_views st)) as [|r1 [|r2 l]] eqn:Hv;
    cbn [maybeSingle].
  - destruct (insertFailure a) as [e|]; [left; apply create_failed_fields|].
    right. exists user_id. split; [reflexivity|].
    split; [apply views_named_none; exact Hv|].
    cbn. repeat split.
  - left. unfold error_notified. cbn. repeat split. eexists. repeat split.
  - left. apply create_failed_fields.
Qed.

(** ** No second view of a name *)

Lemma names_of_app (user_id : string) (l l' : list TradeView) :
  names_of user_id (l ++ l') = names_of user_id l ++ names_of user_id l'.
Proof. unfold names_of. rewrite filter_app, map_app. reflexivity. Qed.

Lemma name_taken_names (user_id name : string) (st : State) :
  In name (names_of user_id (trade_views st)) -> name_taken user_id name st.
Proof.
  unfold names_of. intros H. apply in_map_iff in H.
  destruct H as (r & Hn & Hin). apply filter_In in Hin.
  destruct Hin as [Hin Hu]. apply String.eqb_eq in Hu.
  exists r. auto.
Qed.

Lemma create_keeps_names (hookCoins : list Coin) (a : CreateAnswers)
  (name : string) (st : State) (u : string) :
  NoDup (names_of u (trade_views st)) ->
  NoDup (names_of u
           (trade_views (handleCreateTradeView hookCoins a name st))).
Proof.
  intros H.
  assert (Hkeep : forall st', trade_views st' = trade_views st ->
                              NoDup (names_of u (trade_views st')))
    by (intros st' E; rewrite E; exact H).
  unfold handleCreateTradeView.
  destruct (sessionError a) as [e|]; [apply Hkeep; reflexivity|].
  destruct (session_user a) as [user_id|]; [|apply Hkeep; reflexivity].
  destruct (checkFailure a) as [e|]; [apply Hkeep; reflexivity|].
  destruct (views_named user_id name (trade_views st)) as [|r1 [|r2 l]] eqn:Hv;
    cbn [maybeSingle]; try (apply Hkeep; reflexivity).
  destruct (insertFailure a) as [e|]; [apply Hkeep; reflexivity|].
  cbn [trade_views toast setIsTradeNameDialogOpen setStarted setTradeView
       store_trade_view].
  rewrite names_of_app. unfold names_of at 2. cbn [filter tv_user_id].
  destruct (user_id =? u) eqn:E; cbn [map tv_name];
    [|rewrite app_nil_r; exact H].
  apply String.eqb_eq in E. subst u.
  apply NoDup_incl_NoDup with (l := name :: names_of user_id (trade_views st)).
  - constructor; [|exact H].
    intros C. apply (views_named_none _ _ _ Hv).
    apply name_taken_names. exact C.
  - rewrite length_app. cbn [List.length]. lia.
  - intros x [<-|Hx]; apply in_or_app;
      [right; left; reflexivity | left; exact Hx].
Qed.

Lemma awaited_insert_views (a : InsertAnswer) (row : CoinIndicator)
  (st : State) : trade_views (awaited_insert a row st) = trade_views st.
Proof. destruct a; reflexivity. Qed.

Lemma next_settled_views (hookCoins : list Coin) (view : TradeViewState)
  (a : InsertAnswer) (st : State) :
  trade_views (next_settled hookCoins view a st) = trade_views st.
Proof.
  unfold next_settled.
  destruct (Z.of_nat (currentIndex view)
            <? Z.of_nat (List.length hookCoins) - 1)%Z;
    destruct a; reflexivity.
Qed.

Lemma buy_settled_views (sym : string) (a : InsertAnswer) (st : State) :
  trade_views (buy_settled sym a st) = trade_views st.
Proof. destruct a; reflexivity. Qed.

Lemma handleNext_views (hookCoins : list Coin) (view : TradeViewState)
  (a : InsertAnswer) (st : State) :
  trade_views (handleNext hookCoins view a st) = trade_views st.
Proof.
  unfold handleNext. destruct (guarded_row hookCoins view None);
    [|reflexivity].
  rewrite next_settled_views. apply awaited_insert_views.
Qed.

Lemma handleBuy_views (hookCoins : list Coin) (view : TradeViewState)
  (a1 a2 : InsertAnswer) (st : State) :
  trade_views (handleBuy hookCoins view a1 a2 st) = trade_views st.
Proof.
  unfold handleBuy. destruct (guarded_row hookCoins view (Some "buy"));
    [|reflexivity].
  destruct a1; rewrite ?handleNext_views, buy_settled_views;
    apply awaited_insert_views.
Qed.

(** X15. When the calls run one after the other, no user gets two trade
    views of the same name: if the names of each user's views are distinct
    before, they are distinct after any number of calls. *)
Theorem names_stay_distinct (hookCoins : list Coin) (acts : list action)
  (st : State) :
  (forall u, NoDup (names_of u (trade_views st))) ->
  forall u, NoDup (names_of u (trade_views (run hookCoins acts st))).
Proof.
  unfold run. revert st.
  induction acts as [|act acts IH]; intros st H u; cbn [fold_left];
    [apply H|].
  apply IH. intros u'. destruct act as [a name|a|a1 a2]; cbn [step].
  - apply create_keeps_names. apply H.
  - rewrite handleNext_views. apply H.
  - rewrite handleBuy_views. apply H.
Qed.

(** "u1" asks for "swing" twice and once for "scalps", which is there. *)
Lemma names_stay_distinct_witness :
  NoDup (names_of "u1"
           (trade_views
              (run sample_coins
                 [Create sample_answers "swing"; Create sample_answers "swing";
                  Create sample_answers "scalps"]
                 sample_state))).
Proof.
  apply (names_stay_distinct sample_coins
           [Create sample_answers "swing"; Create sample_answers "swing";
            Create sample_answers "scalps"] sample_state).
  intros u. unfold names_of. cbn [sample_state mounted trade_views filter
    tv_user_id]. destruct ("u1" =? u); cbn [map]; repeat constructor;
    intros [].
Defined.

(** ** The rows written refer to views created here *)

Lemma good_view_more (created more : list TradeView) (view : TradeViewState) :
  good_view created view -> good_view (created ++ more) view.
Proof.
  intros H i Hi. destruct (H i Hi) as (v & Hin & Hv).
  exists v. split; [apply in_or_app; left; exact Hin | exact Hv].
Qed.

Lemma good_row_more (hookCoins : list Coin) (created more : list TradeView)
  (row : CoinIndicator) :
  good_row hookCoins created row -> good_row hookCoins (created ++ more) row.
Proof.
  intros [(v & Hin & Hv) Hc]. split; [|exact Hc].
  exists v. split; [apply in_or_app; left; exact Hin | exact Hv].
Qed.

Lemma good_waiting_more (hookCoins : list Coin) (created more : list TradeView)
  (w : inflight) :
  good_waiting hookCoins created w ->
  good_waiting hookCoins (created ++ more) w.
Proof.
  destruct w as [view row|view row]; intros [Hv Hr];
    (split; [apply good_view_more; exact Hv | apply good_row_more; exact Hr]).
Qed.

Lemma guarded_row_good (hookCoins : list Coin) (created : list TradeView)
  (view : TradeViewState) (response : option string) (row : CoinIndicator) :
  good_view created view ->
  guarded_row hookCoins view response = Some row ->
  good_row hookCoins created row.
Proof.
  unfold guarded_row, currentCoin. intros Hv H.
  destruct (id view) as [view_id|] eqn:Hid; [|discriminate H].
  destruct (nth_error hookCoins (currentIndex view)) as [c|] eqn:Hc;
    [|discriminate H].
  destruct (truthy view_id); [|discriminate H].
  injection H as <-. split.
  - destruct (Hv view_id Hid) as (v & Hin & Hid').
    exists v. split; [exact Hin | exact Hid'].
  - exists c. split; [apply (nth_error_In _ _ Hc)|]. repeat split.
Qed.

Lemma remove_nth_Forall {A : Type} (P : A -> Prop) (l : list A) : forall n,
  Forall P l -> Forall P (remove_nth n l).
Proof.
  induction l as [|x l IH]; intros [|n] H; cbn [remove_nth];
    try constructor; inversion H; subst; auto.
Qed.

Lemma next_settled_fields (hookCoins : list Coin) (view : TradeViewState)
  (a : InsertAnswer) (st : State) :
  let st' := next_settled hookCoins view a st in
  trade_views st' = trade_views st
  /\ coin_indicators st' = coin_indicators st
  /\ id (tradeView st') = id (tradeView st).
Proof.
  cbn zeta. unfold next_settled.
  destruct (Z.of_nat (currentIndex view)
            <? Z.of_nat (List.length hookCoins) - 1)%Z;
    destruct a; repeat split.
Qed.

Lemma buy_settled_fields (sym : string) (a : InsertAnswer) (st : State) :
  let st' := buy_settled sym a st in
  trade_views st' = trade_views st
  /\ coin_indicators st' = coin_indicators st
  /\ tradeView st' = tradeView st.
Proof. destruct a; repeat split. Qed.

(** Awaiting the insert of a good row. *)
Lemma awaited_insert_kept (hookCoins : list Coin) (views : list TradeView)
  (rows : list CoinIndicator) (created : list TradeView)
  (added : list CoinIndicator) (a : InsertAnswer) (row : CoinIndicator)
  (st : State) :
  trade_views st = views ++ created ->
  coin_indicators st = rows ++ added ->
  Forall (good_row hookCoins created) added ->
  good_row hookCoins created row ->
  exists added',
    trade_views (awaited_insert a row st) = views ++ created
    /\ coin_indicators (awaited_insert a row st) = rows ++ added'
    /\ tradeView (awaited_insert a row st) = tradeView st
    /\ Forall (good_row hookCoins created) added'.
Proof.
  intros Hv Hr Ha Hg. destruct a; cbn [awaited_insert].
  - exists (added ++ [row]). cbn. rewrite Hr, app_assoc.
    repeat split; [exact Hv|]. apply Forall_app. split; [exact Ha|].
    constructor; [exact Hg | constructor].
  - exists added. auto.
  - exists added. auto.
Qed.

Lemma good_view_id (created : list TradeView) (view view' : TradeViewState) :
  id view' = id view -> good_view created view -> good_view created view'.
Proof. unfold good_view. intros E H i Hi. rewrite E in Hi. exact (H i Hi). Qed.

Lemma create_outcome (hookCoins : list Coin) (a : CreateAnswers)
  (name : string) (st : State) :
  let st' := handleCreateTradeView hookCoins a name st in
  coin_indicators st' = coin_indicators st
  /\ ((trade_views st' = trade_views st /\ tradeView st' = tradeView st)
      \/ exists row,
           tv_id row = new_id a
           /\ trade_views st' = trade_views st ++ [row]
           /\ id (tradeView st') = Some (new_id a)).
Proof.
  cbn zeta. unfold handleCreateTradeView.
  assert (Hkeep : forall st' : State,
            coin_indicators st' = coin_indicators st ->
            trade_views st' = trade_views st ->
            tradeView st' = tradeView st ->
            coin_indicators st' = coin_indicators st
            /\ ((trade_views st' = trade_views st
                 /\ tradeView st' = tradeView st)
                \/ exists row,
                     tv_id row = new_id a
                     /\ trade_views st' = trade_views st ++ [row]
                     /\ id (tradeView st') = Some (new_id a)))
    by (intros st' E1 E2 E3; split; [exact E1 | left; split; assumption]).
  destruct (sessionError a); [apply Hkeep; reflexivity|].
  destruct (session_user a) as [user_id|]; [|apply Hkeep; reflexivity].
  destruct (checkFailure a); [apply Hkeep; reflexivity|].
  destruct (maybeSingle _) as [e|[r|]]; try (apply Hkeep; reflexivity).
  destruct (insertFailure a); [apply Hkeep; reflexivity|].
  split; [reflexivity|]. right.
  exists {| tv_id := new_id a; tv_name := name; tv_user_id := user_id;
            tv_status := "active" |}.
  repeat split.
Qed.

Lemma react_kept_up (hookCoins : list Coin) (views : list TradeView)
  (rows : list CoinIndicator) (r : Running) (e : event) :
  (exists created added, kept_up hookCoins views rows created added r) ->
  exists created added,
    kept_up hookCoins views rows created added (react hookCoins r e).
Proof.
  intros (created & added & Hv & Hr & Hg & Hw & Ha).
  destruct e as [| |n a|a name]; cbn [react].
  - destruct (guarded_row hookCoins (tradeView (state r)) None) as [row|] eqn:G.
    + exists created, added. unfold kept_up. cbn [state waiting].
      repeat split; try assumption.
      apply Forall_app. split; [exact Hw|].
      constructor; [|constructor]. split; [exact Hg|].
      apply (guarded_row_good _ _ _ _ _ Hg G).
    + exists created, added. unfold kept_up. auto.
  - destruct (guarded_row hookCoins (tradeView (state r)) (Some "buy"))
      as [row|] eqn:G.
    + exists created, added. unfold kept_up. cbn [state waiting].
      repeat split; try assumption.
      apply Forall_app. split; [exact Hw|].
      constructor; [|constructor]. split; [exact Hg|].
      apply (guarded_row_good _ _ _ _ _ Hg G).
    + exists created, added. unfold kept_up. auto.
  - destruct (nth_error (waiting r) n) as [w|] eqn:Hn.
    2:{ exists created, added. unfold kept_up. auto. }
    assert (Hgw : good_waiting hookCoins created w).
    { rewrite Forall_forall in Hw. apply Hw. apply (nth_error_In _ _ Hn). }
    destruct w as [view row|view row]; destruct Hgw as [Hgv Hgr];
      destruct (awaited_insert_kept hookCoins views rows created added a row
                  (state r) Hv Hr Ha Hgr) as (added' & Hv' & Hr' & Ht' & Ha').
    + exists created, added'. unfold kept_up. cbn [state waiting].
      destruct (next_settled_fields hookCoins view a
                  (awaited_insert a row (state r))) as (E1 & E2 & E3).
      rewrite E1, E2. repeat split; try assumption.
      * apply (good_view_id created (tradeView (state r))); [|exact Hg].
        rewrite E3, Ht'. reflexivity.
      * apply remove_nth_Forall. exact Hw.
    + exists created, added'. unfold kept_up. cbn [state waiting].
      destruct (buy_settled_fields (coin_symbol row) a
                  (awaited_insert a row (state r))) as (E1 & E2 & E3).
      rewrite E1, E2, E3, Ht'. repeat split; try assumption.
      apply Forall_app. split; [apply remove_nth_Forall; exact Hw|].
      destruct (guarded_row hookCoins view None) as [row'|] eqn:G;
        destruct a; try (constructor; fail);
        (constructor;
         [split; [exact Hgv | apply (guarded_row_good _ _ _ _ _ Hgv G)]
         | constructor]).
  - destruct (create_outcome hookCoins a name (state r))
      as (Ec & [(E1 & E2)|(row & Hid & E1 & E2)]).
    + exists created, added. unfold kept_up. cbn [state waiting].
      rewrite E1, E2, Ec. auto.
    + exists (created ++ [row]), added. unfold kept_up. cbn [state waiting].
      rewrite E1, Ec, Hv, <- app_assoc. repeat split; try assumption.
      * intros i Hi. rewrite E2 in Hi. injection Hi as <-.
        exists row. split; [apply in_or_app; right; left; reflexivity|].
        exact Hid.
      * apply (Forall_impl _ (good_waiting_more hookCoins created [row]) Hw).
      * apply (Forall_impl _ (good_row_more hookCoins created [row]) Ha).
Qed.

Lemma play_kept_up (hookCoins : list Coin) (views : list TradeView)
  (rows : list CoinIndicator) (es : list event) :
  forall r,
    (exists created added, kept_up hookCoins views rows created added r) ->
    exists created added,
      kept_up hookCoins views rows created added (play hookCoins es r).
Proof.
  unfold play. induction es as [|e es IH]; intros r H; cbn [fold_left];
    [exact H|].
  apply IH. apply react_kept_up. exact H.
Qed.

(** X16. However clicks and settling inserts interleave, over a coin
    list that stays the same: the tables only grow, and every row added to
    [coin_indicators] carries the fields of a coin of the list and the id
    of a trade view that this component created since it was mounted. *)
Theorem rows_refer_to_views_created_here (hookCoins : list Coin)
  (views : list TradeView) (rows : list CoinIndicator) (es : list event) :
  let r := play hookCoins es {| state := mounted views rows; waiting := [] |} in
  exists created added,
    trade_views (state r) = views ++ created
    /\ coin_indicators (state r) = rows ++ added
    /\ forall row, In row added ->
         refers_to created row /\ row_of_coin hookCoins row.
Proof.
  cbn zeta.
  destruct (play_kept_up hookCoins views rows es
              {| state := mounted views rows; waiting := [] |})
    as (created & added & Hv & Hr & _ & _ & Ha).
  - exists [], []. unfold kept_up. cbn. rewrite !app_nil_r.
    repeat split; try constructor. intros i Hi. discriminate Hi.
  - exists created, added. split; [exact Hv|]. split; [exact Hr|].
    rewrite Forall_forall in Ha. exact Ha.
Qed.

(** ** Through the coins, one Next after the other *)

(** A call of handleNext whose guard passes and whose insert is stored. *)
Lemma handleNext_stored (hookCoins : list Coin) (st : State)
  (view_id : string) (c : Coin) :
  id (tradeView st) = Some view_id ->
  truthy view_id = true ->
  currentCoin hookCoins (tradeView st) = Some c ->
  let st' := handleNext hookCoins (tradeView st) Stored st in
  coin_indicators st'
  = coin_indicators st ++ [indicator_row view_id c None]
  /\ id (tradeView st') = Some view_id
  /\ ((currentIndex (tradeView st) + 1 < List.length hookCoins
       /\ currentIndex (tradeView st') = currentIndex (tradeView st) + 1
       /\ toasts st' = toasts st)
      \/ (currentIndex (tradeView st) + 1 = List.length hookCoins
          /\ tradeView st' = tradeView st
          /\ toasts st' = toasts st ++ [analysis_complete])).
Proof.
  intros Hid Ht Hc. cbn zeta. unfold handleNext, guarded_row.
  rewrite Hid, Hc, Ht. unfold next_settled.
  assert (Hlt : currentIndex (tradeView st) < List.length hookCoins)
    by (apply nth_error_Some; unfold currentCoin in Hc; rewrite Hc;
        discriminate).
  destruct (Z.of_nat (currentIndex (tradeView st))
            <? Z.of_nat (List.length hookCoins) - 1)%Z eqn:E.
  - apply Z.ltb_lt in E. cbn. rewrite Hid. repeat split.
    left. repeat split. lia.
  - apply Z.ltb_ge in E. cbn. rewrite Hid. repeat split.
    right. repeat split. lia.
Qed.

Lemma skipn_nth_error {A : Type} (l : list A) : forall i x,
  nth_error l i = Some x -> skipn i l = x :: skipn (S i) l.
Proof.
  induction l as [|y l IH]; intros [|i] x H; cbn [nth_error] in H;
    try discriminate H.
  - injection H as <-. reflexivity.
  - cbn [skipn]. rewrite (IH i x H). reflexivity.
Qed.

Lemma next_from (hookCoins : list Coin) (view_id : string) : forall k st,
  id (tradeView st) = Some view_id ->
  truthy view_id = true ->
  currentIndex (tradeView st) + S k = List.length hookCoins ->
  let st' := run hookCoins (repeat (Next Stored) (S k)) st in
  coin_indicators st'
  = coin_indicators st
    ++ map (fun c => indicator_row view_id c None)
         (skipn (currentIndex (tradeView st)) hookCoins)
  /\ currentIndex (tradeView st') = List.length hookCoins - 1
  /\ toasts st' = toasts st ++ [analysis_complete].
Proof.
  induction k as [|k IH]; intros st Hid Ht Hk; cbn zeta.
  - destruct (nth_error hookCoins (currentIndex (tradeView st))) as [c|] eqn:Hc;
      [|apply nth_error_None in Hc; lia].
    destruct (handleNext_stored hookCoins st view_id c Hid Ht Hc)
      as (Hr & _ & [(Hlt & _)|(_ & Hv & Hto)]); [lia|].
    cbn [repeat run fold_left step].
    rewrite Hr, Hv, Hto, (skipn_nth_error _ _ _ Hc).
    replace (S (currentIndex (tradeView st))) with (List.length hookCoins)
      by lia.
    rewrite skipn_all. cbn [map]. repeat split. lia.
  - destruct (nth_error hookCoins (currentIndex (tradeView st))) as [c|] eqn:Hc;
      [|apply nth_error_None in Hc; lia].
    destruct (handleNext_stored hookCoins st view_id c Hid Ht Hc)
      as (Hr & Hid' & [(Hlt & Hi & Hto)|(Heq & _)]); [|lia].
    change (run hookCoins (repeat (Next Stored) (S (S k))) st)
      with (run hookCoins (repeat (Next Stored) (S k))
              (handleNext hookCoins (tradeView st) Stored st)).
    destruct (IH (handleNext hookCoins (tradeView st) Stored st) Hid' Ht)
      as (Hr' & Hi' & Hto'); [lia|].
    rewrite Hr', Hi', Hto', Hr, Hi, Hto, (skipn_nth_error _ _ _ Hc),
      <- app_assoc.
    replace (currentIndex (tradeView st) + 1)
      with (S (currentIndex (tradeView st))) by lia.
    repeat split.
Qed.

(** X17. From index 0 of a started analysis, as many Next steps as
    there are coins, each run to its end with its insert stored, write one
    row per coin, in the order of the list and without a user response;
    the index ends on the last coin and "Analysis Complete" is shown once,
    by the last step. *)
Theorem next_through_all_coins (hookCoins : list Coin) (st : State)
  (view_id : string) :
  id (tradeView st) = Some view_id ->
  truthy view_id = true ->
  currentIndex (tradeView st) = 0 ->
  hookCoins <> [] ->
  let st' :=
    run hookCoins (repeat (Next Stored) (List.length hookCoins)) st in
  coin_indicators st'
  = coin_indicators st ++ map (fun c => indicator_row view_id c None) hookCoins
  /\ currentIndex (tradeView st') = List.length hookCoins - 1
  /\ toasts st' = toasts st ++ [analysis_complete].
Proof.
  intros Hid Ht H0 Hne. cbn zeta.
  destruct (List.length hookCoins) as [|k] eqn:Hlen;
    [apply length_zero_iff_nil in Hlen; contradiction|].
  destruct (next_from hookCoins view_id k st Hid Ht) as (Hr & Hi & Hto);
    [lia|].
  rewrite H0 in Hr. cbn [skipn] in Hr. rewrite Hlen in Hi.
  split; [exact Hr|]. split; [exact Hi | exact Hto].
Qed.

(** The two sample coins. *)
Lemma next_through_all_coins_witness :
  coin_indicators
    (run sample_coins [Next Stored; Next Stored] sample_started)
  = [ {| trade_view_id := "view-2"; coin_symbol := "BTCUSDT";
         sentiment := "buy"; ci_indicators := "rsi";
         user_response := None |};
      {| trade_view_id := "view-2"; coin_symbol := "ETHUSDT";
         sentiment := "sell"; ci_indicators := "macd";
         user_response := None |} ].
Proof.
  apply (next_through_all_coins sample_coins sample_started "view-2"
           eq_refl eq_refl eq_refl).
  discriminate.
Defined.

(** X18. At the last coin the index stays where it is: every further
    Next step whose insert is stored writes one more row for the last
    coin and shows "Analysis Complete" once more. *)
Theorem next_at_last_coin_repeats (hookCoins : list Coin) (view_id : string)
  (c : Coin) (n : nat) (st : State) :
  id (tradeView st) = Some view_id ->
  truthy view_id = true ->
  currentCoin hookCoins (tradeView st) = Some c ->
  currentIndex (tradeView st) + 1 = List.length hookCoins ->
  let st' := run hookCoins (repeat (Next Stored) n) st in
  coin_indicators st'
  = coin_indicators st ++ repeat (indicator_row view_id c None) n
  /\ tradeView st' = tradeView st
  /\ toasts st' = toasts st ++ repeat analysis_complete n.
Proof.
  revert st. induction n as [|n IH]; intros st Hid Ht Hc Hlast; cbn zeta.
  - cbn [repeat run fold_left]. rewrite !app_nil_r. repeat split.
  - destruct (handleNext_stored hookCoins st view_id c Hid Ht Hc)
      as (Hr & _ & [(Hlt & _)|(_ & Hv & Hto)]); [lia|].
    change (run hookCoins (repeat (Next Stored) (S n)) st)
      with (run hookCoins (repeat (Next Stored) n)
              (handleNext hookCoins (tradeView st) Stored st)).
    destruct (IH (handleNext hookCoins (tradeView st) Stored st))
      as (Hr' & Hv' & Hto'); try (rewrite ?Hv; assumption).
    rewrite Hr', Hv', Hto', Hr, Hv, Hto, <- !app_assoc. repeat split.
Qed.

(** Three more Next steps on the second of the two sample coins. *)
Lemma next_at_last_coin_repeats_witness :
  currentIndex
    (tradeView
       (run sample_coins (repeat (Next Stored) 3)
          (run sample_coins [Next Stored] sample_started))) = 1
  /\ List.length
       (coin_indicators
          (run sample_coins (repeat (Next Stored) 3)
             (run sample_coins [Next Stored] sample_started))) = 4.
Proof.
  destruct (next_at_last_coin_repeats sample_coins "view-2"
              {| symbol := "ETHUSDT"; strategy := "sell";
                 indicators := "macd" |} 3
              (run sample_coins [Next Stored] sample_started)
              eq_refl eq_refl eq_refl eq_refl) as (Hr & Hv & _).
  rewrite Hr, Hv. split; reflexivity.
Defined.

(** ** An insert the backend refuses *)

(** X19. The answer of the backend to an insert is not read. When it
    refuses the buy row, handleBuy still shows "Trade Recorded" and goes
    on as a plain Next step: what is written and where the index goes are
    those of handleNext, so no row with the response 'buy' is stored. *)
Theorem refused_buy_is_reported_recorded (hookCoins : list Coin) (st : State)
  (view_id : string) (c : Coin) (a2 : InsertAnswer) :
  id (tradeView st) = Some view_id ->
  truthy view_id = true ->
  currentCoin hookCoins (tradeView st) = Some c ->
  let st' := handleBuy hookCoins (tradeView st) Refused a2 st in
  let next := handleNext hookCoins (tradeView st) a2 st in
  coin_indicators st' = coin_indicators next
  /\ tradeView st' = tradeView next
  /\ (forall row, In row (coin_indicators st') ->
        In row (coin_indicators st) \/ user_response row = None)
  /\ exists rest,
       toasts st' = toasts st ++ trade_recorded c :: rest
       /\ toasts next = toasts st ++ rest.
Proof.
  intros Hid Ht Hc. cbn zeta. unfold handleBuy, handleNext, guarded_row.
  rewrite Hid, Hc, Ht. unfold next_settled.
  destruct (Z.of_nat (currentIndex (tradeView st))
            <? Z.of_nat (List.length hookCoins) - 1)%Z;
    destruct a2 as [| |e]; cbn; repeat split;
    try (intros row Hin; try apply in_app_iff in Hin;
         try destruct Hin as [Hin|[<-|[]]]; auto; fail);
    try (exists []; split; [reflexivity | rewrite app_nil_r; reflexivity]);
    try (eexists; split; [rewrite <- app_assoc; reflexivity | reflexivity]).
Qed.

(** The first sample coin, with a backend that refuses both inserts. *)
Lemma refused_buy_is_reported_recorded_witness :
  coin_indicators
    (handleBuy sample_coins (tradeView sample_started) Refused Refused
       sample_started) = []
  /\ map title
       (toasts (handleBuy sample_coins (tradeView sample_started)
                  Refused Refused sample_started))
     = ["Analysis Started"; "Trade Recorded"]
  /\ currentIndex
       (tradeView (handleBuy sample_coins (tradeView sample_started)
                     Refused Refused sample_started)) = 1.
Proof.
  destruct (refused_buy_is_reported_recorded sample_coins sample_started
              "view-2"
              {| symbol := "BTCUSDT"; strategy := "buy"; indicators := "rsi" |}
              Refused eq_refl eq_refl eq_refl) as (Hr & Hv & _ & _).
  rewrite Hr, Hv. repeat split.
Defined.

End TradingCoverage.

(* ===================================================================== *)
(** * Properties of the effects of the coin sentiment view *)
(* ===================================================================== *)

Module SentimentViewFacts.

Import Js Data Sentiment SentimentView SentimentFacts SentimentCoverage.

(** ** The loading flags *)

Lemma existsb_app_r {A : Type} (p : A -> bool) (l : list A) (x : A) :
  p x = true -> existsb p (l ++ [x]) = true.
Proof.
  intros H. rewrite existsb_app. cbn [existsb]. rewrite H.
  rewrite orb_true_r. reflexivity.
Qed.

Lemma existsb_app_l {A : Type} (p : A -> bool) (l l' : list A) :
  existsb p l = true -> existsb p (l ++ l') = true.
Proof. intros H. rewrite existsb_app, H. reflexivity. Qed.

Lemma existsb_remove_nth {A : Type} (p : A -> bool) (l : list A) :
  forall n x, nth_error l n = Some x -> p x = false ->
              existsb p (Trading.remove_nth n l) = existsb p l.
Proof.
  induction l as [|y l IH]; intros [|n] x H Hp; cbn [nth_error] in H;
    try discriminate H; cbn [Trading.remove_nth existsb].
  - injection H as ->. rewrite Hp. reflexivity.
  - rewrite (IH n x H Hp). reflexivity.
Qed.

Lemma sentiment_effect_flags (r : Running) :
  flags_have_calls r -> flags_have_calls (sentiment_effect r).
Proof.
  intros [Hl Hc]. unfold sentiment_effect, fetchSentimentData_start.
  destruct (truthy (selectedCoin (state r))); [|split; assumption].
  split; cbn [state waiting].
  - right. apply existsb_app_r. reflexivity.
  - destruct Hc as [Hc|Hc]; [left; exact Hc|].
    right. apply existsb_app_l. exact Hc.
Qed.

Lemma selection_effect_flags (before : string) (r : Running) :
  flags_have_calls r -> flags_have_calls (selection_effect before r).
Proof.
  intros H. unfold selection_effect.
  destruct (selectedCoin (state r) =? before);
    [exact H | apply sentiment_effect_flags; exact H].
Qed.

Lemma fetchCoins_settled_loading (seen : string) (a : Fetched CoinsBody)
  (st : State) :
  loading (fetchCoins_settled seen a st) = loading st
  /\ loadingCoins (fetchCoins_settled seen a st) = false.
Proof.
  unfold fetchCoins_settled.
  destruct a as [| | |[| |[|c cs]]]; try (split; reflexivity).
  destruct (truthy seen); split; reflexivity.
Qed.

Lemma fetchSentimentData_settled_loading
  (a : Fetched (option SentimentData)) (st : State) :
  loading (fetchSentimentData_settled a st) = false
  /\ loadingCoins (fetchSentimentData_settled a st) = loadingCoins st.
Proof. destruct a; split; reflexivity. Qed.

Lemma react_flags (r : Running) (e : event) :
  flags_have_calls r -> flags_have_calls (react r e).
Proof.
  intros [Hl Hc]. destruct e as [coin|n a|n a]; cbn [react].
  - apply selection_effect_flags. split; assumption.
  - destruct (nth_error (waiting r) n) as [[seen|coin]|] eqn:Hn;
      try (split; assumption).
    apply selection_effect_flags.
    destruct (fetchCoins_settled_loading seen a (state r)) as [E1 E2].
    split; cbn [state waiting].
    + rewrite E1. destruct Hl as [Hl|Hl]; [left; exact Hl|]. right.
      rewrite (existsb_remove_nth _ _ _ _ Hn); [exact Hl | reflexivity].
    + left. exact E2.
  - destruct (nth_error (waiting r) n) as [[seen|coin]|] eqn:Hn;
      try (split; assumption).
    destruct (fetchSentimentData_settled_loading a (state r)) as [E1 E2].
    split; cbn [state waiting].
    + left. exact E1.
    + rewrite E2. destruct Hc as [Hc|Hc]; [left; exact Hc|]. right.
      rewrite (existsb_remove_nth _ _ _ _ Hn); [exact Hc | reflexivity].
Qed.

Lemma play_flags (es : list event) : forall r,
  flags_have_calls r -> flags_have_calls (play es r).
Proof.
  unfold play. induction es as [|e es IH]; intros r H; cbn [fold_left];
    [exact H|].
  apply IH. apply react_flags. exact H.
Qed.

(** X20. However selections and responses interleave after the
    component is mounted, a loading flag is set only while a call of its
    kind is waiting for its response: [loading] for fetchSentimentData,
    [loadingCoins] for fetchCoins. With no call waiting, both are off. *)
Theorem loading_flags_have_waiting_calls (es : list event) :
  let r := play es mounted in
  (loading (state r) = false
   \/ exists coin, In (AwaitingSentiment coin) (waiting r))
  /\ (loadingCoins (state r) = false
      \/ exists seen, In (AwaitingCoins seen) (waiting r)).
Proof.
  cbn zeta.
  destruct (play_flags es mounted) as [Hl Hc].
  - split; [left; reflexivity | right; reflexivity].
  - split.
    + destruct Hl as [Hl|Hl]; [left; exact Hl|]. right.
      apply existsb_exists in Hl. destruct Hl as ([seen|coin] & Hin & Hp);
        [discriminate Hp | exists coin; exact Hin].
    + destruct Hc as [Hc|Hc]; [left; exact Hc|]. right.
      apply existsb_exists in Hc. destruct Hc as ([seen|coin] & Hin & Hp);
        [exists seen; exact Hin | discriminate Hp].
Qed.

(** ** Mounting *)

(** X21. After mounting, when the coin list arrives with a first coin
    of a non-empty name, that coin is selected and its data is asked for;
    when that data arrives the counts shown are those of its comments, no
    flag is set, nothing waits and no notification was shown. *)
Theorem mount_selects_first_coin (c : string) (cs : list string)
  (vs : list (string * Video)) :
  truthy c = true ->
  let r1 := play [SettleCoins 0 (Json (CoinList (c :: cs)))] mounted in
  let r2 := play [SettleSentiment 0 (Json (Some {| videos := Some vs |}))] r1 in
  waiting r1 = [AwaitingSentiment c]
  /\ loading (state r1) = true
  /\ selectedCoin (state r2) = c
  /\ availableCoins (state r2) = c :: cs
  /\ total (calculateSentiments (sentimentData (state r2)))
     = List.length (all_comments vs)
  /\ loading (state r2) = false
  /\ loadingCoins (state r2) = false
  /\ waiting r2 = []
  /\ toasts (state r2) = [].
Proof.
  intros Ht. cbn zeta.
  assert (Hne : (c =? "") = false).
  { destruct c; [discriminate Ht | reflexivity]. }
  unfold play, mounted, sentiment_effect. cbn [fold_left].
  cbn -[String.eqb calculateSentiments].
  unfold selection_effect, sentiment_effect. cbn -[String.eqb calculateSentiments].
  rewrite Hne. unfold fetchSentimentData_start. cbn -[calculateSentiments].
  rewrite Ht. cbn -[calculateSentiments].
  repeat split.
  rewrite stats_of_videos. cbn [total]. apply count_partition.
Qed.

(** The coin list ["BTC"; "ETH"] and a dataset with one comment. *)
Lemma mount_selects_first_coin_witness :
  selectedCoin
    (state
       (play [SettleSentiment 0
                (Json (Some {| videos := Some
                     [("v", {| comments := [ {| indicator := "buy" |} ] |})] |}))]
          (play [SettleCoins 0 (Json (CoinList ["BTC"; "ETH"]))] mounted)))
  = "BTC".
Proof.
  apply (mount_selects_first_coin "BTC" ["ETH"]
           [("v", {| comments := [ {| indicator := "buy" |} ] |})] eq_refl).
Defined.

(** ** Selecting a coin *)

Lemma select_starts_fetch (coin : string) (st : State) :
  truthy coin = true -> selectedCoin st <> coin ->
  react {| state := st; waiting := [] |} (Select coin)
  = {| state := setSentimentData None (setLoading true (setSelectedCoin coin st));
       waiting := [AwaitingSentiment coin] |}.
Proof.
  intros Ht Hne. cbn [react state waiting]. unfold selection_effect.
  cbn [state selectedCoin setSelectedCoin].
  destruct (coin =? selectedCoin st) eqn:E;
    [apply String.eqb_eq in E; congruence|].
  unfold sentiment_effect, fetchSentimentData_start.
  cbn [state selectedCoin setSelectedCoin waiting app]. rewrite Ht.
  reflexivity.
Qed.

(** X22. When the fetch for a newly selected coin fails, in any of
    its ways, the data of the coin shown before is gone: the counts are all
    zero, one error notification is shown, and [loading] is off. *)
Theorem failed_fetch_leaves_no_data (coin : string) (st : State)
  (a : Fetched (option SentimentData)) :
  truthy coin = true -> selectedCoin st <> coin -> failure a = true ->
  let r := play [Select coin; SettleSentiment 0 a]
             {| state := st; waiting := [] |} in
  sentimentData (state r) = None
  /\ calculateSentiments (sentimentData (state r)) = no_stats
  /\ (exists t, toasts (state r) = toasts st ++ [t]
                /\ title t = "Error" /\ destructive t = true)
  /\ loading (state r) = false
  /\ selectedCoin (state r) = coin
  /\ waiting r = [].
Proof.
  intros Ht Hne Hf. cbn zeta. unfold play. cbn [fold_left].
  rewrite (select_starts_fetch coin st Ht Hne).
  destruct a as [| | |d]; try discriminate Hf; cbn;
    (repeat split; eexists; repeat split).
Qed.

Lemma failed_fetch_leaves_no_data_witness :
  total (calculateSentiments (sentimentData showing_btc)) = 1
  /\ calculateSentiments
       (sentimentData
          (state (play [Select "ETH"; SettleSentiment 0 NotOk]
                    {| state := showing_btc; waiting := [] |})))
     = no_stats.
Proof.
  split; [reflexivity|].
  apply (failed_fetch_leaves_no_data "ETH" showing_btc NotOk eq_refl);
    [discriminate | reflexivity].
Defined.

(** X23. Responses are taken as they come. When a second coin is
    selected before the data of the first has arrived and the first
    response arrives last, the data kept is that of the first coin while
    the second is the selected one; [loading] goes off with the first
    response to arrive, while the other call still waits. *)
Theorem late_response_replaces_newer_data (first second : string)
  (st : State) (d1 d2 : option SentimentData) :
  truthy first = true -> truthy second = true ->
  selectedCoin st <> first -> first <> second ->
  let r1 := play [Select first; Select second; SettleSentiment 1 (Json d2)]
              {| state := st; waiting := [] |} in
  let r2 := play [SettleSentiment 0 (Json d1)] r1 in
  loading (state r1) = false
  /\ waiting r1 = [AwaitingSentiment first]
  /\ sentimentData (state r1) = d2
  /\ selectedCoin (state r2) = second
  /\ sentimentData (state r2) = d1
  /\ waiting r2 = [].
Proof.
  intros Ht1 Ht2 Hne Hd. cbn zeta. unfold play. cbn [fold_left].
  rewrite (select_starts_fetch first st Ht1 Hne).
  cbn [react state waiting]. unfold selection_effect.
  cbn [state selectedCoin setSelectedCoin setSentimentData setLoading].
  destruct (second =? first) eqn:E;
    [apply String.eqb_eq in E; congruence|].
  unfold sentiment_effect, fetchSentimentData_start.
  cbn [state selectedCoin setSelectedCoin waiting app]. rewrite Ht2.
  cbn. repeat split.
Qed.

Lemma late_response_replaces_newer_data_witness :
  selectedCoin
    (state
       (play [SettleSentiment 0 (Json (sentimentData showing_btc))]
          (play [Select "ETH"; Select "SOL"; SettleSentiment 1 (Json None)]
             {| state := showing_btc; waiting := [] |}))) = "SOL"
  /\ sentimentData
       (state
          (play [SettleSentiment 0 (Json (sentimentData showing_btc))]
             (play [Select "ETH"; Select "SOL"; SettleSentiment 1 (Json None)]
                {| state := showing_btc; waiting := [] |})))
     = sentimentData showing_btc.
Proof.
  destruct (late_response_replaces_newer_data "ETH" "SOL" showing_btc
              (sentimentData showing_btc) None eq_refl eq_refl)
    as (_ & _ & _ & Hs & Hd & _); [discriminate | discriminate |].
  split; [exact Hs | exact Hd].
Defined.

End SentimentViewFacts.

(* ===================================================================== *)
(** * The card beside the coin sentiment view *)
(* ===================================================================== *)

Module CardFacts.

Import Data Double DoubleFacts TopCoins TopCoinsWords CardWords
  TopCoinsFacts SentimentFacts SentimentCoverage.

(** ** Ties *)

Lemma insert_same_percentage (p : float) (x : Entry) (l : list Entry) :
  fair x -> Forall fair l ->
  filter (same_percentage p) (insert x l)
  = filter (same_percentage p) (x :: l).
Proof.
  intros Hx. induction l as [|y l IH]; intros Hf; cbn [insert];
    [reflexivity|].
  inversion Hf as [|? ? Hy Hf']; subst.
  destruct (0 <? compare x y)%float eqn:E; [|reflexivity].
  cbn [filter] in *. rewrite (IH Hf').
  destruct (same_percentage p x) eqn:Ex; [|reflexivity].
  destruct (same_percentage p y) eqn:Ey; [|reflexivity].
  exfalso. unfold same_percentage in Ex, Ey.
  rewrite (compare_positive x y Hx Hy) in E. apply Z.ltb_lt in E.
  pose proof (eqb_same _ _ p Hx Hy Ex Ey) as R. lia.
Qed.

Lemma sort_same_percentage (p : float) (l : list Entry) :
  Forall fair l ->
  filter (same_percentage p) (sort l) = filter (same_percentage p) l.
Proof.
  induction l as [|x l IH]; intros Hf; [reflexivity|].
  inversion Hf as [|? ? Hx Hf']; subst.
  cbn [sort fold_right]. fold (sort l).
  rewrite (insert_same_percentage p x (sort l) Hx (sort_fair l Hf')).
  cbn [filter]. rewrite (IH Hf'). reflexivity.
Qed.

(** X24. Coins of equal percentage keep the order of the data: the
    returned entries of any one percentage, as doubles compare, are, in
    their order, the first of the data's entries of that percentage. *)
Theorem processData_ties_keep_order (type : SentimentType)
  (entries : list (string * SentimentData)) (p : float) :
  exists rest,
    filter (same_percentage p) (all_entries type entries)
    = filter (same_percentage p) (processData type (Some entries)) ++ rest.
Proof.
  exists (filter (same_percentage p)
            (skipn 10 (sort (all_entries type entries)))).
  unfold processData, Js.slice0. fold (all_entries type entries).
  rewrite <- filter_app, firstn_skipn. unfold all_entries.
  rewrite (sort_same_percentage p _ (collected_fair type entries)).
  reflexivity.
Qed.

(** ** The card and the view *)

Lemma count_others (cs : list Comment) :
  Sentiment.count Sentiment.is_other cs
  = List.length (filter (matches Others) cs)
    + List.length (filter unlabelled cs).
Proof.
  induction cs as [|c cs IH]; [reflexivity|].
  rewrite count_cons, IH. cbn [filter].
  unfold Sentiment.is_other, Sentiment.is_buy, Sentiment.is_sell, matches,
    unlabelled, type_text.
  destruct (indicator c =? "others") eqn:Ho.
  - apply String.eqb_eq in Ho. rewrite Ho. cbn. lia.
  - destruct (indicator c =? "buy"); destruct (indicator c =? "sell");
      cbn; lia.
Qed.

Lemma tally_coin_view (type : SentimentType) (vs : list (string * Video)) :
  let stats := Sentiment.calculateSentiments (Some {| videos := Some vs |}) in
  t_total (tally_coin type vs) = Sentiment.total stats
  /\ t_count (tally_coin type vs)
     = view_count type stats (List.length (filter unlabelled (all_comments vs))).
Proof.
  cbn zeta. destruct (tally_coin_spec type vs) as [-> ->].
  rewrite stats_of_videos.
  cbn [Sentiment.total Sentiment.buy Sentiment.sell Sentiment.others].
  split; [symmetry; apply count_partition|].
  destruct type; cbn [view_count Sentiment.buy Sentiment.sell Sentiment.others].
  - reflexivity.
  - reflexivity.
  - rewrite count_others. lia.
Qed.

(** X25. The card and the coin sentiment view count alike. Every
    returned entry belongs to a coin of the data whose total in the view
    is not zero; its count is the view's buy count on a "buy" card, the
    view's sell count on a "sell" card and, on an "others" card, the
    view's others count less the comments whose indicator is none of
    "buy", "sell" and "others"; its percentage is its count divided by
    the view's total and multiplied by 100, in doubles as the code
    computes it. *)
Theorem card_counts_agree_with_view (type : SentimentType)
  (data : option (list (string * SentimentData))) :
  Forall (fun e =>
            exists entries k vs,
              data = Some entries
              /\ In (k, {| videos := Some vs |}) entries
              /\ coin e = label k
              /\ let stats :=
                   Sentiment.calculateSentiments
                     (Some {| videos := Some vs |}) in
                 0 < Sentiment.total stats
                 /\ count e
                    = view_count type stats
                        (List.length (filter unlabelled (all_comments vs)))
                 /\ percentage e
                    = (number (count e) / number (Sentiment.total stats)
                       * 100)%float)
    (processData type data).
Proof.
  apply Forall_forall. intros e He.
  destruct data as [entries|]; [|destruct He].
  cbn [processData] in He. apply firstn_in in He.
  apply (Permutation_in _ (sort_perm _)) in He.
  apply in_map_iff in He. destruct He as ([k t] & <- & Hin).
  destruct (collect_from_data type entries [] [] (fun _ F => match F with end)
              (k, t) Hin) as ([vd] & vs & Hi & Hv & Ht & Hp).
  cbn [fst snd app videos] in *. subst t vd.
  destruct (tally_coin_view type vs) as [Htot Hcnt]. cbn zeta in *.
  exists entries, k, vs. cbn [to_entry coin count percentage].
  rewrite <- Htot, <- Hcnt. repeat split; assumption || reflexivity.
Qed.

End CardFacts.
